(** * Verification of the credential verifier (src/verification.js, main.js)

    A shallow embedding of [loadUrlDocument], [getPublicKeyFromDID] and
    [verifyCredentialSignature], and of the decisions the page takes
    around them, with the JavaScript values they inspect, the
    process-wide document cache, and the external collaborators (network,
    key and suite constructors, signature library) as explicit oracles. *)

From Stdlib Require Import String Ascii List Bool Lia.
From stdpp Require Import base strings gmap.
Import ListNotations.
Local Open Scope list_scope.
Set Warnings "-register-all".

(** ** JavaScript values

    Values are what [JSON.parse] produces, plus [undefined] (the result of
    reading an absent property).  The code performs no arithmetic on
    document numbers, so a number is kept as its canonical rendering
    (what [String(n)] yields); objects keep their fields in an
    association list, the first binding of a key being the live one. *)

Inductive value : Type :=
| JUndefined
| JNull
| JBool (b : bool)
| JNumber (repr : string)
| JString (s : string)
| JArray (items : list value)
| JObject (fields : list (string * value)).

Fixpoint lookup_field (k : string) (fs : list (string * value)) : value :=
  match fs with
  | [] => JUndefined
  | (k', v) :: rest => if String.eqb k k' then v else lookup_field k rest
  end.

(** Whether the object has an own property [k]. *)
Fixpoint has_field (k : string) (fs : list (string * value)) : bool :=
  match fs with
  | [] => false
  | (k', _) :: rest => String.eqb k k' || has_field k rest
  end.

(** [v.k] or [v[k]] on a value that is neither [null] nor [undefined], for
    the keys this program reads (none of which is inherited from a
    prototype): only objects carry them. *)
Definition get (k : string) (v : value) : value :=
  match v with
  | JObject fs => lookup_field k fs
  | _ => JUndefined
  end.

(** JavaScript truthiness ([!v] is [negb (truthy v)]). *)
Definition truthy (v : value) : bool :=
  match v with
  | JUndefined | JNull => false
  | JBool b => b
  | JNumber r => negb (String.eqb r "0") && negb (String.eqb r "NaN")
  | JString s => negb (String.eqb s "")
  | JArray _ | JObject _ => true
  end.

(** [v === s] for a string primitive [s]. *)
Definition strict_eq_str (v : value) (s : string) : bool :=
  match v with
  | JString t => String.eqb t s
  | _ => false
  end.

(** A thrown [Error] object: the two properties the handlers read. *)
Record JsError : Type := mkError { name : string; message : string }.

Definition Error (msg : string) : JsError := mkError "Error" msg.
Definition TypeError (msg : string) : JsError := mkError "TypeError" msg.

Fixpoint join (sep : string) (l : list string) : string :=
  match l with
  | [] => ""
  | [x] => x
  | x :: rest => x +:+ sep +:+ join sep rest
  end.

(** The strings [Array.prototype.join] puts between the separators:
    [null] and [undefined] elements give the empty string, every other
    element is converted, left to right, and the first conversion that
    throws interrupts the whole. *)
Definition element_strings (convert : value -> JsError + string)
  : list value -> JsError + list string :=
  fix elements (l : list value) : JsError + list string :=
    match l with
    | [] => inr []
    | x :: rest =>
        match match x with
              | JUndefined | JNull => inr ""
              | _ => convert x
              end with
        | inl e => inl e
        | inr s =>
            match elements rest with
            | inl e => inl e
            | inr strings => inr (s :: strings)
            end
        end
    end.

(** String conversion ([ToString]), as a template literal, [join] and the
    DOM's text setters perform it.  An object converts through
    [Object.prototype.toString] unless it has an own [toString] property:
    in a parsed document that property is not callable, [valueOf] then
    returns the object itself, and the conversion throws (the message is
    worded as V8 words it).  An array converts through [join(",")]. *)
Fixpoint to_string (v : value) : JsError + string :=
  match v with
  | JUndefined => inr "undefined"
  | JNull => inr "null"
  | JBool true => inr "true"
  | JBool false => inr "false"
  | JNumber r => inr r
  | JString s => inr s
  | JArray items =>
      match element_strings to_string items with
      | inl e => inl e
      | inr strings => inr (join "," strings)
      end
  | JObject fields =>
      if has_field "toString" fields
      then inl (TypeError "Cannot convert object to primitive value")
      else inr "[object Object]"
  end.

(** [items.join(sep)]. *)
Definition join_values (sep : string) (items : list value) : JsError + string :=
  match element_strings to_string items with
  | inl e => inl e
  | inr strings => inr (join sep strings)
  end.

(** The template literal [`before${v}`]. *)
Definition interpolate (before : string) (v : value) : JsError + string :=
  match to_string v with
  | inl e => inl e
  | inr s => inr (before +:+ s)
  end.

(** ** String primitives used by the program *)

Definition startsWith (s p : string) : bool := String.prefix p s.

Fixpoint includes (s p : string) : bool :=
  String.prefix p s ||
  match s with
  | EmptyString => false
  | String _ rest => includes rest p
  end.

(** [s.split(sep)] for a one-character separator: the first piece and the
    pieces after it (the array always holds at least one piece). *)
Fixpoint split (sep : ascii) (s : string) : string * list string :=
  match s with
  | EmptyString => ("", [])
  | String c rest =>
      let (piece, pieces) := split sep rest in
      if Ascii.eqb c sep then ("", piece :: pieces)
      else (String c piece, pieces)
  end.

Fixpoint drop_chars (n : nat) (s : string) : string :=
  match n, s with
  | O, _ => s
  | S n', String _ rest => drop_chars n' rest
  | S _, EmptyString => EmptyString
  end.

(** [s.replace(pat, rep)] with a string pattern: the first occurrence only. *)
Fixpoint replace_first (pat rep s : string) : string :=
  if String.prefix pat s then rep +:+ drop_chars (String.length pat) s
  else match s with
       | EmptyString => EmptyString
       | String c rest => String c (replace_first pat rep rest)
       end.

(** [s.replace(/c/g, d)]: every occurrence of one character. *)
Fixpoint replace_all (c d : ascii) (s : string) : string :=
  match s with
  | EmptyString => EmptyString
  | String x rest => String (if Ascii.eqb x c then d else x) (replace_all c d rest)
  end.

(** ** Documents and the external collaborators *)

(** The loader's result: [{ contextUrl, document, documentUrl }]. *)
Record ResolvedDocument : Type := mkResolved {
  contextUrl : value;
  document : value;
  documentUrl : value
}.

(** A response whose body [response.json()] either parses or rejects. *)
Record Response : Type := mkResponse {
  ok : bool;
  statusText : string;
  json : JsError + value
}.

(** What becomes of [await fetch(url)] and of the [await response.json()]
    that follows it: the promise rejects, a response arrives with its
    body, or the code waits for ever ([FetchPending]: the request, or the
    body of a response whose status is OK, never arrives). *)
Inductive FetchOutcome : Type :=
| FetchRejects (e : JsError)
| FetchResponds (r : Response)
| FetchPending.

(** The objects built from the two key/suite libraries. *)
Record VerificationKey : Type := mkKey { keyOptions : value }.

Record Suite : Type := mkSuite {
  key : VerificationKey;
  verificationMethod : value
}.

(** What [jsigs.verify] resolves with: [{ verified: true, ... }] or
    [{ verified: false, error, ... }]. *)
Inductive JsigsResult : Type :=
| JsigsVerified
| JsigsInvalid (e : JsError).

(** One run of [jsigs.verify]: it asks its [documentLoader] for documents,
    and then settles before the timer fires ([Settle]) or is still pending
    when the timer fires ([Stall]). *)
Inductive VerifyRun : Type :=
| Settle (r : JsError + JsigsResult)
| Stall
| Load (url : value) (k : JsError + ResolvedDocument -> VerifyRun).

(** The environment of one process: the network (which may answer
    differently as requests accumulate), the two constructors (either may
    throw on what it is given) and the signature library (which reads the
    credential it is given and works on its own copy). *)
Record Env : Type := mkEnv {
  network : list string -> string -> FetchOutcome;
  keyRejected : value -> option JsError;
  suiteRejected : VerificationKey -> value -> option JsError;
  jsigs_verify : value -> Suite -> VerifyRun
}.

(** ** The world: module state and what collaborators observed

    [documentCache] is the module's [Map]; [credentialObject] is the
    caller's credential, which the orchestrator holds by reference; the
    remaining fields record what was asked of the collaborators, newest
    first. *)
Record World : Type := mkWorld {
  documentCache : gmap string ResolvedDocument;
  credentialObject : value;
  requests : list string;
  loaderCalls : list value;
  progressLog : list (nat * string);
  suitesBuilt : list Suite;
  verifyCalls : list (value * Suite);
  timersFired : list N
}.

Definition initialWorld (credential : value) : World :=
  mkWorld ∅ credential [] [] [] [] [] [].

(** How an [async] computation ends: its promise fulfils, rejects, or is
    never settled. *)
Inductive Outcome (A : Type) : Type :=
| Returned (a : A)
| Thrown (e : JsError)
| Pending.

Arguments Returned {A} a.
Arguments Thrown {A} e.
Arguments Pending {A}.

Definition M (A : Type) : Type := World -> Outcome A * World.

Definition ret {A} (a : A) : M A := fun w => (Returned a, w).

Definition throw {A} (e : JsError) : M A := fun w => (Thrown e, w).

(** A computation that waits for ever: what follows it never runs, and no
    handler sees it. *)
Definition bind {A B} (m : M A) (k : A -> M B) : M B :=
  fun w =>
    match m w with
    | (Returned a, w') => k a w'
    | (Thrown e, w') => (Thrown e, w')
    | (Pending, w') => (Pending, w')
    end.

Definition try_catch {A} (body : M A) (handler : JsError -> M A) : M A :=
  fun w =>
    match body w with
    | (Returned a, w') => (Returned a, w')
    | (Thrown e, w') => handler e w'
    | (Pending, w') => (Pending, w')
    end.

Notation "x <- m ;; k" := (bind m (fun x => k))
  (at level 90, m at level 89, right associativity).
Notation "m ;;; k" := (bind m (fun _ => k))
  (at level 90, right associativity).

(** The outcome of synchronous code that may throw. *)
Definition settled {A} (r : JsError + A) : Outcome A :=
  match r with
  | inl e => Thrown e
  | inr a => Returned a
  end.

Definition lift {A} (r : JsError + A) : M A := fun w => (settled r, w).

Definition documentCache_get (url : string) : M (option ResolvedDocument) :=
  fun w => (Returned (documentCache w !! url), w).

Definition documentCache_set (url : string) (r : ResolvedDocument) : M unit :=
  fun w =>
    (Returned tt,
     mkWorld (<[url := r]> (documentCache w)) (credentialObject w) (requests w)
       (loaderCalls w) (progressLog w) (suitesBuilt w) (verifyCalls w) (timersFired w)).

Definition read_credential : M value :=
  fun w => (Returned (credentialObject w), w).

Definition note_loader_call (url : value) : M unit :=
  fun w =>
    (Returned tt,
     mkWorld (documentCache w) (credentialObject w) (requests w)
       (url :: loaderCalls w) (progressLog w) (suitesBuilt w) (verifyCalls w) (timersFired w)).

Definition note_progress (step : nat) (msg : string) : M unit :=
  fun w =>
    (Returned tt,
     mkWorld (documentCache w) (credentialObject w) (requests w)
       (loaderCalls w) ((step, msg) :: progressLog w) (suitesBuilt w) (verifyCalls w)
       (timersFired w)).

Definition note_suite (s : Suite) : M unit :=
  fun w =>
    (Returned tt,
     mkWorld (documentCache w) (credentialObject w) (requests w)
       (loaderCalls w) (progressLog w) (s :: suitesBuilt w) (verifyCalls w) (timersFired w)).

Definition note_verify (c : value) (s : Suite) : M unit :=
  fun w =>
    (Returned tt,
     mkWorld (documentCache w) (credentialObject w) (requests w)
       (loaderCalls w) (progressLog w) (suitesBuilt w) ((c, s) :: verifyCalls w)
       (timersFired w)).

Definition note_timer (ms : N) : M unit :=
  fun w =>
    (Returned tt,
     mkWorld (documentCache w) (credentialObject w) (requests w)
       (loaderCalls w) (progressLog w) (suitesBuilt w) (verifyCalls w) (ms :: timersFired w)).

(** [if (progressCallback) progressCallback(step, msg)] with a constant
    message; the callback is the caller's notification sink, present or
    absent. *)
Definition notify (progressCallback : bool) (step : nat) (msg : string) : M unit :=
  if progressCallback then note_progress step msg else ret tt.

(** The same with a message built by a template literal, which is
    evaluated, and may throw, only when the callback is present. *)
Definition announce (progressCallback : bool) (step : nat) (text : JsError + string)
  : M unit :=
  if progressCallback then msg <- lift text ;; note_progress step msg else ret tt.

(** ** Constants of the module *)

Module PROGRESS_STEPS.
Definition START : nat := 10.
Definition CHECK_PROOF : nat := 25.
Definition RESOLVE_DID : nat := 50.
Definition CREATE_KEY : nat := 65.
Definition SETUP_SUITE : nat := 80.
Definition VERIFY : nat := 100.
End PROGRESS_STEPS.

Module CONTEXTS.
Definition term (id : string) : value := JObject [("@id", JString id)].

Definition W3C_CREDENTIALS_V1 : value :=
  JObject
    [("@version", JNumber "1.1");
     ("id", JString "@id");
     ("type", JString "@type");
     ("VerifiableCredential",
      JObject
        [("@id", JString "https://www.w3.org/2018/credentials#VerifiableCredential");
         ("@context",
          JObject
            [("@version", JNumber "1.1");
             ("id", JString "@id");
             ("type", JString "@type");
             ("credentialSubject",
              term "https://www.w3.org/2018/credentials#credentialSubject");
             ("issuer", term "https://www.w3.org/2018/credentials#issuer");
             ("issuanceDate",
              JObject
                [("@id", JString "https://www.w3.org/2018/credentials#issuanceDate");
                 ("@type", JString "http://www.w3.org/2001/XMLSchema#dateTime")]);
             ("proof",
              JObject
                [("@id", JString "https://w3id.org/security#proof");
                 ("@container", JString "@graph")])])])].

Definition typed (id type : string) : value :=
  JObject [("@id", JString id); ("@type", JString type)].

Definition contained (id type container : string) : value :=
  JObject [("@id", JString id); ("@type", JString type); ("@container", JString container)].

Definition W3C_SECURITY : value :=
  JObject
    [("id", JString "@id");
     ("type", JString "@type");
     ("dc", JString "http://purl.org/dc/terms/");
     ("sec", JString "https://w3id.org/security#");
     ("xsd", JString "http://www.w3.org/2001/XMLSchema#");
     ("Ed25519Signature2018", JString "sec:Ed25519Signature2018");
     ("Ed25519VerificationKey2018", JString "sec:Ed25519VerificationKey2018");
     ("assertionMethod", contained "sec:assertionMethod" "@id" "@set");
     ("authentication", contained "sec:authentication" "@id" "@set");
     ("created", typed "dc:created" "xsd:dateTime");
     ("creator", typed "dc:creator" "@id");
     ("domain", JString "sec:domain");
     ("expires", typed "sec:expiration" "xsd:dateTime");
     ("jws", JString "sec:jws");
     ("nonce", JString "sec:nonce");
     ("proof", contained "sec:proof" "@id" "@graph");
     ("proofPurpose", typed "sec:proofPurpose" "@vocab");
     ("proofValue", JString "sec:proofValue");
     ("publicKey", typed "sec:publicKey" "@id");
     ("publicKeyBase58", JString "sec:publicKeyBase58");
     ("publicKeyPem", JString "sec:publicKeyPem");
     ("challenge", JString "sec:challenge");
     ("controller", typed "sec:controller" "@id");
     ("verificationMethod", typed "sec:verificationMethod" "@id")].

Definition FALLBACK : value :=
  JObject [("@vocab", JString "https://example.org/undefined#")].
End CONTEXTS.

(** ** The returned result object

    [{ verified, error, errors, errorType, originalError }]; a field that
    the object does not have is [None].  [error] holds a message string
    or, for [error.message || error] with an empty message and for the
    library's own result, the error object. *)

Inductive Diagnostic : Type :=
| Message (s : string)
| ErrorObject (e : JsError).

Record VerificationResult : Type := mkResult {
  verified : bool;
  error : option Diagnostic;
  errors : option (list string);
  errorType : option string;
  originalError : option string
}.

(** The object [jsigs.verify] resolved with, as the caller receives it. *)
Definition result_of_jsigs (r : JsigsResult) : VerificationResult :=
  match r with
  | JsigsVerified => mkResult true None None None None
  | JsigsInvalid e => mkResult false (Some (ErrorObject e)) None None None
  end.

(** [`#${verificationMethod.split("#")[1]}`]: the second piece, or the
    text of [undefined] when there is none. *)
Definition fragment_reference (verificationMethod : string) : string :=
  "#" +:+ match snd (split "#" verificationMethod) with
          | fragment :: _ => fragment
          | [] => "undefined"
          end.

(** The predicate handed to [array.find]; reading [method.id] throws on
    [null] and [undefined] (the message is worded as V8 words it). *)
Definition method_matches (verificationMethod : string) (method : value)
  : JsError + bool :=
  match method with
  | JUndefined => inl (TypeError "Cannot read properties of undefined (reading 'id')")
  | JNull => inl (TypeError "Cannot read properties of null (reading 'id')")
  | _ =>
      inr (strict_eq_str (get "id" method) verificationMethod
           || strict_eq_str (get "id" method) (fragment_reference verificationMethod))
  end.

(** [array.find(pred)]: the first element the predicate accepts, else
    [undefined]. *)
Fixpoint array_find (pred : value -> JsError + bool) (items : list value)
  : JsError + value :=
  match items with
  | [] => inr JUndefined
  | x :: rest =>
      match pred x with
      | inl e => inl e
      | inr true => inr x
      | inr false => array_find pred rest
      end
  end.

(** The [for (const array of possibleArrays)] loop; its value is the final
    [publicKey], [null] when no collection yields a key. *)
Fixpoint search_arrays (verificationMethod : string) (possibleArrays : list value)
  : JsError + value :=
  match possibleArrays with
  | [] => inr JNull
  | array :: rest =>
      match array with
      | JArray items =>
          match array_find (method_matches verificationMethod) items with
          | inl e => inl e
          | inr key =>
              if truthy key then inr key
              else search_arrays verificationMethod rest
          end
      | _ => search_arrays verificationMethod rest
      end
  end.

(** The receiver of [verificationMethod.split("#")]: only strings have
    the method. *)
Definition split_receiver (verificationMethod : value) : JsError + string :=
  match verificationMethod with
  | JString s => inr s
  | JUndefined =>
      inl (TypeError "Cannot read properties of undefined (reading 'split')")
  | JNull => inl (TypeError "Cannot read properties of null (reading 'split')")
  | _ => inl (TypeError "verificationMethod.split is not a function")
  end.

Section Program.

Variable E : Env.

(** [await fetch(url)], with the [await response.json()] of a response
    whose status is OK: one network request. *)
Definition fetch (url : string) : M Response :=
  fun w =>
    let w' :=
      mkWorld (documentCache w) (credentialObject w) (url :: requests w)
        (loaderCalls w) (progressLog w) (suitesBuilt w) (verifyCalls w) (timersFired w) in
    match network E (requests w) url with
    | FetchRejects e => (Thrown e, w')
    | FetchResponds r => (Returned r, w')
    | FetchPending => (Pending, w')
    end.

(** [loadUrlDocument(url)].  The first line records the call; the rest
    follows the source branch by branch. *)
Definition loadUrlDocument (url : value) : M ResolvedDocument :=
  note_loader_call url ;;;
  match url with
  | JString url =>
      cached <- documentCache_get url ;;
      match cached with
      | Some result => ret result
      | None =>
          try_catch
            (if startsWith url "urn:"
                || (startsWith url "did:" && negb (startsWith url "did:web:"))
             then
               let result :=
                 mkResolved JNull (JObject [("@id", JString url)]) (JString url) in
               documentCache_set url result ;;; ret result
             else if startsWith url "did:web:" then
               let didParts := replace_first "did:web:" "" url in
               let httpsUrl :=
                 "https://" +:+ replace_all ":" "/" didParts +:+ "/did.json" in
               try_catch
                 (response <- fetch httpsUrl ;;
                  if negb (ok response) then
                    throw (Error ("Failed to load DID document: "
                                  +:+ statusText response))
                  else
                    document <- lift (json response) ;;
                    let result := mkResolved JNull document (JString url) in
                    documentCache_set url result ;;; ret result)
                 (fun error =>
                    let result :=
                      mkResolved JNull (JObject [("@id", JString url)]) (JString url) in
                    documentCache_set url result ;;; ret result)
             else
               response <- fetch url ;;
               if negb (ok response) then
                 throw (Error ("Failed to load document: " +:+ statusText response))
               else
                 document <- lift (json response) ;;
                 let result := mkResolved JNull document (JString url) in
                 documentCache_set url result ;;; ret result)
            (fun error =>
               if String.eqb url "https://www.w3.org/2018/credentials/v1" then
                 let result :=
                   mkResolved JNull
                     (JObject [("@context", CONTEXTS.W3C_CREDENTIALS_V1)]) (JString url) in
                 documentCache_set url result ;;; ret result
               else if String.eqb url "https://w3id.org/security/v2"
                       || String.eqb url "https://w3id.org/security/v1" then
                 let result :=
                   mkResolved JNull
                     (JObject [("@context", CONTEXTS.W3C_SECURITY)]) (JString url) in
                 documentCache_set url result ;;; ret result
               else
                 let result :=
                   mkResolved JNull
                     (JObject [("@context", CONTEXTS.FALLBACK)]) (JString url) in
                 documentCache_set url result ;;; ret result)
      end
  | JUndefined =>
      throw (TypeError "Cannot read properties of undefined (reading 'id')")
  | JNull => throw (TypeError "Cannot read properties of null (reading 'id')")
  | _ =>
      ret (mkResolved JNull url
             (if truthy (get "id" url) then get "id" url else JString ""))
  end.

(** [getPublicKeyFromDID(verificationMethod, progressCallback)].  Past the
    [split], [verificationMethod] is the string [method]. *)
Definition getPublicKeyFromDID (verificationMethod : value) (progressCallback : bool)
  : M value :=
  try_catch
    (announce progressCallback PROGRESS_STEPS.RESOLVE_DID
       (interpolate "Resolving verification method: " verificationMethod) ;;;
     method <- lift (split_receiver verificationMethod) ;;
     let did := fst (split "#" method) in
     response <- loadUrlDocument (JString did) ;;
     let didDocument := document response in
     if negb (truthy didDocument) || strict_eq_str (get "@id" didDocument) did then
       throw (Error "Failed to fetch DID document")
     else
       let possibleArrays :=
         [get "verificationMethod" didDocument;
          get "authentication" didDocument;
          get "assertionMethod" didDocument;
          get "publicKey" didDocument] in
       publicKey <- lift (search_arrays method possibleArrays) ;;
       if negb (truthy publicKey) then
         throw (Error ("Verification method " +:+ method
                       +:+ " not found in DID document"))
       else ret publicKey)
    (fun error =>
       if includes (message error) "Failed to fetch" then ret JNull
       else throw error).

(** [Promise.race([jsigs.verify(...), timeoutPromise])], up to the moment
    the race is settled: the library's loader requests happen through
    [loadUrlDocument]; a run still pending when the 10000 ms timer fires,
    be it waiting for its loader, loses to the timer's rejection
    ([None]). *)
Fixpoint run_verify (run : VerifyRun) : M (option JsigsResult) :=
  match run with
  | Settle r => outcome <- lift r ;; ret (Some outcome)
  | Stall => ret None
  | Load url k =>
      fun w =>
        match loadUrlDocument url w with
        | (Returned loaded, w') => run_verify (k (inr loaded)) w'
        | (Thrown e, w') => run_verify (k (inl e)) w'
        | (Pending, w') => (Returned None, w')
        end
  end.

Definition race_with_timeout (ms : N) (rejection : JsError) (run : VerifyRun)
  : M JsigsResult :=
  outcome <- run_verify run ;;
  match outcome with
  | Some result => ret result
  | None => note_timer ms ;;; throw rejection
  end.

(** [verifyCredentialSignature(credential, progressCallback)].  The
    [credential] argument is a reference to the caller's object, the
    world's [credentialObject]; [note_suite] and [note_verify] record the
    suite constructed and the call to [jsigs.verify]. *)
Definition verifyCredentialSignature (progressCallback : bool) : M VerificationResult :=
  try_catch
    (credential <- read_credential ;;
     if negb (truthy credential) || negb (truthy (get "proof" credential)) then
       ret (mkResult false
              (Some (Message "Invalid credential structure: missing proof"))
              None None None)
     else
       notify progressCallback PROGRESS_STEPS.START "Starting verification" ;;;
       let proof := get "proof" credential in
       if negb (strict_eq_str (get "type" proof) "Ed25519Signature2018") then
         type <- lift (to_string (get "type" proof)) ;;
         ret (mkResult false
                (Some (Message ("Unsupported proof type: " +:+ type
                                +:+ ". Only Ed25519Signature2018 is supported.")))
                None None None)
       else
         announce progressCallback PROGRESS_STEPS.CHECK_PROOF
           (interpolate "Checking proof format: " (get "type" proof)) ;;;
         publicKey <- getPublicKeyFromDID (get "verificationMethod" proof)
                        progressCallback ;;
         if negb (truthy publicKey) then
           ret (mkResult false (Some (Message "Could not resolve verification method"))
                  (Some ["CORS"]) None None)
         else
           notify progressCallback PROGRESS_STEPS.CREATE_KEY
             "Creating verification key" ;;;
           verificationKey <-
             match keyRejected E publicKey with
             | Some e => throw e
             | None => ret (mkKey publicKey)
             end ;;
           notify progressCallback PROGRESS_STEPS.SETUP_SUITE
             "Setting up verification suite" ;;;
           suite <-
             match suiteRejected E verificationKey (get "id" publicKey) with
             | Some e => throw e
             | None => ret (mkSuite verificationKey (get "id" publicKey))
             end ;;
           note_suite suite ;;;
           notify progressCallback PROGRESS_STEPS.VERIFY "Verifying signature" ;;;
           try_catch
             (credential <- read_credential ;;
              note_verify credential suite ;;;
              result <- race_with_timeout 10000%N
                          (Error "Verification timeout after 10 seconds")
                          (jsigs_verify E credential suite) ;;
              ret (result_of_jsigs result))
             (fun verifyError =>
                if includes (message verifyError) "timeout" then
                  ret (mkResult false
                         (Some (Message "Verification timed out. This may be due to network issues or complex credential processing."))
                         None (Some "TIMEOUT") None)
                else throw verifyError))
    (fun error =>
       if String.eqb (name error) "jsonld.ValidationError"
          && includes (message error) "Safe mode" then
         ret (mkResult false
                (Some (Message "JSON-LD safe mode validation error. This typically occurs when the credential contains certain URL patterns that trigger browser security restrictions. In a production environment, this verification would be performed server-side."))
                None (Some "SAFE_MODE") (Some (message error)))
       else
         ret (mkResult false
                (Some (if String.eqb (message error) "" then ErrorObject error
                       else Message (message error)))
                None None None)).

End Program.

(** ** Statement vocabulary

    Relations between the world before and after a computation. *)

(** [keeps R m]: running [m] relates the world before to the world after,
    however [m] ends. *)
Definition keeps {A} (R : World -> World -> Prop) (m : M A) : Prop :=
  forall w, R w (snd (m w)).

(** The relation "field [f] of the world is unchanged". *)
Definition unchanged {X} (f : World -> X) : World -> World -> Prop :=
  fun w w' => f w' = f w.

(** The relation "invariant [I] survives". *)
Definition preserves (I : World -> Prop) : World -> World -> Prop :=
  fun w w' => I w -> I w'.

(** Everything the loader leaves alone. *)
Definition quiet (w w' : World) : Prop :=
  credentialObject w' = credentialObject w /\
  suitesBuilt w' = suitesBuilt w /\
  verifyCalls w' = verifyCalls w /\
  timersFired w' = timersFired w.

(** [settles m]: the computation never throws and never waits for ever. *)
Definition settles {A} (m : M A) : Prop :=
  forall w, exists a w', m w = (Returned a, w').

(** [never_throws m]: the computation returns or waits, but throws
    nothing. *)
Definition never_throws {A} (m : M A) : Prop :=
  forall w e, fst (m w) <> Thrown e.

(** The world a computation leaves behind. *)
Definition after {A} (m : M A) (w : World) : World := snd (m w).

(** *** The document loader *)

Definition after_loader_call (url : value) (w : World) : World :=
  snd (note_loader_call url w).

(** The identifier classes the loader never dereferences. *)
Definition undereferenced (u : string) : bool :=
  startsWith u "urn:" || (startsWith u "did:" && negb (startsWith u "did:web:")).

Definition minimal_document (u : string) : ResolvedDocument :=
  mkResolved JNull (JObject [("@id", JString u)]) (JString u).

(** Cache invariant: an undereferenced identifier is only ever cached
    with its minimal document. *)
Definition cache_sound (w : World) : Prop :=
  forall u r,
    documentCache w !! u = Some r -> undereferenced u = true -> r = minimal_document u.

(** The HTTPS address a [did:web] identifier is fetched from. *)
Definition did_web_address (u : string) : string :=
  "https://" +:+ replace_all ":" "/" (replace_first "did:web:" "" u) +:+ "/did.json".

(** The address the loader requests for an identifier it dereferences. *)
Definition address_of (u : string) : string :=
  if startsWith u "did:web:" then did_web_address u else u.

(** What a fetch delivers: a body (the promise fulfils, the status is OK
    and the body parses), nothing (the promise rejects, the status is not
    OK or the body does not parse), or no answer at all. *)
Inductive Delivery : Type :=
| Body (document : value)
| NoBody
| NoAnswer.

Definition delivered (o : FetchOutcome) : Delivery :=
  match o with
  | FetchRejects _ => NoBody
  | FetchResponds r =>
      if ok r then match json r with inr d => Body d | inl _ => NoBody end
      else NoBody
  | FetchPending => NoAnswer
  end.

(** The loader has to fetch [u], and that fetch is never answered. *)
Definition never_answered (E : Env) (u : string) (w : World) : bool :=
  match documentCache w !! u with
  | Some _ => false
  | None =>
      negb (undereferenced u)
      && match network E (requests w) (address_of u) with
         | FetchPending => true
         | _ => false
         end
  end.

(** The world after one more request, and after one more cache entry. *)
Definition requested (url : string) (w : World) : World :=
  mkWorld (documentCache w) (credentialObject w) (url :: requests w)
    (loaderCalls w) (progressLog w) (suitesBuilt w) (verifyCalls w) (timersFired w).

Definition filed (u : string) (r : ResolvedDocument) (w : World) : World :=
  after (documentCache_set u r) w.

(** The inline context substituted for a plain URL that cannot be loaded. *)
Definition inline_context (u : string) : value :=
  if String.eqb u "https://www.w3.org/2018/credentials/v1" then
    CONTEXTS.W3C_CREDENTIALS_V1
  else if String.eqb u "https://w3id.org/security/v2"
          || String.eqb u "https://w3id.org/security/v1" then
    CONTEXTS.W3C_SECURITY
  else CONTEXTS.FALLBACK.

(** The document substituted for one that cannot be loaded: the
    placeholder for a [did:web] identifier, an inline context otherwise. *)
Definition substitute (u : string) : value :=
  if startsWith u "did:web:" then JObject [("@id", JString u)]
  else JObject [("@context", inline_context u)].

(** Entries present before are present, unchanged, after. *)
Definition cache_grows (w w' : World) : Prop :=
  forall u r, documentCache w !! u = Some r -> documentCache w' !! u = Some r.

(** Every entry is filed under its own [documentUrl], with no upstream
    context. *)
Definition cache_keyed (w : World) : Prop :=
  forall u r,
    documentCache w !! u = Some r -> contextUrl r = JNull /\ documentUrl r = JString u.

(** At most one request was added to the log. *)
Definition one_request_at_most (w w' : World) : Prop :=
  requests w' = requests w \/ exists url, requests w' = url :: requests w.

(** *** The identity resolver *)

(** The owning identifier of a verification-method identifier: what
    precedes its first ["#"]. *)
Definition owner_of (vm : string) : string := fst (split "#" vm).

Definition key_collections (didDocument : value) : list value :=
  [get "verificationMethod" didDocument;
   get "authentication" didDocument;
   get "assertionMethod" didDocument;
   get "publicKey" didDocument].

(** The resolver's test for "the document could not be loaded". *)
Definition treated_unreachable (vm : string) (didDocument : value) : bool :=
  negb (truthy didDocument) || strict_eq_str (get "@id" didDocument) (owner_of vm).

Definition not_found_error (vm : string) : JsError :=
  Error ("Verification method " +:+ vm +:+ " not found in DID document").

(** What the resolver's handler makes of an exception. *)
Definition handled (e : JsError) : JsError + value :=
  if includes (message e) "Failed to fetch" then inr JNull else inl e.

(** The resolver's outcome as a function of the loaded owning document. *)
Definition resolution (vm : string) (didDocument : value) : JsError + value :=
  if treated_unreachable vm didDocument then inr JNull
  else
    match search_arrays vm (key_collections didDocument) with
    | inl e => handled e
    | inr publicKey =>
        if truthy publicKey then inr publicKey else handled (not_found_error vm)
    end.

(** The world in which the resolver loads the owning document. *)
Definition announced (cb : bool) (vm : string) (w : World) : World :=
  snd (notify cb PROGRESS_STEPS.RESOLVE_DID
         ("Resolving verification method: " +:+ vm) w).

(** First-match behaviour of [find] and of the loop over collections. *)
Definition rejects (vm : string) (x : value) : Prop := method_matches vm x = inr false.

Definition yields_no_key (vm : string) (collection : value) : Prop :=
  match collection with
  | JArray items => Forall (rejects vm) items
  | _ => True
  end.

(** An entry whose [id] can be read, and what its [id] says, spelt out. *)
Definition readable (x : value) : Prop := x <> JNull /\ x <> JUndefined.

Definition names_method (vm : string) (x : value) : Prop :=
  get "id" x = JString vm \/ get "id" x = JString (fragment_reference vm).

Definition passed_over (vm : string) (x : value) : Prop :=
  readable x /\ ~ names_method vm x.

Definition holds_no_match (vm : string) (collection : value) : Prop :=
  match collection with
  | JArray items => Forall (passed_over vm) items
  | _ => True
  end.

(** At most one loader call was added to the log. *)
Definition one_load_at_most (w w' : World) : Prop :=
  loaderCalls w' = loaderCalls w \/ exists u, loaderCalls w' = JString u :: loaderCalls w.

(** *** The orchestrator *)

Definition missing_proof_result : VerificationResult :=
  mkResult false (Some (Message "Invalid credential structure: missing proof"))
    None None None.

(** The unsupported-type result, for the text [type] of [proof.type]. *)
Definition unsupported_type_result (type : string) : VerificationResult :=
  mkResult false
    (Some (Message ("Unsupported proof type: " +:+ type
                    +:+ ". Only Ed25519Signature2018 is supported.")))
    None None None.

Definition unresolved_result : VerificationResult :=
  mkResult false (Some (Message "Could not resolve verification method"))
    (Some ["CORS"]) None None.

Definition timeout_result : VerificationResult :=
  mkResult false
    (Some (Message "Verification timed out. This may be due to network issues or complex credential processing."))
    None (Some "TIMEOUT") None.

(** The exceptions the outer handler reports as a safe-mode restriction. *)
Definition safe_mode (e : JsError) : bool :=
  String.eqb (name e) "jsonld.ValidationError" && includes (message e) "Safe mode".

(** The safe-mode result, keeping the [original] message. *)
Definition safe_mode_result (original : string) : VerificationResult :=
  mkResult false
    (Some (Message "JSON-LD safe mode validation error. This typically occurs when the credential contains certain URL patterns that trigger browser security restrictions. In a production environment, this verification would be performed server-side."))
    None (Some "SAFE_MODE") (Some original).

(** What the orchestrator's outer handler returns for an exception. *)
Definition reported (e : JsError) : VerificationResult :=
  if safe_mode e then safe_mode_result (message e)
  else
    mkResult false
      (Some (if String.eqb (message e) "" then ErrorObject e
             else Message (message e)))
      None None None.

(** The structural preconditions of the orchestrator. *)
Definition proof_accepted (credential : value) : bool :=
  truthy credential && truthy (get "proof" credential)
  && strict_eq_str (get "type" (get "proof" credential)) "Ed25519Signature2018".

(** The run of [jsigs.verify] is still pending when the timer fires,
    whatever its document loader returns. *)
Inductive never_settles : VerifyRun -> Prop :=
| stalls_now : never_settles Stall
| stalls_after_load url k :
    (forall loaded, never_settles (k loaded)) -> never_settles (Load url k).

(** What the orchestrator's two handlers make of the settled race. *)
Definition concluded (outcome : Outcome JsigsResult) : Outcome VerificationResult :=
  match outcome with
  | Returned result => Returned (result_of_jsigs result)
  | Thrown e =>
      Returned (if includes (message e) "timeout" then timeout_result else reported e)
  | Pending => Pending
  end.

(** The world once the proof block has been accepted. *)
Definition checked (cb : bool) (w : World) : World :=
  after (announce cb PROGRESS_STEPS.CHECK_PROOF
           (interpolate "Checking proof format: "
              (get "type" (get "proof" (credentialObject w)))))
    (after (notify cb PROGRESS_STEPS.START "Starting verification") w).

(** The world once the suite has been assembled and handed to
    [jsigs.verify]. *)
Definition assembled (cb : bool) (credential : value) (suite : Suite) (w : World)
  : World :=
  after (note_verify credential suite)
    (after (notify cb PROGRESS_STEPS.VERIFY "Verifying signature")
       (after (note_suite suite)
          (after (notify cb PROGRESS_STEPS.SETUP_SUITE "Setting up verification suite")
             (after (notify cb PROGRESS_STEPS.CREATE_KEY "Creating verification key")
                w)))).

(** The caller hands over another credential object. *)
Definition with_credential (credential : value) (w : World) : World :=
  mkWorld (documentCache w) credential (requests w) (loaderCalls w) (progressLog w)
    (suitesBuilt w) (verifyCalls w) (timersFired w).

(** The worlds a process can be in: it starts with an empty cache, and
    only the three exported functions (and the library's loader requests
    inside them) ever run against it. *)
Inductive reachable (E : Env) : World -> Prop :=
| reach_start credential : reachable E (initialWorld credential)
| reach_load url w :
    reachable E w -> reachable E (after (loadUrlDocument E url) w)
| reach_resolve vm cb w :
    reachable E w -> reachable E (after (getPublicKeyFromDID E vm cb) w)
| reach_verify cb w :
    reachable E w -> reachable E (after (verifyCredentialSignature E cb) w)
| reach_credential credential w :
    reachable E w -> reachable E (with_credential credential w).

(** The milestones, in the order the orchestrator reports them. *)
Definition milestones : list nat :=
  [PROGRESS_STEPS.START; PROGRESS_STEPS.CHECK_PROOF; PROGRESS_STEPS.RESOLVE_DID;
   PROGRESS_STEPS.CREATE_KEY; PROGRESS_STEPS.SETUP_SUITE; PROGRESS_STEPS.VERIFY].

(** The milestones reported so far, oldest first. *)
Definition steps_reported (w : World) : list nat := rev (map fst (progressLog w)).

(** *** Where a run of the orchestrator ends, and what it returns there *)

(** The places at which a run ends, with what decides the result. *)
Inductive Ending : Type :=
| ProofMissing
| TypeRejected (text : JsError + string)
| ResolutionPending
| ResolverThrew (method : value) (e : JsError)
| KeyUnresolved
| KeyRefused (e : JsError)
| SuiteRefused (e : JsError)
| RaceSettled (outcome : Outcome (option JsigsResult)).

(** Where the run started in world [w] ends: a function of the
    credential, of the resolver's answer, of the two constructors and of
    the race. *)
Definition ending (E : Env) (cb : bool) (w : World) : Ending :=
  let c := credentialObject w in
  let proof := get "proof" c in
  if negb (truthy c && truthy proof) then ProofMissing
  else if negb (strict_eq_str (get "type" proof) "Ed25519Signature2018") then
    TypeRejected (to_string (get "type" proof))
  else
    match getPublicKeyFromDID E (get "verificationMethod" proof) cb (checked cb w) with
    | (Pending, _) => ResolutionPending
    | (Thrown e, _) => ResolverThrew (get "verificationMethod" proof) e
    | (Returned pk, w1) =>
        if negb (truthy pk) then KeyUnresolved
        else
          match keyRejected E pk with
          | Some e => KeyRefused e
          | None =>
              match suiteRejected E (mkKey pk) (get "id" pk) with
              | Some e => SuiteRefused e
              | None =>
                  let suite := mkSuite (mkKey pk) (get "id" pk) in
                  RaceSettled
                    (fst (run_verify E (jsigs_verify E c suite)
                            (assembled cb c suite w1)))
              end
          end
    end.

(** The result object returned at each ending. *)
Definition result_at (e : Ending) : Outcome VerificationResult :=
  match e with
  | ProofMissing => Returned missing_proof_result
  | TypeRejected (inr type) => Returned (unsupported_type_result type)
  | TypeRejected (inl e) => Returned (reported e)
  | ResolutionPending => Pending
  | ResolverThrew _ e => Returned (reported e)
  | KeyUnresolved => Returned unresolved_result
  | KeyRefused e => Returned (reported e)
  | SuiteRefused e => Returned (reported e)
  | RaceSettled (Returned (Some result)) => Returned (result_of_jsigs result)
  | RaceSettled (Returned None) => Returned timeout_result
  | RaceSettled (Thrown e) =>
      Returned (if includes (message e) "timeout" then timeout_result else reported e)
  | RaceSettled Pending => Pending
  end.

(** The result kinds of the specification (its section 7, and
    [Verified]). *)
Inductive Kind : Type :=
| Verified
| MalformedCredential
| UnsupportedProofType
| UnresolvableIdentity
| MissingVerificationMethod
| SafeModeRestricted
| Timeout
| CryptographicFailure.

(** The kind of an exception the outer handler reports: a safe-mode
    restriction, or the generic failure. *)
Definition kind_of_exception (e : JsError) : Kind :=
  if safe_mode e then SafeModeRestricted else CryptographicFailure.

(** The kind each ending stands for; the resolver's own not-found error
    is the missing verification method, every other exception the generic
    failure. *)
Definition kind_at (e : Ending) : option Kind :=
  match e with
  | ProofMissing => Some MalformedCredential
  | TypeRejected (inr _) => Some UnsupportedProofType
  | TypeRejected (inl e) => Some (kind_of_exception e)
  | ResolutionPending => None
  | ResolverThrew (JString vm) e =>
      if String.eqb (name e) "Error"
         && String.eqb (message e) (message (not_found_error vm))
      then Some MissingVerificationMethod
      else Some (kind_of_exception e)
  | ResolverThrew _ e => Some (kind_of_exception e)
  | KeyUnresolved => Some UnresolvableIdentity
  | KeyRefused e => Some (kind_of_exception e)
  | SuiteRefused e => Some (kind_of_exception e)
  | RaceSettled (Returned (Some JsigsVerified)) => Some Verified
  | RaceSettled (Returned (Some (JsigsInvalid _))) => Some CryptographicFailure
  | RaceSettled (Returned None) => Some Timeout
  | RaceSettled (Thrown e) =>
      if includes (message e) "timeout" then Some Timeout
      else Some (kind_of_exception e)
  | RaceSettled Pending => None
  end.

(** How the returned object shows its kind: three kinds have a tag of
    their own, [Verified] has [verified: true], and the four others share
    the untagged failure, told apart by the diagnostic alone. *)
Definition represents (k : Kind) (r : VerificationResult) : Prop :=
  match k with
  | Verified => r = mkResult true None None None None
  | UnresolvableIdentity => r = unresolved_result
  | Timeout => r = timeout_result
  | SafeModeRestricted =>
      exists original, r = safe_mode_result original
  | MalformedCredential | UnsupportedProofType
  | MissingVerificationMethod | CryptographicFailure =>
      verified r = false /\ errors r = None /\ errorType r = None /\
      originalError r = None /\
      exists d, error r = Some d /\ d <> Message ""
  end.

(** The run waits for ever on the resolution of the key: the proof block
    is accepted, its verification method is a string, and the fetch of
    the owning document is never answered. *)
Definition resolution_unanswered (E : Env) (w : World) : Prop :=
  let c := credentialObject w in
  proof_accepted c = true /\
  exists vm,
    get "verificationMethod" (get "proof" c) = JString vm /\
    never_answered E (owner_of vm) w = true.

(** ** The caller: how the page processes one credential (main.js)

    The page's rendering is left out; what is kept is every decision the
    page takes: the check of the structure, the texts put into the
    summary, which result screen is shown and with what argument. *)

(** [typeof v === "object"]. *)
Definition typeof_object (v : value) : bool :=
  match v with
  | JNull | JArray _ | JObject _ => true
  | _ => false
  end.

(** What [validateCredentialStructure] does when it returns:
    [return true], or [showError(message); return false]. *)
Inductive Validation : Type :=
| Accepted
| Rejected (message : string).

(** [validateCredentialStructure(credential)]; the template literal of
    its last message may throw. *)
Definition validateCredentialStructure (credential : value) : JsError + Validation :=
  if negb (truthy credential) || negb (typeof_object credential) then
    inr (Rejected "Invalid credential: must be a JSON object")
  else if negb (truthy (get "proof" credential))
          || negb (truthy (get "type" (get "proof" credential))) then
    inr (Rejected "Invalid credential: missing proof")
  else if negb (truthy (get "verificationMethod" (get "proof" credential))) then
    inr (Rejected "Invalid credential: missing verificationMethod")
  else if negb (strict_eq_str (get "type" (get "proof" credential))
                  "Ed25519Signature2018") then
    match to_string (get "type" (get "proof" credential)) with
    | inl e => inl e
    | inr type =>
        inr (Rejected ("Unsupported proof type: " +:+ type
                       +:+ ". This verifier only supports Ed25519Signature2018"))
    end
  else inr Accepted.

(** [v.k] where [v] may be [null] or [undefined]. *)
Definition read (k : string) (v : value) : JsError + value :=
  match v with
  | JUndefined =>
      inl (TypeError ("Cannot read properties of undefined (reading '" +:+ k +:+ "')"))
  | JNull =>
      inl (TypeError ("Cannot read properties of null (reading '" +:+ k +:+ "')"))
  | _ => inr (get k v)
  end.

(** [element.textContent = v]: the setter takes a nullable string, so
    [null] and [undefined] clear the text and every other value is
    converted to a string. *)
Definition text_content (v : value) : JsError + string :=
  match v with
  | JUndefined | JNull => inr ""
  | _ => to_string v
  end.

(** [v || "Not specified"]. *)
Definition or_not_specified (v : value) : value :=
  if truthy v then v else JString "Not specified".

(** [s] between double quotes (character 34). *)
Definition quoted (s : string) : string :=
  String "034" s +:+ String "034" EmptyString.

(** What the issuer cell receives: markup, written as it stands into
    [innerHTML], or plain text. *)
Inductive IssuerCell : Type :=
| IssuerMarkup (innerHTML : string)
| IssuerText (textContent : string).

(** The anchor written for a [did:web] issuer. *)
Definition issuer_anchor (didUrl issuerDid : string) : string :=
  "<a href=" +:+ quoted didUrl +:+ " target=" +:+ quoted "_blank"
  +:+ " rel=" +:+ quoted "noopener" +:+ ">" +:+ issuerDid +:+ "</a>".

(** The texts [displayCredentialInfo] puts into the summary. *)
Record CredentialInfo : Type := mkInfo {
  credentialId : string;
  credentialType : string;
  credentialIssuer : IssuerCell;
  credentialDate : string;
  proofType : string
}.

Definition and_then {A B} (r : JsError + A) (k : A -> JsError + B) : JsError + B :=
  match r with
  | inl e => inl e
  | inr a => k a
  end.

(** The text of the type cell:
    [Array.isArray(credential.type) ? credential.type.join(", ") : credential.type]. *)
Definition type_text (type : value) : JsError + string :=
  match type with
  | JArray items => join_values ", " items
  | _ => text_content type
  end.

(** The issuer cell: [issuerDid.startsWith] is a function only when
    [issuerDid] is a string. *)
Definition issuer_cell (issuerDid : value) : JsError + IssuerCell :=
  match issuerDid with
  | JString issuerDid =>
      if startsWith issuerDid "did:web:" then
        let didUrl :=
          "https://"
          +:+ replace_all ":" "/" (replace_first "did:web:" "" issuerDid)
          +:+ "/did.json" in
        inr (IssuerMarkup (issuer_anchor didUrl issuerDid))
      else inr (IssuerText issuerDid)
  | _ => inl (TypeError "issuerDid.startsWith is not a function")
  end.

(** [displayCredentialInfo(credential)]: the summary, or the exception
    that interrupts it. *)
Definition displayCredentialInfo (credential : value) : JsError + CredentialInfo :=
  and_then (read "id" credential) (fun id =>
  and_then (text_content (or_not_specified id)) (fun credentialId =>
  and_then (read "type" credential) (fun type =>
  and_then (type_text type) (fun credentialType =>
  and_then (read "issuer" credential) (fun issuer =>
  and_then (issuer_cell (or_not_specified issuer)) (fun credentialIssuer =>
  and_then (read "issuanceDate" credential) (fun issuanceDate =>
  and_then (text_content (or_not_specified issuanceDate)) (fun credentialDate =>
  and_then (read "proof" credential) (fun proof =>
  and_then (read "type" proof) (fun type =>
  and_then (text_content type) (fun proofType =>
  inr (mkInfo credentialId credentialType credentialIssuer credentialDate
         proofType)))))))))))).

(** The argument of [showFailure]:
    [result.error || result.errors || "Verification failed"]. *)
Inductive FailureArgument : Type :=
| TheError (d : Diagnostic)
| TheErrors (l : list string)
| TheDefault (text : string).

(** The result screen shown, named after the function that shows it. *)
Inductive Screen : Type :=
| ShowSuccess
| ShowPartialSuccess
| ShowPartialSuccessForSafeMode (errorMessage : option Diagnostic)
| ShowTimeoutError
| ShowFailure (error : FailureArgument)
| ShowError (message : string).

Definition diagnostic_truthy (d : Diagnostic) : bool :=
  match d with
  | Message s => negb (String.eqb s "")
  | ErrorObject _ => true
  end.

Definition failure_argument (result : VerificationResult) : FailureArgument :=
  match error result with
  | Some d =>
      if diagnostic_truthy d then TheError d
      else match errors result with
           | Some l => TheErrors l
           | None => TheDefault "Verification failed"
           end
  | None =>
      match errors result with
      | Some l => TheErrors l
      | None => TheDefault "Verification failed"
      end
  end.

(** The [if]/[else if] chain of [verifyCredential] over the result. *)
Definition show_result (result : VerificationResult) : Screen :=
  if verified result then ShowSuccess
  else if match errors result with
          | Some l => existsb (String.eqb "CORS") l
          | None => false
          end then ShowPartialSuccess
  else if match errorType result with
          | Some t => String.eqb t "SAFE_MODE"
          | None => false
          end then ShowPartialSuccessForSafeMode (error result)
  else if match errorType result with
          | Some t => String.eqb t "TIMEOUT"
          | None => false
          end then ShowTimeoutError
  else ShowFailure (failure_argument result).

Section Caller.

Variable E : Env.

(** [verifyCredential(credential)]: the detail of its second progress
    step interpolates [credential.proof.type]; the callback it passes
    only adds progress steps to the page.  Its value is the screen shown
    once the orchestrator has answered. *)
Definition verifyCredential : M Screen :=
  try_catch
    (credential <- read_credential ;;
     proof <- lift (read "proof" credential) ;;
     type <- lift (read "type" proof) ;;
     detail <- lift (interpolate "Type: " type) ;;
     result <- verifyCredentialSignature E true ;;
     ret (show_result result))
    (fun error => ret (ShowError (message error))).

(** [processCredential(credential)]: the summary displayed, if any, and
    the screen shown in the end. *)
Definition processCredential : M (option CredentialInfo * Screen) :=
  credential <- read_credential ;;
  validation <- lift (validateCredentialStructure credential) ;;
  match validation with
  | Rejected message => ret (None, ShowError message)
  | Accepted =>
      info <- lift (displayCredentialInfo credential) ;;
      screen <- verifyCredential ;;
      ret (Some info, screen)
  end.

(** The [onload] handler of [readAndProcessFile], given what
    [JSON.parse] made of the file's text. *)
Definition reader_onload (parsed : JsError + value)
  : M (option CredentialInfo * Screen) :=
  try_catch
    (credential <- lift parsed ;;
     fun w => processCredential (with_credential credential w))
    (fun error => ret (None, ShowError ("Invalid JSON file: " +:+ message error))).

End Caller.

(** A value whose conversion to a string does not throw. *)
Definition printable (v : value) : bool :=
  match to_string v with
  | inr _ => true
  | inl _ => false
  end.

(** The issuer the summary can show: a string, or a falsy value (shown
    as "Not specified"). *)
Definition issuer_displayable (credential : value) : bool :=
  match get "issuer" credential with
  | JString _ => true
  | issuer => negb (truthy issuer)
  end.

(** The summary of the credential can be displayed. *)
Definition displayable (credential : value) : bool :=
  printable (get "id" credential) && printable (get "type" credential)
  && issuer_displayable credential && printable (get "issuanceDate" credential).

(** ** A concrete scenario

    An issuer [did:web:example.com:issuer] whose document lists the
    signing key twice: in [verificationMethod] keyed by its relative
    fragment, and in [authentication] keyed by the full identifier, with
    different key material. *)
Module Scenario.

Definition did : string := "did:web:example.com:issuer".

Definition vm : string := "did:web:example.com:issuer#key-1".

Definition fragmentKey : value :=
  JObject
    [("id", JString "#key-1");
     ("type", JString "Ed25519VerificationKey2018");
     ("controller", JString did);
     ("publicKeyBase58", JString "6MkpTHR8VNsBxYAAWHut2Geadd9jSwuBV8xRoAnwWsdvktH")].

Definition authenticationKey : value :=
  JObject
    [("id", JString vm);
     ("type", JString "Ed25519VerificationKey2018");
     ("controller", JString did);
     ("publicKeyBase58", JString "GfHq2tTVk9z4eXgyRG8RkKM7kNFf7rzeRJM4EGG5bJXF")].

Definition didDocument : value :=
  JObject
    [("id", JString did);
     ("verificationMethod", JArray [fragmentKey]);
     ("authentication",
      JArray [JString "did:web:example.com:issuer#key-0"; authenticationKey])].

(** A full document that names itself with the JSON-LD keyword. *)
Definition selfNamingDocument : value :=
  JObject
    [("@id", JString did);
     ("verificationMethod", JArray [fragmentKey])].

(** The same, with the key in two collections. *)
Definition selfNamingTwice : value :=
  JObject
    [("@id", JString did);
     ("verificationMethod", JArray [fragmentKey]);
     ("authentication", JArray [authenticationKey])].

(** The network serves [doc] at the issuer's well-known URL and refuses
    everything else; both constructors accept what they are given; the
    library behaves as [run]. *)
Definition serving (doc : value) (run : VerifyRun) : Env :=
  mkEnv
    (fun _ url =>
       if String.eqb url "https://example.com/issuer/did.json"
       then FetchResponds (mkResponse true "OK" (inr doc))
       else FetchRejects (TypeError "Failed to fetch"))
    (fun _ => None)
    (fun _ _ => None)
    (fun _ _ => run).

Definition credential : value :=
  JObject
    [("@context", JArray [JString "https://www.w3.org/2018/credentials/v1"]);
     ("id", JString "urn:uuid:3978344f-8596-4c3a-a978-8fcaba3903c5");
     ("type", JArray [JString "VerifiableCredential"]);
     ("issuer", JString did);
     ("issuanceDate", JString "2025-08-07T17:34:52.054Z");
     ("credentialSubject", JObject [("id", JString "did:example:subject")]);
     ("proof",
      JObject
        [("type", JString "Ed25519Signature2018");
         ("proofPurpose", JString "assertionMethod");
         ("verificationMethod", JString vm);
         ("created", JString "2025-08-07T17:34:52Z");
         ("jws", JString "eyJhbGciOiJFZERTQSJ9..c2lnbmF0dXJl")])].

Definition rsaCredential : value :=
  JObject
    [("id", JString "urn:uuid:3978344f-8596-4c3a-a978-8fcaba3903c5");
     ("proof", JObject [("type", JString "RsaSignature2018")])].

(** A credential whose [proof.type] is an object with a [toString]
    member, as a JSON file can hold. *)
Definition opaqueTypeCredential : value :=
  JObject
    [("id", JString "urn:uuid:3978344f-8596-4c3a-a978-8fcaba3903c5");
     ("proof", JObject [("type", JObject [("toString", JNumber "0")])])].

(** The library loads the credentials context and then never settles. *)
Definition stalling : VerifyRun :=
  Load (JString "https://www.w3.org/2018/credentials/v1") (fun _ => Stall).

Definition settling : VerifyRun :=
  Load (JString "https://www.w3.org/2018/credentials/v1")
    (fun _ => Settle (inr JsigsVerified)).

(** No request is ever answered. *)
Definition unanswered (run : VerifyRun) : Env :=
  mkEnv (fun _ _ => FetchPending) (fun _ => None) (fun _ _ => None) (fun _ _ => run).

End Scenario.

(** ** Further concrete cases *)
Module Cases.

(** No request succeeds. *)
Definition offline (run : VerifyRun) : Env :=
  mkEnv (fun _ _ => FetchRejects (TypeError "Failed to fetch"))
    (fun _ => None)
    (fun _ _ => None)
    (fun _ _ => run).

(** The issuer's document is served, but the key constructor refuses
    every record. *)
Definition refusing (doc : value) (e : JsError) (run : VerifyRun) : Env :=
  mkEnv (network (Scenario.serving doc run)) (fun _ => Some e) (fun _ _ => None)
    (fun _ _ => run).

(** The issuer's document is served and the key is constructed, but the
    suite constructor refuses it. *)
Definition suiteRefusing (doc : value) (e : JsError) (run : VerifyRun) : Env :=
  mkEnv (network (Scenario.serving doc run)) (fun _ => None) (fun _ _ => Some e)
    (fun _ _ => run).

Definition proof_with (verificationMethod : value) : value :=
  JObject
    [("type", JString "Ed25519Signature2018");
     ("proofPurpose", JString "assertionMethod");
     ("verificationMethod", verificationMethod);
     ("jws", JString "eyJhbGciOiJFZERTQSJ9..c2lnbmF0dXJl")].

Definition didKey : string := "did:key:z6MkpTHR8VNsBxYAAWHut2Geadd9jSwuBV8xRoAnwWsdvktH".

Definition didKeyMethod : string :=
  "did:key:z6MkpTHR8VNsBxYAAWHut2Geadd9jSwuBV8xRoAnwWsdvktH#z6MkpTHR8VNsBxYAAWHut2Geadd9jSwuBV8xRoAnwWsdvktH".

(** A credential signed with a [did:key]. *)
Definition didKeyCredential : value :=
  JObject
    [("id", JString "urn:uuid:58172aac-d8ba-11ed-83dd-0b3aef56cc33");
     ("type", JArray [JString "VerifiableCredential"; JString "AlumniCredential"]);
     ("issuer", JString didKey);
     ("issuanceDate", JString "2023-04-11T21:31:24Z");
     ("proof", proof_with (JString didKeyMethod))].

(** A credential whose issuer is an object, as the data model allows. *)
Definition issuerObjectCredential : value :=
  JObject
    [("id", JString "urn:uuid:58172aac-d8ba-11ed-83dd-0b3aef56cc33");
     ("type", JArray [JString "VerifiableCredential"]);
     ("issuer", JObject [("id", JString Scenario.did); ("name", JString "Example")]);
     ("proof", proof_with (JString Scenario.vm))].

(** A credential one of whose types is an object with a [toString]
    member. *)
Definition opaqueTypeEntryCredential : value :=
  JObject
    [("id", JString "urn:uuid:58172aac-d8ba-11ed-83dd-0b3aef56cc33");
     ("type", JArray [JString "VerifiableCredential";
                      JObject [("toString", JNumber "0")]]);
     ("issuer", JString Scenario.did);
     ("proof", proof_with (JString Scenario.vm))].

(** A credential whose proof names no verification method. *)
Definition methodlessCredential : value :=
  JObject
    [("id", JString "urn:uuid:58172aac-d8ba-11ed-83dd-0b3aef56cc33");
     ("proof",
      JObject [("type", JString "Ed25519Signature2018");
               ("jws", JString "eyJhbGciOiJFZERTQSJ9..c2lnbmF0dXJl")])].

(** The issuer's document after the key was removed. *)
Definition keylessDocument : value :=
  JObject
    [("id", JString Scenario.did);
     ("verificationMethod", JArray []);
     ("authentication", JArray [JString "did:web:example.com:issuer#key-0"])].

Definition keyError : JsError := TypeError "The publicKeyBase58 property is required.".

Definition suiteError : JsError := TypeError "The key is not of the expected type.".

Definition slowNetworkError : JsError :=
  Error "network timeout at: https://example.com/contexts/v1".

Definition safeModeError : JsError :=
  mkError "jsonld.ValidationError"
    "Safe mode validation error.".

End Cases.

(** The summaries the page displays for two of the credentials above. *)
Module Summaries.

Definition credential : CredentialInfo :=
  mkInfo "urn:uuid:3978344f-8596-4c3a-a978-8fcaba3903c5"
    "VerifiableCredential"
    (IssuerMarkup (issuer_anchor "https://example.com/issuer/did.json" Scenario.did))
    "2025-08-07T17:34:52.054Z"
    "Ed25519Signature2018".

Definition didKeyCredential : CredentialInfo :=
  mkInfo "urn:uuid:58172aac-d8ba-11ed-83dd-0b3aef56cc33"
    "VerifiableCredential, AlumniCredential"
    (IssuerText Cases.didKey)
    "2023-04-11T21:31:24Z"
    "Ed25519Signature2018".

End Summaries.

(** ** The primitives on sample inputs *)

Example split_vm :
  split "#" "did:web:example.com:u#key-1" = ("did:web:example.com:u", ["key-1"]).
Proof. reflexivity. Qed.

Example split_no_fragment : split "#" "did:web:example.com" = ("did:web:example.com", []).
Proof. reflexivity. Qed.

Example fragment_reference_without_fragment :
  fragment_reference "did:web:example.com" = "#undefined".
Proof. reflexivity. Qed.

Example did_web_url :
  did_web_address "did:web:example.com:u:7" = "https://example.com/u/7/did.json".
Proof. reflexivity. Qed.

Example to_string_array :
  to_string (JArray [JString "a"; JNull; JNumber "1.5"; JArray [JBool true]])
  = inr "a,,1.5,true".
Proof. reflexivity. Qed.

Example to_string_plain_object :
  to_string (JObject [("id", JString "a")]) = inr "[object Object]".
Proof. reflexivity. Qed.

Example to_string_object_with_own_toString :
  to_string (JArray [JString "a"; JObject [("toString", JNumber "0")]])
  = inl (TypeError "Cannot convert object to primitive value").
Proof. reflexivity. Qed.

Example summary_of_scenario_credential :
  displayCredentialInfo Scenario.credential = inr Summaries.credential.
Proof. vm_compute. reflexivity. Qed.

(** ** Reasoning about computations in [M] *)

Arguments startsWith : simpl never.
Arguments includes : simpl never.
Arguments replace_first : simpl never.
Arguments replace_all : simpl never.
Arguments split : simpl never.
Arguments to_string : simpl nomatch.

Section Frames.

Variable R : World -> World -> Prop.
Hypothesis R_refl : forall w, R w w.
Hypothesis R_trans : forall a b c, R a b -> R b c -> R a c.

Lemma keeps_ret {A} (a : A) : keeps R (ret a).
Proof. intros w. apply R_refl. Qed.

Lemma keeps_throw {A} (e : JsError) : keeps R (@throw A e).
Proof. intros w. apply R_refl. Qed.

Lemma keeps_lift {A} (r : JsError + A) : keeps R (lift r).
Proof. intros w. apply R_refl. Qed.

Lemma keeps_bind {A B} (m : M A) (k : A -> M B) :
  keeps R m -> (forall a, keeps R (k a)) -> keeps R (bind m k).
Proof.
  intros Hm Hk w. unfold bind. specialize (Hm w).
  destruct (m w) as [[a | e |] w1]; simpl in *; try assumption.
  eapply R_trans; [exact Hm | apply Hk].
Qed.

Lemma keeps_try_catch {A} (body : M A) (handler : JsError -> M A) :
  keeps R body -> (forall e, keeps R (handler e)) -> keeps R (try_catch body handler).
Proof.
  intros Hb Hh w. unfold try_catch. specialize (Hb w).
  destruct (body w) as [[a | e |] w1]; simpl in *; try assumption.
  eapply R_trans; [exact Hb | apply Hh].
Qed.

Lemma keeps_read_cache (u : string) : keeps R (documentCache_get u).
Proof. intros w. apply R_refl. Qed.

Lemma keeps_read_credential : keeps R read_credential.
Proof. intros w. apply R_refl. Qed.

End Frames.

Lemma unchanged_refl {X} (f : World -> X) w : unchanged f w w.
Proof. reflexivity. Qed.

Lemma unchanged_trans {X} (f : World -> X) a b c :
  unchanged f a b -> unchanged f b c -> unchanged f a c.
Proof. unfold unchanged. congruence. Qed.

Lemma preserves_refl (I : World -> Prop) w : preserves I w w.
Proof. intros H. exact H. Qed.

Lemma preserves_trans (I : World -> Prop) a b c :
  preserves I a b -> preserves I b c -> preserves I a c.
Proof. unfold preserves. auto. Qed.

(** Structural steps of a frame proof, for a relation [R] whose
    reflexivity and transitivity are [Hr] and [Ht]. *)
Ltac frame_step Hr Ht :=
  first
    [ apply (keeps_ret _ Hr)
    | apply (keeps_throw _ Hr)
    | apply (keeps_lift _ Hr)
    | apply (keeps_read_cache _ Hr)
    | apply (keeps_read_credential _ Hr)
    | apply (keeps_bind _ Ht); [| intros ?]
    | apply (keeps_try_catch _ Ht); [| intros ?]
    | match goal with
      | |- keeps _ (if ?b then _ else _) => destruct b
      | |- keeps _ (match ?x with _ => _ end) => destruct x
      | |- keeps _ (let _ := _ in _) => cbv zeta
      end ].

(** A computation that throws nothing, piece by piece. *)
Lemma never_throws_ret {A} (a : A) : never_throws (ret a).
Proof. intros w e. discriminate. Qed.

Lemma never_throws_bind {A B} (m : M A) (k : A -> M B) :
  never_throws m -> (forall a, never_throws (k a)) -> never_throws (bind m k).
Proof.
  intros Hm Hk w e. unfold bind. specialize (Hm w).
  destruct (m w) as [[a | e' |] w1]; cbn [fst] in *.
  - apply Hk.
  - exfalso. exact (Hm e' eq_refl).
  - discriminate.
Qed.

Lemma never_throws_try_catch {A} (body : M A) (handler : JsError -> M A) :
  (forall e, never_throws (handler e)) -> never_throws (try_catch body handler).
Proof.
  intros Hh w e. unfold try_catch.
  destruct (body w) as [[a | e' |] w1]; cbn [fst]; try discriminate.
  apply Hh.
Qed.

Section Properties.

Variable E : Env.

(** *** The document loader *)

(** Cache hit: the cached triple, verbatim; nothing but the call itself is
    recorded. *)
Lemma loadUrlDocument_hit (u : string) (r : ResolvedDocument) (w : World) :
  documentCache w !! u = Some r ->
  loadUrlDocument E (JString u) w = (Returned r, after_loader_call (JString u) w).
Proof.
  intros Hhit. unfold loadUrlDocument, bind, documentCache_get, note_loader_call.
  simpl. rewrite Hhit. reflexivity.
Qed.

Lemma did_web_is_dereferenced (u : string) :
  startsWith u "did:web:" = true -> undereferenced u = false.
Proof.
  unfold undereferenced. intros Hweb. rewrite Hweb.
  assert (Hurn : startsWith u "urn:" = false).
  { unfold startsWith in *. destruct u as [| c u]; [reflexivity |].
    cbn [String.prefix] in *.
    destruct (ascii_dec "d" c) as [<- |]; [reflexivity | discriminate Hweb]. }
  rewrite Hurn. destruct (startsWith u "did:"); reflexivity.
Qed.

(** Cache miss: the loader's answer and its effects, branch by branch. *)
Lemma loadUrlDocument_miss (u : string) (w : World) :
  documentCache w !! u = None ->
  loadUrlDocument E (JString u) w
  = let w0 := after_loader_call (JString u) w in
    if undereferenced u then
      (Returned (minimal_document u), filed u (minimal_document u) w0)
    else
      match delivered (network E (requests w) (address_of u)) with
      | Body d =>
          (Returned (mkResolved JNull d (JString u)),
           filed u (mkResolved JNull d (JString u)) (requested (address_of u) w0))
      | NoBody =>
          (Returned (mkResolved JNull (substitute u) (JString u)),
           filed u (mkResolved JNull (substitute u) (JString u))
             (requested (address_of u) w0))
      | NoAnswer => (Pending, requested (address_of u) w0)
      end.
Proof.
  intros Hmiss. unfold loadUrlDocument, bind, documentCache_get, note_loader_call.
  cbn [fst snd documentCache]. rewrite Hmiss. fold (undereferenced u).
  cbv zeta. unfold address_of, substitute, inline_context.
  destruct (undereferenced u) eqn:Hu; [reflexivity |].
  unfold try_catch, bind, fetch, delivered, after_loader_call, note_loader_call.
  destruct (startsWith u "did:web:") eqn:Hweb; cbn [fst snd requests].
  - fold (did_web_address u).
    destruct (network E (requests w) (did_web_address u)) as [e | r |];
      [reflexivity | | reflexivity].
    destruct (ok r); cbn [negb]; [| reflexivity].
    unfold lift. destruct (json r); reflexivity.
  - destruct (network E (requests w) u) as [e | r |].
    + destruct (String.eqb u _); [reflexivity |].
      destruct (_ || _); reflexivity.
    + destruct (ok r); cbn [negb].
      * unfold lift. destruct (json r); cbn [settled]; [| reflexivity].
        destruct (String.eqb u _); [reflexivity |].
        destruct (_ || _); reflexivity.
      * unfold throw. destruct (String.eqb u _); [reflexivity |].
        destruct (_ || _); reflexivity.
    + reflexivity.
Qed.

(** The loader waits for ever exactly when the fetch it needs is never
    answered. *)
Lemma loadUrlDocument_pending (u : string) (w : World) :
  fst (loadUrlDocument E (JString u) w) = Pending <-> never_answered E u w = true.
Proof.
  unfold never_answered.
  destruct (documentCache w !! u) as [r |] eqn:Hc.
  - rewrite (loadUrlDocument_hit u r w Hc). split; discriminate.
  - rewrite (loadUrlDocument_miss u w Hc). cbv zeta. unfold delivered.
    destruct (undereferenced u); cbn [negb andb fst]; [split; discriminate |].
    destruct (network E (requests w) (address_of u)) as [e | r |]; cbn [fst].
    + split; discriminate.
    + destruct (ok r); [destruct (json r) |]; split; discriminate.
    + split; reflexivity.
Qed.

(** On a string, the loader waits for ever or returns; what it returns is
    the cache's entry for that string afterwards. *)
Lemma loadUrlDocument_string (u : string) (w : World) :
  if never_answered E u w then
    exists w', loadUrlDocument E (JString u) w = (Pending, w') /\
               documentCache w' = documentCache w
  else
    exists r w', loadUrlDocument E (JString u) w = (Returned r, w') /\
                 documentCache w' !! u = Some r.
Proof.
  unfold never_answered.
  destruct (documentCache w !! u) as [r |] eqn:Hc.
  - exists r, (after_loader_call (JString u) w). split.
    + apply loadUrlDocument_hit, Hc.
    + exact Hc.
  - rewrite (loadUrlDocument_miss u w Hc). cbv zeta. unfold delivered.
    destruct (undereferenced u); cbn [negb andb].
    + eexists. eexists. split; [reflexivity | apply lookup_insert_eq].
    + destruct (network E (requests w) (address_of u)) as [e | r |].
      * eexists. eexists. split; [reflexivity | apply lookup_insert_eq].
      * destruct (ok r); [destruct (json r) |];
          eexists; eexists; (split; [reflexivity | apply lookup_insert_eq]).
      * eexists. split; reflexivity.
Qed.

(** A string never makes the loader throw. *)
Lemma loadUrlDocument_string_outcome (u : string) (w : World) :
  forall e, fst (loadUrlDocument E (JString u) w) <> Thrown e.
Proof.
  intros e. pose proof (loadUrlDocument_string u w) as H.
  destruct (never_answered E u w).
  - destruct H as (w' & -> & _). discriminate.
  - destruct H as (r & w' & -> & _). discriminate.
Qed.

(** What one loader call does to the cache and the network log. *)
Lemma loadUrlDocument_effect (url : value) (w : World) :
  let w' := snd (loadUrlDocument E url w) in
  (documentCache w' = documentCache w /\ one_request_at_most w w') \/
  (exists u r,
      url = JString u /\ documentCache w !! u = None /\
      documentCache w' = <[u := r]> (documentCache w) /\
      contextUrl r = JNull /\ documentUrl r = JString u /\
      one_request_at_most w w' /\
      (undereferenced u = true -> r = minimal_document u /\ requests w' = requests w)).
Proof.
  cbv zeta. unfold one_request_at_most.
  destruct url as [| | b | n | u | l | fs];
    try (left; split; [reflexivity | left; reflexivity]).
  destruct (documentCache w !! u) as [r |] eqn:Hc.
  - left. rewrite (loadUrlDocument_hit u r w Hc). split; [reflexivity | left; reflexivity].
  - rewrite (loadUrlDocument_miss u w Hc). cbv zeta.
    destruct (undereferenced u) eqn:Hu.
    + right. exists u, (minimal_document u).
      split; [reflexivity |]. split; [exact Hc |].
      repeat (split; [reflexivity |]). split; [left; reflexivity |].
      intros _. split; reflexivity.
    + destruct (delivered _) as [d | |].
      * right. exists u. eexists. split; [reflexivity |]. split; [exact Hc |].
        repeat (split; [reflexivity |]).
        split; [right; eexists; reflexivity | intros Hu'; congruence].
      * right. exists u. eexists. split; [reflexivity |]. split; [exact Hc |].
        repeat (split; [reflexivity |]).
        split; [right; eexists; reflexivity | intros Hu'; congruence].
      * left. split; [reflexivity | right; eexists; reflexivity].
Qed.

Lemma loadUrlDocument_sound (url : value) :
  keeps (preserves cache_sound) (loadUrlDocument E url).
Proof.
  intros w Hs. pose proof (loadUrlDocument_effect url w) as Heff. simpl in Heff.
  destruct Heff as [[Hsame _] | (u & r & _ & _ & Hins & _ & _ & _ & Hmin)].
  - intros u r. rewrite Hsame. apply Hs.
  - intros u' r'. rewrite Hins. destruct (decide (u = u')) as [<- | Hne].
    + rewrite lookup_insert_eq. intros [= <-] Hu. apply Hmin, Hu.
    + rewrite lookup_insert_ne by exact Hne. apply Hs.
Qed.

Lemma cache_grows_refl (w : World) : cache_grows w w.
Proof. intros u r H. exact H. Qed.

Lemma cache_grows_trans (a b c : World) :
  cache_grows a b -> cache_grows b c -> cache_grows a c.
Proof. unfold cache_grows. auto. Qed.

Lemma loadUrlDocument_grows (url : value) : keeps cache_grows (loadUrlDocument E url).
Proof.
  intros w. pose proof (loadUrlDocument_effect url w) as Heff. simpl in Heff.
  destruct Heff as [[Hsame _] | (u & r & _ & Hnone & Hins & _)]; intros u' r' Hu'.
  - rewrite Hsame. exact Hu'.
  - rewrite Hins. destruct (decide (u = u')) as [<- | Hne].
    + rewrite Hnone in Hu'. discriminate Hu'.
    + rewrite lookup_insert_ne by exact Hne. exact Hu'.
Qed.

Lemma loadUrlDocument_keyed (url : value) :
  keeps (preserves cache_keyed) (loadUrlDocument E url).
Proof.
  intros w Hk. pose proof (loadUrlDocument_effect url w) as Heff. simpl in Heff.
  destruct Heff as [[Hsame _] | (u & r & _ & _ & Hins & Hctx & Hurl & _)]; intros u' r'.
  - rewrite Hsame. apply Hk.
  - rewrite Hins. destruct (decide (u = u')) as [<- | Hne].
    + rewrite lookup_insert_eq. intros [= <-]. split; assumption.
    + rewrite lookup_insert_ne by exact Hne. apply Hk.
Qed.

Lemma loadUrlDocument_one_request (url : value) (w : World) :
  one_request_at_most w (after (loadUrlDocument E url) w).
Proof.
  pose proof (loadUrlDocument_effect url w) as Heff. simpl in Heff.
  destruct Heff as [[_ H] | (u & r & _ & _ & _ & _ & _ & H & _)]; exact H.
Qed.

Lemma quiet_refl w : quiet w w.
Proof. repeat split. Qed.

Lemma quiet_trans a b c : quiet a b -> quiet b c -> quiet a c.
Proof. unfold quiet. intuition congruence. Qed.

Ltac quiet_prim :=
  match goal with
  | |- keeps quiet (fetch _ _) =>
      let w := fresh "w" in
      intros w; unfold fetch;
      match goal with |- context [network ?e ?l ?u] => destruct (network e l u) end;
      repeat split
  | |- keeps quiet (documentCache_set _ _) => intros ?; repeat split
  | |- keeps quiet (note_loader_call _) => intros ?; repeat split
  | |- keeps quiet (note_progress _ _) => intros ?; repeat split
  end.

Lemma loadUrlDocument_quiet (url : value) : keeps quiet (loadUrlDocument E url).
Proof.
  unfold loadUrlDocument.
  repeat first [frame_step quiet_refl quiet_trans | quiet_prim].
Qed.

Ltac quiet_step :=
  first
    [ apply loadUrlDocument_quiet
    | frame_step quiet_refl quiet_trans
    | quiet_prim
    | match goal with
      | |- keeps quiet (notify ?cb _ _) => destruct cb; unfold notify
      | |- keeps quiet (announce ?cb _ _) => destruct cb; unfold announce
      end ].

Ltac sound_prim :=
  match goal with
  | |- keeps (preserves cache_sound) (note_progress _ _) => intros ? Hsound; exact Hsound
  | |- keeps (preserves cache_sound) (note_suite _) => intros ? Hsound; exact Hsound
  | |- keeps (preserves cache_sound) (note_verify _ _) => intros ? Hsound; exact Hsound
  | |- keeps (preserves cache_sound) (note_timer _) => intros ? Hsound; exact Hsound
  | |- keeps (preserves cache_sound) (notify ?cb _ _) => destruct cb; unfold notify
  | |- keeps (preserves cache_sound) (announce ?cb _ _) => destruct cb; unfold announce
  end.

Ltac sound_step :=
  first
    [ apply loadUrlDocument_sound
    | frame_step (preserves_refl cache_sound) (preserves_trans cache_sound)
    | sound_prim ].

(** Steps that leave the cache alone keep any relation that only reads
    the cache. *)
Ltac cache_prim :=
  match goal with
  | |- keeps cache_grows (notify ?cb _ _) => destruct cb; unfold notify
  | |- keeps (preserves _) (notify ?cb _ _) => destruct cb; unfold notify
  | |- keeps cache_grows (announce ?cb _ _) => destruct cb; unfold announce
  | |- keeps (preserves _) (announce ?cb _ _) => destruct cb; unfold announce
  | |- keeps cache_grows (note_progress _ _) => intros ? ? ? Hin; exact Hin
  | |- keeps cache_grows (note_suite _) => intros ? ? ? Hin; exact Hin
  | |- keeps cache_grows (note_verify _ _) => intros ? ? ? Hin; exact Hin
  | |- keeps cache_grows (note_timer _) => intros ? ? ? Hin; exact Hin
  | |- keeps (preserves cache_keyed) (note_progress _ _) => intros ? Hin; exact Hin
  | |- keeps (preserves cache_keyed) (note_suite _) => intros ? Hin; exact Hin
  | |- keeps (preserves cache_keyed) (note_verify _ _) => intros ? Hin; exact Hin
  | |- keeps (preserves cache_keyed) (note_timer _) => intros ? Hin; exact Hin
  end.

(** The progress log is written by [notify] and [announce] alone. *)
Ltac silent_prim :=
  match goal with
  | |- keeps (unchanged progressLog) (fetch _ _) =>
      let w := fresh "w" in
      intros w; unfold fetch, unchanged;
      match goal with |- context [network ?e ?l ?u] => destruct (network e l u) end;
      reflexivity
  | |- keeps (unchanged progressLog) (documentCache_set _ _) => intros ?; reflexivity
  | |- keeps (unchanged progressLog) (note_loader_call _) => intros ?; reflexivity
  end.

Lemma loadUrlDocument_silent (url : value) :
  keeps (unchanged progressLog) (loadUrlDocument E url).
Proof.
  unfold loadUrlDocument.
  repeat first [ frame_step (unchanged_refl progressLog) (unchanged_trans progressLog)
               | silent_prim ].
Qed.

Lemma loadUrlDocument_logged (url : value) (w : World) :
  loaderCalls (after (loadUrlDocument E url) w) = url :: loaderCalls w.
Proof.
  unfold after.
  destruct url as [| | b | n | u | l | fs]; try reflexivity.
  destruct (documentCache w !! u) as [r |] eqn:Hc.
  - rewrite (loadUrlDocument_hit u r w Hc). reflexivity.
  - rewrite (loadUrlDocument_miss u w Hc). cbv zeta.
    destruct (undereferenced u); [reflexivity |].
    destruct (delivered _); reflexivity.
Qed.

(** *** The identity resolver *)

Lemma getPublicKeyFromDID_quiet (vm : value) (cb : bool) :
  keeps quiet (getPublicKeyFromDID E vm cb).
Proof. unfold getPublicKeyFromDID. repeat quiet_step. Qed.

Lemma getPublicKeyFromDID_sound (vm : value) (cb : bool) :
  keeps (preserves cache_sound) (getPublicKeyFromDID E vm cb).
Proof. unfold getPublicKeyFromDID. repeat sound_step. Qed.

Lemma getPublicKeyFromDID_grows (vm : value) (cb : bool) :
  keeps cache_grows (getPublicKeyFromDID E vm cb).
Proof.
  unfold getPublicKeyFromDID.
  repeat first [ apply loadUrlDocument_grows
               | frame_step cache_grows_refl cache_grows_trans
               | cache_prim ].
Qed.

Lemma getPublicKeyFromDID_keyed (vm : value) (cb : bool) :
  keeps (preserves cache_keyed) (getPublicKeyFromDID E vm cb).
Proof.
  unfold getPublicKeyFromDID.
  repeat first [ apply loadUrlDocument_keyed
               | frame_step (preserves_refl cache_keyed) (preserves_trans cache_keyed)
               | cache_prim ].
Qed.

Lemma notify_returns (cb : bool) (step : nat) (msg : string) (w : World) :
  notify cb step msg w = (Returned tt, snd (notify cb step msg w)).
Proof. destruct cb; reflexivity. Qed.

Lemma announce_text (cb : bool) (step : nat) (msg : string) :
  announce cb step (inr msg) = notify cb step msg.
Proof. destruct cb; reflexivity. Qed.

(** The resolver on a string: it announces itself, loads the owning
    document, and its answer is a function of that document. *)
Lemma getPublicKeyFromDID_string (vm : string) (cb : bool) (w : World) :
  getPublicKeyFromDID E (JString vm) cb w
  = match loadUrlDocument E (JString (owner_of vm)) (announced cb vm w) with
    | (Returned resp, w1) => (settled (resolution vm (document resp)), w1)
    | (Thrown e, w1) => (settled (handled e), w1)
    | (Pending, w1) => (Pending, w1)
    end.
Proof.
  unfold getPublicKeyFromDID, try_catch, bind, interpolate.
  cbn [to_string]. rewrite announce_text, notify_returns. fold (announced cb vm w).
  cbn [split_receiver lift settled fst snd]. fold (owner_of vm).
  destruct (loadUrlDocument E (JString (owner_of vm)) (announced cb vm w))
    as [[resp | e |] w1].
  - unfold resolution. fold (treated_unreachable vm (document resp)).
    fold (key_collections (document resp)).
    destruct (treated_unreachable vm (document resp)).
    + reflexivity.
    + destruct (search_arrays vm (key_collections (document resp))) as [e | k].
      * unfold lift, throw, handled, ret. cbn [settled].
        destruct (includes (message e) "Failed to fetch"); reflexivity.
      * unfold lift. cbn [settled]. destruct (truthy k); cbn [negb]; [reflexivity |].
        unfold throw, handled, not_found_error, ret.
        destruct (includes _ "Failed to fetch"); reflexivity.
  - unfold handled, ret, throw.
    destruct (includes (message e) "Failed to fetch"); reflexivity.
  - reflexivity.
Qed.

Lemma announced_frame (cb : bool) (vm : string) (w : World) :
  documentCache (announced cb vm w) = documentCache w /\
  requests (announced cb vm w) = requests w /\
  loaderCalls (announced cb vm w) = loaderCalls w.
Proof. destruct cb; repeat split. Qed.

Lemma announced_sound (cb : bool) (vm : string) (w : World) :
  cache_sound w -> cache_sound (announced cb vm w).
Proof. destruct cb; intros H; exact H. Qed.

(** Whether a fetch is never answered depends on the cache and on the
    requests made so far, and on nothing else. *)
Lemma never_answered_frame (u : string) (w w' : World) :
  documentCache w' = documentCache w -> requests w' = requests w ->
  never_answered E u w' = never_answered E u w.
Proof. intros Hc Hr. unfold never_answered. rewrite Hc, Hr. reflexivity. Qed.

Lemma never_answered_announced (cb : bool) (vm u : string) (w : World) :
  never_answered E u (announced cb vm w) = never_answered E u w.
Proof. destruct (announced_frame cb vm w) as (Hc & Hr & _). apply never_answered_frame; assumption. Qed.

(** The resolver on a string whose owning document is answered. *)
Lemma getPublicKeyFromDID_answered (vm : string) (cb : bool) (w : World) :
  never_answered E (owner_of vm) w = false ->
  exists resp w1,
    loadUrlDocument E (JString (owner_of vm)) (announced cb vm w) = (Returned resp, w1) /\
    documentCache w1 !! owner_of vm = Some resp /\
    getPublicKeyFromDID E (JString vm) cb w = (settled (resolution vm (document resp)), w1).
Proof.
  intros Hans. pose proof (loadUrlDocument_string (owner_of vm) (announced cb vm w)) as H.
  rewrite never_answered_announced, Hans in H. destruct H as (resp & w1 & Hload & Hcached).
  exists resp, w1. split; [exact Hload |]. split; [exact Hcached |].
  rewrite getPublicKeyFromDID_string, Hload. reflexivity.
Qed.

(** Induction on values, through the elements of arrays. *)
Lemma value_induction (P : value -> Prop) :
  P JUndefined -> P JNull -> (forall b, P (JBool b)) -> (forall r, P (JNumber r)) ->
  (forall s, P (JString s)) ->
  (forall items, Forall P items -> P (JArray items)) ->
  (forall fields, P (JObject fields)) ->
  forall v, P v.
Proof.
  intros Hu Hn Hb Hr Hs Ha Ho. fix IH 1. intros v.
  destruct v as [| | b | r | s | items | fields];
    [exact Hu | exact Hn | apply Hb | apply Hr | apply Hs | | apply Ho].
  apply Ha. induction items as [| x rest IHrest]; constructor; [apply IH | exact IHrest].
Qed.

Lemma to_string_of_array (items : list value) :
  to_string (JArray items)
  = match element_strings to_string items with
    | inl e => inl e
    | inr strings => inr (join "," strings)
    end.
Proof. reflexivity. Qed.

Lemma to_string_of_object (fields : list (string * value)) :
  to_string (JObject fields)
  = if has_field "toString" fields
    then inl (TypeError "Cannot convert object to primitive value")
    else inr "[object Object]".
Proof. reflexivity. Qed.

(** The one exception a string conversion raises. *)
Lemma to_string_error (v : value) (e : JsError) :
  to_string v = inl e -> e = TypeError "Cannot convert object to primitive value".
Proof.
  revert e. induction v as [| | b | r | s | items IH | fields] using value_induction;
    intros e; cbn [to_string]; try discriminate.
  - destruct b; discriminate.
  - rewrite to_string_of_array.
    destruct (element_strings to_string items) as [e' | strings] eqn:Hel;
      [| discriminate].
    intros [= <-]. clear - IH Hel. revert e' Hel.
    induction IH as [| x rest Hx _ IHrest]; intros e'; cbn [element_strings];
      [discriminate |].
    destruct (match x with JUndefined | JNull => inr "" | _ => to_string x end)
      as [ex | sx] eqn:Hxs.
    + intros [= <-]. apply Hx. destruct x; try discriminate Hxs; exact Hxs.
    + fold (element_strings to_string rest).
      destruct (element_strings to_string rest) as [er | sr]; [| discriminate].
      intros [= <-]. apply IHrest. reflexivity.
  - rewrite to_string_of_object.
    destruct (has_field "toString" fields); [| discriminate]. intros [= <-]. reflexivity.
Qed.

(** The resolver on anything but a string: a [TypeError], raised before
    anything is loaded. *)
Lemma getPublicKeyFromDID_not_string (vm : value) (cb : bool) (w : World) :
  (forall s, vm <> JString s) ->
  exists msg w',
    getPublicKeyFromDID E vm cb w = (Thrown (TypeError msg), w') /\
    loaderCalls w' = loaderCalls w /\ requests w' = requests w /\
    documentCache w' = documentCache w /\ quiet w w' /\
    (progressLog w' = progressLog w \/
     exists text,
       cb = true /\ progressLog w' = (PROGRESS_STEPS.RESOLVE_DID, text) :: progressLog w).
Proof.
  intros Hns.
  assert (Hsplit : exists msg, split_receiver vm = inl (TypeError msg)).
  { destruct vm as [| | b | n | s | l | fs]; try (eexists; reflexivity).
    exfalso. exact (Hns s eq_refl). }
  destruct Hsplit as [msg Hsplit].
  unfold getPublicKeyFromDID, announce, interpolate, try_catch, bind, lift.
  destruct cb.
  - destruct (to_string vm) as [e | text] eqn:Hs; cbn [settled fst snd].
    + rewrite (to_string_error vm e Hs). cbn [message].
      change (includes "Cannot convert object to primitive value" "Failed to fetch")
        with false.
      eexists. eexists. split; [reflexivity |]. repeat split. left. reflexivity.
    + rewrite Hsplit. cbn [settled note_progress fst snd message].
      assert (Hmark : includes msg "Failed to fetch" = false).
      { destruct vm as [| | b | n | s | l | fs]; try (injection Hsplit as <-; reflexivity).
        exfalso. exact (Hns s eq_refl). }
      change (message (TypeError msg)) with msg.
      rewrite Hmark. eexists. eexists. split; [reflexivity |]. repeat split.
      right. eexists. split; reflexivity.
  - cbn [ret fst snd]. rewrite Hsplit. cbn [settled message].
    assert (Hmark : includes msg "Failed to fetch" = false).
    { destruct vm as [| | b | n | s | l | fs]; try (injection Hsplit as <-; reflexivity).
      exfalso. exact (Hns s eq_refl). }
    change (message (TypeError msg)) with msg.
    rewrite Hmark. eexists. eexists. split; [reflexivity |]. repeat split.
    left. reflexivity.
Qed.

(** The resolver waits for ever exactly when its argument is a string and
    the fetch of the owning document is never answered. *)
Lemma getPublicKeyFromDID_pending (vm : value) (cb : bool) (w : World) :
  fst (getPublicKeyFromDID E vm cb w) = Pending <->
  exists s, vm = JString s /\ never_answered E (owner_of s) w = true.
Proof.
  split.
  - intros Hp.
    assert (Hstr : exists s, vm = JString s).
    { destruct vm as [| | b | n | s | l | fs]; try (eexists; reflexivity);
        match goal with
        | _ : context [getPublicKeyFromDID E ?v cb w] |- _ =>
            destruct (getPublicKeyFromDID_not_string v cb w) as (msg & w' & Hthrow & _);
            [intros s; discriminate | rewrite Hthrow in Hp; discriminate Hp]
        end. }
    destruct Hstr as [s ->]. exists s. split; [reflexivity |].
    destruct (never_answered E (owner_of s) w) eqn:Hans; [reflexivity |].
    destruct (getPublicKeyFromDID_answered s cb w Hans) as (resp & w1 & _ & _ & Hk).
    rewrite Hk in Hp. cbn [fst] in Hp. destruct (resolution s (document resp)); discriminate Hp.
  - intros (s & -> & Hans).
    rewrite getPublicKeyFromDID_string.
    pose proof (loadUrlDocument_string (owner_of s) (announced cb s w)) as H.
    rewrite never_answered_announced, Hans in H. destruct H as (w1 & -> & _). reflexivity.
Qed.

(** The handler's test on the resolver's own messages. *)
Lemma includes_cons (c : ascii) (s p : string) :
  includes (String c s) p = String.prefix p (String c s) || includes s p.
Proof. reflexivity. Qed.

Lemma append_cons (c : ascii) (s t : string) : String c s +:+ t = String c (s +:+ t).
Proof. reflexivity. Qed.

Lemma append_empty (t : string) : "" +:+ t = t.
Proof. reflexivity. Qed.

Lemma prefix_before_not_found (s : string) :
  String.prefix "Failed to fetch" (s +:+ " not found in DID document")
  = String.prefix "Failed to fetch" s.
Proof.
  repeat
    (destruct s as [| ? s];
     [ vm_compute; reflexivity
     | rewrite append_cons; cbn [String.prefix];
       match goal with
       | |- context [ascii_dec ?a ?b] => destruct (ascii_dec a b); [| reflexivity]
       end ]).
  destruct s; reflexivity.
Qed.

Lemma includes_before_not_found (s : string) :
  includes (s +:+ " not found in DID document") "Failed to fetch"
  = includes s "Failed to fetch".
Proof.
  induction s as [| c s IH].
  - vm_compute. reflexivity.
  - rewrite append_cons, !includes_cons, IH. f_equal.
    rewrite <- append_cons.
    apply (prefix_before_not_found (String c s)).
Qed.

Lemma includes_not_found (vm : string) :
  includes (message (not_found_error vm)) "Failed to fetch"
  = includes vm "Failed to fetch".
Proof.
  unfold not_found_error, Error. cbn [message].
  rewrite !append_cons, append_empty.
  repeat (rewrite includes_cons;
          match goal with
          | |- String.prefix _ (String ?c _) || _ = _ =>
              change (String.prefix "Failed to fetch" (String c ?r)) with false
          end; cbn [orb]).
  apply includes_before_not_found.
Qed.

Lemma method_matches_error (vm : string) (x : value) (e : JsError) :
  method_matches vm x = inl e -> handled e = inl e.
Proof. destruct x; intros [= <-]; reflexivity. Qed.

Lemma array_find_error (vm : string) (items : list value) (e : JsError) :
  array_find (method_matches vm) items = inl e -> handled e = inl e.
Proof.
  induction items as [| x rest IH]; cbn [array_find]; [discriminate |].
  destruct (method_matches vm x) as [e' | [|]] eqn:Hx.
  - intros [= <-]. eapply method_matches_error, Hx.
  - discriminate.
  - exact IH.
Qed.

Lemma search_arrays_error (vm : string) (arrays : list value) (e : JsError) :
  search_arrays vm arrays = inl e -> handled e = inl e.
Proof.
  induction arrays as [| a rest IH]; cbn [search_arrays]; [discriminate |].
  destruct a; try exact IH.
  destruct (array_find (method_matches vm) items) as [e' | k] eqn:Hf.
  - intros [= <-]. eapply array_find_error, Hf.
  - destruct (truthy k); [discriminate | exact IH].
Qed.

(** A record the predicate accepts is an object, hence truthy. *)
Lemma method_matches_truthy (vm : string) (x : value) :
  method_matches vm x = inr true -> truthy x = true.
Proof. destruct x; cbn; intros H; try discriminate H; reflexivity. Qed.

Lemma strict_eq_str_true (v : value) (s : string) :
  strict_eq_str v s = true <-> v = JString s.
Proof.
  destruct v; cbn; try (split; discriminate).
  rewrite String.eqb_eq. split; congruence.
Qed.

(** The predicate, spelt out: it accepts the readable entries whose [id]
    is the identifier or its fragment reference, and rejects the other
    readable entries. *)
Lemma method_matches_names (vm : string) (x : value) :
  readable x -> names_method vm x -> method_matches vm x = inr true.
Proof.
  intros [Hnull Hundef] Hid. unfold method_matches.
  destruct x; try congruence; f_equal; apply orb_true_iff;
    (destruct Hid as [Hid | Hid]; [left | right]); apply strict_eq_str_true, Hid.
Qed.

Lemma method_matches_passed_over (vm : string) (x : value) :
  passed_over vm x -> method_matches vm x = inr false.
Proof.
  intros [[Hnull Hundef] Hid]. unfold method_matches.
  destruct x; try congruence; f_equal; apply orb_false_iff;
    (split; apply not_true_is_false; intros H; apply strict_eq_str_true in H;
     apply Hid; [left | right]; exact H).
Qed.

Lemma array_find_found (vm : string) (items : list value) (k : value) :
  array_find (method_matches vm) items = inr k -> truthy k = true ->
  method_matches vm k = inr true /\ In k items.
Proof.
  induction items as [| x rest IH]; cbn [array_find].
  - intros [= <-]. discriminate.
  - destruct (method_matches vm x) as [e' | [|]] eqn:Hx.
    + discriminate.
    + intros [= <-] _. split; [exact Hx | left; reflexivity].
    + intros Hf Hk. destruct (IH Hf Hk) as [Hm Hin]. split; [exact Hm | right; exact Hin].
Qed.

Lemma search_arrays_found (vm : string) (arrays : list value) (k : value) :
  search_arrays vm arrays = inr k -> truthy k = true ->
  method_matches vm k = inr true /\
  exists items, In (JArray items) arrays /\ In k items.
Proof.
  induction arrays as [| a rest IH]; cbn [search_arrays].
  - intros [= <-]. discriminate.
  - assert (Hrest : search_arrays vm rest = inr k -> truthy k = true ->
                    method_matches vm k = inr true /\
                    exists items, In (JArray items) (a :: rest) /\ In k items).
    { intros Hs Hk. destruct (IH Hs Hk) as (Hm & items & Hin & Hki).
      split; [exact Hm |]. exists items. split; [right; exact Hin | exact Hki]. }
    destruct a; try exact Hrest.
    destruct (array_find (method_matches vm) items) as [e' | k'] eqn:Hf;
      [discriminate |].
    destruct (truthy k') eqn:Hk'; [| exact Hrest].
    intros [= <-] _. destruct (array_find_found vm items k' Hf Hk') as [Hm Hin].
    split; [exact Hm |]. exists items. split; [left; reflexivity | exact Hin].
Qed.

Lemma array_find_none (vm : string) (items : list value) :
  Forall (rejects vm) items -> array_find (method_matches vm) items = inr JUndefined.
Proof.
  induction 1 as [| x rest Hx _ IH]; cbn [array_find]; [reflexivity |].
  rewrite Hx. exact IH.
Qed.

Lemma array_find_first (vm : string) (pre post : list value) (e : value) :
  Forall (rejects vm) pre -> method_matches vm e = inr true ->
  array_find (method_matches vm) (pre ++ e :: post) = inr e.
Proof.
  intros Hpre He. induction Hpre as [| x rest Hx _ IH]; cbn [array_find app].
  - rewrite He. reflexivity.
  - rewrite Hx. exact IH.
Qed.

Lemma search_arrays_first (vm : string) (before after pre post : list value) (e : value) :
  Forall (yields_no_key vm) before ->
  Forall (rejects vm) pre -> method_matches vm e = inr true ->
  search_arrays vm (before ++ JArray (pre ++ e :: post) :: after) = inr e.
Proof.
  intros Hbefore Hpre He.
  induction Hbefore as [| a rest Ha _ IH]; cbn [search_arrays app].
  - rewrite (array_find_first vm pre post e Hpre He).
    rewrite (method_matches_truthy vm e He). reflexivity.
  - destruct a; try exact IH.
    cbn in Ha. rewrite (array_find_none vm items Ha). exact IH.
Qed.

Lemma search_arrays_none (vm : string) (arrays : list value) :
  Forall (yields_no_key vm) arrays -> search_arrays vm arrays = inr JNull.
Proof.
  induction 1 as [| a rest Ha _ IH]; cbn [search_arrays]; [reflexivity |].
  destruct a; try exact IH.
  cbn in Ha. rewrite (array_find_none vm items Ha). exact IH.
Qed.

Lemma passed_over_rejects (vm : string) (items : list value) :
  Forall (passed_over vm) items -> Forall (rejects vm) items.
Proof.
  intros H. eapply Forall_impl; [exact H |].
  intros x. apply method_matches_passed_over.
Qed.

Lemma holds_no_match_yields_no_key (vm : string) (collections : list value) :
  Forall (holds_no_match vm) collections -> Forall (yields_no_key vm) collections.
Proof.
  intros H. eapply Forall_impl; [exact H |].
  intros c. destruct c; cbn; try exact (fun H => H).
  apply passed_over_rejects.
Qed.

Lemma minimal_treated_unreachable (vm : string) :
  treated_unreachable vm (JObject [("@id", JString (owner_of vm))]) = true.
Proof.
  unfold treated_unreachable. cbn [truthy negb orb].
  change (get "@id" (JObject [("@id", JString (owner_of vm))]))
    with (JString (owner_of vm)).
  apply String.eqb_refl.
Qed.

(** *** The orchestrator *)

Lemma quiet_credential {A} (m : M A) :
  keeps quiet m -> keeps (unchanged credentialObject) m.
Proof. intros H w. apply (H w). Qed.

(** A relation the loader keeps is kept by a run of the library, which
    changes the world through the loader alone. *)
Lemma run_verify_keeps (R : World -> World -> Prop) :
  (forall w, R w w) -> (forall a b c, R a b -> R b c -> R a c) ->
  (forall url, keeps R (loadUrlDocument E url)) ->
  forall run, keeps R (run_verify E run).
Proof.
  intros Hr Ht Hload run.
  induction run as [r | | url k IH]; cbn [run_verify].
  - repeat frame_step Hr Ht.
  - repeat frame_step Hr Ht.
  - intros w. pose proof (Hload url w) as Hl.
    destruct (loadUrlDocument E url w) as [[loaded | e |] w1]; cbn [snd] in *.
    + eapply Ht; [exact Hl | apply IH].
    + eapply Ht; [exact Hl | apply IH].
    + exact Hl.
Qed.

Lemma run_verify_quiet (run : VerifyRun) : keeps quiet (run_verify E run).
Proof.
  apply run_verify_keeps;
    [exact quiet_refl | exact quiet_trans | exact loadUrlDocument_quiet].
Qed.

Lemma run_verify_sound (run : VerifyRun) :
  keeps (preserves cache_sound) (run_verify E run).
Proof.
  apply run_verify_keeps;
    [ exact (preserves_refl cache_sound) | exact (preserves_trans cache_sound)
    | exact loadUrlDocument_sound ].
Qed.

Lemma run_verify_grows (run : VerifyRun) : keeps cache_grows (run_verify E run).
Proof.
  apply run_verify_keeps;
    [exact cache_grows_refl | exact cache_grows_trans | exact loadUrlDocument_grows].
Qed.

Lemma run_verify_keyed (run : VerifyRun) :
  keeps (preserves cache_keyed) (run_verify E run).
Proof.
  apply run_verify_keeps;
    [ exact (preserves_refl cache_keyed) | exact (preserves_trans cache_keyed)
    | exact loadUrlDocument_keyed ].
Qed.

Lemma run_verify_silent (run : VerifyRun) :
  keeps (unchanged progressLog) (run_verify E run).
Proof.
  apply run_verify_keeps;
    [ exact (unchanged_refl progressLog) | exact (unchanged_trans progressLog)
    | exact loadUrlDocument_silent ].
Qed.

(** The race is always settled: by the library, or by the timer. *)
Lemma run_verify_settled (run : VerifyRun) (w : World) :
  fst (run_verify E run w) <> Pending.
Proof.
  revert w. induction run as [r | | url k IH]; intros w; cbn [run_verify].
  - unfold bind, lift. destruct r; discriminate.
  - discriminate.
  - destruct (loadUrlDocument E url w) as [[loaded | e |] w1]; [apply IH | apply IH |].
    discriminate.
Qed.

Lemma run_verify_pending (run : VerifyRun) (w : World) :
  never_settles run -> exists w', run_verify E run w = (Returned None, w') /\ quiet w w'.
Proof.
  intros Hrun. revert w.
  induction Hrun as [| url k _ IH]; intros w; cbn [run_verify].
  - exists w. split; [reflexivity | apply quiet_refl].
  - pose proof (loadUrlDocument_quiet url w) as Hl.
    destruct (loadUrlDocument E url w) as [[loaded | e |] w1]; cbn [snd] in Hl.
    + destruct (IH (inr loaded) w1) as (w' & Hrun' & Hq).
      exists w'. split; [exact Hrun' | eapply quiet_trans; eassumption].
    + destruct (IH (inl e) w1) as (w' & Hrun' & Hq).
      exists w'. split; [exact Hrun' | eapply quiet_trans; eassumption].
    + exists w1. split; [reflexivity | exact Hl].
Qed.

(** The outcome of the race, from the outcome of the library's run. *)
Lemma race_outcome (ms : N) (rejection : JsError) (run : VerifyRun) (w : World) :
  fst (race_with_timeout E ms rejection run w)
  = match fst (run_verify E run w) with
    | Returned (Some result) => Returned result
    | Returned None => Thrown rejection
    | Thrown e => Thrown e
    | Pending => Pending
    end.
Proof.
  unfold race_with_timeout, bind.
  destruct (run_verify E run w) as [[[result |] | e |] w1]; reflexivity.
Qed.

Lemma race_keeps_assembly (ms : N) (rejection : JsError) (run : VerifyRun) (w : World) :
  let w' := snd (race_with_timeout E ms rejection run w) in
  credentialObject w' = credentialObject w /\
  suitesBuilt w' = suitesBuilt w /\
  verifyCalls w' = verifyCalls w.
Proof.
  unfold race_with_timeout, bind.
  pose proof (run_verify_quiet run w) as Hq.
  destruct (run_verify E run w) as [[[r |] | e |] w3];
    destruct Hq as (Hc & Hs & Hv & _); cbn in *; auto.
Qed.

Lemma verifyCredentialSignature_sound (cb : bool) :
  keeps (preserves cache_sound) (verifyCredentialSignature E cb).
Proof.
  unfold verifyCredentialSignature, race_with_timeout.
  repeat first
    [ apply getPublicKeyFromDID_sound
    | apply run_verify_sound
    | sound_step ].
Qed.

Lemma verifyCredentialSignature_grows (cb : bool) :
  keeps cache_grows (verifyCredentialSignature E cb).
Proof.
  unfold verifyCredentialSignature, race_with_timeout.
  repeat first [ apply getPublicKeyFromDID_grows
               | apply run_verify_grows
               | frame_step cache_grows_refl cache_grows_trans
               | cache_prim ].
Qed.

Lemma verifyCredentialSignature_keyed (cb : bool) :
  keeps (preserves cache_keyed) (verifyCredentialSignature E cb).
Proof.
  unfold verifyCredentialSignature, race_with_timeout.
  repeat first [ apply getPublicKeyFromDID_keyed
               | apply run_verify_keyed
               | frame_step (preserves_refl cache_keyed) (preserves_trans cache_keyed)
               | cache_prim ].
Qed.

Lemma reachable_sound (w : World) : reachable E w -> cache_sound w.
Proof.
  induction 1 as [c | url w _ IH | vm cb w _ IH | cb w _ IH | c w _ IH].
  - intros u r Hu. cbn [initialWorld documentCache] in Hu.
    rewrite lookup_empty in Hu. discriminate Hu.
  - exact (loadUrlDocument_sound url w IH).
  - exact (getPublicKeyFromDID_sound vm cb w IH).
  - exact (verifyCredentialSignature_sound cb w IH).
  - exact IH.
Qed.

Lemma reachable_keyed (w : World) : reachable E w -> cache_keyed w.
Proof.
  induction 1 as [c | url w _ IH | vm cb w _ IH | cb w _ IH | c w _ IH].
  - intros u r Hu. cbn [initialWorld documentCache] in Hu.
    rewrite lookup_empty in Hu. discriminate Hu.
  - exact (loadUrlDocument_keyed url w IH).
  - exact (getPublicKeyFromDID_keyed vm cb w IH).
  - exact (verifyCredentialSignature_keyed cb w IH).
  - exact IH.
Qed.

Lemma note_suite_returns (suite : Suite) (w : World) :
  note_suite suite w = (Returned tt, after (note_suite suite) w).
Proof. reflexivity. Qed.

Lemma note_verify_returns (c : value) (suite : Suite) (w : World) :
  note_verify c suite w = (Returned tt, after (note_verify c suite) w).
Proof. reflexivity. Qed.

Lemma proof_accepted_parts (c : value) :
  proof_accepted c = true ->
  truthy c = true /\ truthy (get "proof" c) = true /\
  get "type" (get "proof" c) = JString "Ed25519Signature2018".
Proof.
  unfold proof_accepted. intros H.
  apply andb_prop in H as [H Htype]. apply andb_prop in H as [Hc Hproof].
  apply strict_eq_str_true in Htype. repeat split; assumption.
Qed.

(** Once the proof block is accepted, the two announcements go through. *)
Lemma announce_checked (cb : bool) (w : World) :
  let c := credentialObject w in
  proof_accepted c = true ->
  announce cb PROGRESS_STEPS.CHECK_PROOF
    (interpolate "Checking proof format: " (get "type" (get "proof" c)))
    (after (notify cb PROGRESS_STEPS.START "Starting verification") w)
  = (Returned tt, checked cb w).
Proof.
  intros c Hacc. destruct (proof_accepted_parts c Hacc) as (_ & _ & Htype).
  unfold checked. fold c. rewrite Htype. destruct cb; reflexivity.
Qed.

Lemma checked_frame (cb : bool) (w : World) :
  proof_accepted (credentialObject w) = true ->
  quiet w (checked cb w) /\
  documentCache (checked cb w) = documentCache w /\
  requests (checked cb w) = requests w /\
  loaderCalls (checked cb w) = loaderCalls w.
Proof.
  intros Hacc. destruct (proof_accepted_parts _ Hacc) as (_ & _ & Htype).
  unfold checked. rewrite Htype. destruct cb; repeat split.
Qed.

(** The run that stops at the proof block. *)
Lemma verifyCredentialSignature_stops_early (cb : bool) (w : World) :
  let c := credentialObject w in
  proof_accepted c = false ->
  verifyCredentialSignature E cb w
  = if truthy c && truthy (get "proof" c)
    then (Returned match to_string (get "type" (get "proof" c)) with
                   | inr type => unsupported_type_result type
                   | inl e => reported e
                   end,
          after (notify cb PROGRESS_STEPS.START "Starting verification") w)
    else (Returned missing_proof_result, w).
Proof.
  intros c Hacc. unfold proof_accepted in Hacc. fold c in Hacc.
  unfold verifyCredentialSignature, try_catch, bind, read_credential. fold c.
  destruct (truthy c); cbn [negb orb andb] in *; [| reflexivity].
  destruct (truthy (get "proof" c)); cbn [negb andb] in *; [| reflexivity].
  rewrite Hacc. cbn [negb]. rewrite notify_returns. unfold lift, after.
  destruct (to_string (get "type" (get "proof" c))) as [e | type]; cbn [settled];
    [| reflexivity].
  unfold reported, safe_mode. destruct (_ && _); reflexivity.
Qed.

(** The run past the proof block, up to the race. *)
Lemma verifyCredentialSignature_resolves (cb : bool) (w : World) :
  let c := credentialObject w in
  proof_accepted c = true ->
  verifyCredentialSignature E cb w
  = match getPublicKeyFromDID E (get "verificationMethod" (get "proof" c)) cb
            (checked cb w) with
    | (Pending, w1) => (Pending, w1)
    | (Thrown e, w1) => (Returned (reported e), w1)
    | (Returned pk, w1) =>
        if truthy pk then
          let w2 :=
            after (notify cb PROGRESS_STEPS.CREATE_KEY "Creating verification key") w1
          in
          match keyRejected E pk with
          | Some e => (Returned (reported e), w2)
          | None =>
              match suiteRejected E (mkKey pk) (get "id" pk) with
              | Some e =>
                  (Returned (reported e),
                   after (notify cb PROGRESS_STEPS.SETUP_SUITE
                            "Setting up verification suite") w2)
              | None =>
                  let suite := mkSuite (mkKey pk) (get "id" pk) in
                  let race :=
                    race_with_timeout E 10000%N
                      (Error "Verification timeout after 10 seconds")
                      (jsigs_verify E c suite) (assembled cb c suite w1) in
                  (concluded (fst race), snd race)
              end
          end
        else (Returned unresolved_result, w1)
    end.
Proof.
  intros c Hacc. pose proof (announce_checked cb w Hacc) as Hchecked. fold c in Hchecked.
  pose proof (checked_frame cb w Hacc) as ((Hcred0 & _) & _).
  destruct (proof_accepted_parts c Hacc) as (Hc & Hproof & Htype).
  unfold verifyCredentialSignature, try_catch, bind, read_credential.
  fold c. rewrite Hc, Hproof, Htype. cbn [negb orb strict_eq_str].
  rewrite String.eqb_refl. cbn [negb].
  rewrite (notify_returns cb PROGRESS_STEPS.START).
  rewrite <- Htype at 1. unfold after in Hchecked. rewrite Hchecked.
  pose proof (getPublicKeyFromDID_quiet
                (get "verificationMethod" (get "proof" c)) cb (checked cb w)) as Hq.
  destruct (getPublicKeyFromDID E (get "verificationMethod" (get "proof" c)) cb
              (checked cb w)) as [[pk | e |] w1] eqn:Hkey.
  - destruct Hq as [Hcred1 _]. cbn [snd] in Hcred1.
    destruct (truthy pk) eqn:Hpk; cbn [negb]; [| reflexivity].
    rewrite (notify_returns cb PROGRESS_STEPS.CREATE_KEY).
    destruct (keyRejected E pk) as [e |] eqn:Hrej.
    + unfold throw, reported, safe_mode, ret, after. destruct (_ && _); reflexivity.
    + unfold ret at 1. rewrite (notify_returns cb PROGRESS_STEPS.SETUP_SUITE).
      destruct (suiteRejected E (mkKey pk) (get "id" pk)) as [e |] eqn:Hsuite.
      * unfold throw, reported, safe_mode, ret, after. destruct (_ && _); reflexivity.
      * unfold ret at 1. rewrite note_suite_returns.
        rewrite (notify_returns cb PROGRESS_STEPS.VERIFY).
        rewrite note_verify_returns.
        match goal with
        | |- context [jsigs_verify E (credentialObject ?w4) _] =>
            replace (credentialObject w4) with c
              by (destruct cb; cbn; rewrite Hcred1, Hcred0; reflexivity)
        end.
        cbv zeta.
        change (after (note_verify c (mkSuite (mkKey pk) (get "id" pk))) _)
          with (assembled cb c (mkSuite (mkKey pk) (get "id" pk)) w1).
        destruct (race_with_timeout E 10000%N _ _ _) as [[r | e |] w3];
          cbn [fst snd concluded]; [reflexivity | | reflexivity].
        destruct (includes (message e) "timeout"); [reflexivity |].
        unfold throw, reported, safe_mode. destruct (_ && _); reflexivity.
  - unfold reported, safe_mode, ret. destruct (_ && _); reflexivity.
  - reflexivity.
Qed.

(** How each kind shows in the object returned. *)
Lemma nonempty_message (c : ascii) (s t : string) : Message (String c s +:+ t) <> Message "".
Proof. rewrite append_cons. discriminate. Qed.

Lemma represents_exception (e : JsError) : represents (kind_of_exception e) (reported e).
Proof.
  unfold kind_of_exception, reported. destruct (safe_mode e); cbn [represents].
  - eexists. reflexivity.
  - repeat (split; [reflexivity |]). eexists. split; [reflexivity |].
    destruct (String.eqb (message e) "") eqn:Hm; [discriminate |].
    intros [= H]. rewrite H in Hm. discriminate Hm.
Qed.

Lemma represents_not_found (vm : string) (e : JsError) :
  String.eqb (name e) "Error" && String.eqb (message e) (message (not_found_error vm)) = true ->
  represents MissingVerificationMethod (reported e).
Proof.
  intros H. apply andb_prop in H as [Hname Hmsg].
  apply String.eqb_eq in Hname, Hmsg.
  unfold reported, safe_mode. rewrite Hname, Hmsg. cbn [String.eqb andb represents].
  change (("Error" =? "jsonld.ValidationError")%string) with false. cbn [andb].
  repeat (split; [reflexivity |]).
  unfold not_found_error, Error. cbn [message]. rewrite append_cons.
  cbn [String.eqb]. eexists. split; [reflexivity | discriminate].
Qed.

Lemma timer_rejection_concluded :
  concluded (Thrown (Error "Verification timeout after 10 seconds"))
  = Returned timeout_result.
Proof. reflexivity. Qed.

(** The result of a run is the result at its ending. *)
Lemma verifyCredentialSignature_result (cb : bool) (w : World) :
  fst (verifyCredentialSignature E cb w) = result_at (ending E cb w).
Proof.
  unfold ending. set (c := credentialObject w).
  destruct (proof_accepted c) eqn:Hacc.
  - rewrite (verifyCredentialSignature_resolves cb w Hacc). fold c.
    destruct (proof_accepted_parts c Hacc) as (Hc & Hproof & Htype).
    rewrite Hc, Hproof, Htype. cbn [andb negb strict_eq_str].
    rewrite String.eqb_refl. cbn [negb].
    destruct (getPublicKeyFromDID E (get "verificationMethod" (get "proof" c)) cb
                (checked cb w)) as [[pk | e |] w1]; [| reflexivity | reflexivity].
    destruct (truthy pk); cbn [negb]; [| reflexivity].
    destruct (keyRejected E pk) as [e |]; [reflexivity |].
    destruct (suiteRejected E (mkKey pk) (get "id" pk)) as [e |]; [reflexivity |].
    cbv zeta. cbn [fst]. rewrite race_outcome.
    destruct (fst (run_verify E _ _)) as [[r |] | e |]; reflexivity.
  - rewrite (verifyCredentialSignature_stops_early cb w Hacc). fold c.
    unfold proof_accepted in Hacc. fold c in Hacc.
    destruct (truthy c && truthy (get "proof" c)); cbn [negb andb] in *; [| reflexivity].
    rewrite Hacc. cbn [negb fst].
    destruct (to_string (get "type" (get "proof" c))); reflexivity.
Qed.

(** The run waits on the resolution exactly when its fetch is never
    answered. *)
Lemma ending_pending (cb : bool) (w : World) :
  result_at (ending E cb w) = Pending <-> resolution_unanswered E w.
Proof.
  unfold ending, resolution_unanswered. set (c := credentialObject w).
  destruct (proof_accepted c) eqn:Hacc.
  - destruct (proof_accepted_parts c Hacc) as (Hc & Hproof & Htype).
    destruct (checked_frame cb w Hacc) as (_ & Hcache & Hreq & _).
    rewrite Hc, Hproof, Htype. cbn [andb negb strict_eq_str].
    rewrite String.eqb_refl. cbn [negb].
    pose proof (getPublicKeyFromDID_pending
                  (get "verificationMethod" (get "proof" c)) cb (checked cb w)) as Hp.
    destruct (getPublicKeyFromDID E (get "verificationMethod" (get "proof" c)) cb
                (checked cb w)) as [[pk | e |] w1]; cbn [fst] in Hp.
    + split.
      * intros Hres. exfalso. revert Hres.
        destruct (truthy pk); cbn [negb]; [| discriminate].
        destruct (keyRejected E pk); [discriminate |].
        destruct (suiteRejected E (mkKey pk) (get "id" pk)); [discriminate |].
        cbv zeta. pose proof (run_verify_settled
                                (jsigs_verify E c (mkSuite (mkKey pk) (get "id" pk)))
                                (assembled cb c (mkSuite (mkKey pk) (get "id" pk)) w1)) as Hs.
        destruct (fst (run_verify E _ _)) as [[r |] | e |]; try discriminate.
        intros _. exact (Hs eq_refl).
      * intros (_ & vm & Hvm & Hans). exfalso.
        assert (H : @Returned value pk = Pending); [| discriminate H].
        apply Hp. exists vm. split; [exact Hvm |].
        rewrite (never_answered_frame _ w (checked cb w) Hcache Hreq). exact Hans.
    + split; [discriminate |].
      intros (_ & vm & Hvm & Hans). exfalso.
      assert (H : @Thrown value e = Pending); [| discriminate H].
      apply Hp. exists vm. split; [exact Hvm |].
      rewrite (never_answered_frame _ w (checked cb w) Hcache Hreq). exact Hans.
    + split; [| reflexivity]. intros _. split; [reflexivity |].
      destruct (proj1 Hp eq_refl) as (vm & Hvm & Hans). exists vm. split; [exact Hvm |].
      rewrite <- (never_answered_frame _ w (checked cb w) Hcache Hreq). exact Hans.
  - split; [| intros [H _]; discriminate H].
    unfold proof_accepted in Hacc. fold c in Hacc.
    destruct (truthy c && truthy (get "proof" c)); cbn [negb andb] in *; [| discriminate].
    rewrite Hacc. cbn [negb].
    destruct (to_string (get "type" (get "proof" c))); discriminate.
Qed.

(** The object returned at an ending shows the kind of that ending. *)
Lemma ending_represented (e : Ending) (r : VerificationResult) :
  result_at e = Returned r -> exists k, kind_at e = Some k /\ represents k r.
Proof.
  destruct e as [| [e | type] | | method e | | e | e | [[[| e] |] | e |]];
    cbn [result_at kind_at]; try discriminate; intros [= <-].
  - eexists. split; [reflexivity |]. cbn. repeat (split; [reflexivity |]).
    eexists. split; [reflexivity | discriminate].
  - eexists. split; [reflexivity |]. apply represents_exception.
  - eexists. split; [reflexivity |]. cbn. repeat (split; [reflexivity |]).
    eexists. split; [reflexivity | apply nonempty_message].
  - destruct method as [| | b | n | vm | l | fs];
      try (eexists; split; [reflexivity | apply represents_exception]).
    destruct (String.eqb (name e) "Error"
              && String.eqb (message e) (message (not_found_error vm))) eqn:Hnf.
    + eexists. split; [reflexivity |]. apply (represents_not_found vm e Hnf).
    + eexists. split; [reflexivity |]. apply represents_exception.
  - eexists. split; [reflexivity |]. reflexivity.
  - eexists. split; [reflexivity |]. apply represents_exception.
  - eexists. split; [reflexivity |]. apply represents_exception.
  - eexists. split; [reflexivity |]. reflexivity.
  - eexists. split; [reflexivity |]. cbn. repeat (split; [reflexivity |]).
    eexists. split; [reflexivity | discriminate].
  - eexists. split; [reflexivity |]. reflexivity.
  - destruct (includes (message e) "timeout").
    + eexists. split; [reflexivity |]. reflexivity.
    + eexists. split; [reflexivity |]. apply represents_exception.
Qed.

(** ** The claims *)

(** C1 (amended). No exception escapes [verifyCredentialSignature]; the
    call waits for ever exactly when the fetch of the owning document,
    which is awaited without a timer, is never answered; otherwise it
    returns the result object of the place where the run ended, and that
    object shows the kind of the ending: [verified: true], one of the
    three tagged failures, or the untagged failure that the four other
    kinds share and only the diagnostic tells apart. *)
Theorem verifyCredentialSignature_result_kinds (cb : bool) (w : World) :
  let run := fst (verifyCredentialSignature E cb w) in
  run = result_at (ending E cb w) /\
  (forall e, run <> Thrown e) /\
  (run = Pending <-> resolution_unanswered E w) /\
  (forall r, run = Returned r ->
     exists k, kind_at (ending E cb w) = Some k /\ represents k r).
Proof.
  cbv zeta. rewrite verifyCredentialSignature_result.
  split; [reflexivity |]. split; [| split].
  - intros e.
    destruct (ending E cb w) as [| [e' | type] | | method e' | | e' | e' | [[[| e'] |] | e' |]];
      discriminate.
  - apply ending_pending.
  - intros r. apply ending_represented.
Qed.

(** C3 (amended). Given an identifier that does not itself contain the
    text ["Failed to fetch"], the resolver returns [null] exactly when the
    loaded owning document is falsy or has an ["@id"] property equal to
    the owning identifier, whatever else the document holds; otherwise,
    when the scan of the collections completes, it returns the key record
    found (whose id matches) or propagates the missing-verification-method
    error naming the identifier. *)
Theorem getPublicKeyFromDID_null_iff_treated_unreachable
    (vm : string) (cb : bool) (w w1 : World) (resp : ResolvedDocument) :
  loadUrlDocument E (JString (owner_of vm)) (announced cb vm w) = (Returned resp, w1) ->
  includes vm "Failed to fetch" = false ->
  let outcome := fst (getPublicKeyFromDID E (JString vm) cb w) in
  (outcome = Returned JNull <-> treated_unreachable vm (document resp) = true) /\
  (treated_unreachable vm (document resp) = false ->
   forall k,
     search_arrays vm (key_collections (document resp)) = inr k ->
     if truthy k then outcome = Returned k /\ method_matches vm k = inr true
     else outcome = Thrown (not_found_error vm)).
Proof.
  intros Hload Hvm. cbv zeta.
  rewrite getPublicKeyFromDID_string, Hload. cbn [fst]. unfold resolution.
  assert (Hnf : handled (not_found_error vm) = inl (not_found_error vm)).
  { unfold handled. rewrite includes_not_found, Hvm. reflexivity. }
  destruct (treated_unreachable vm (document resp)).
  - split; [split; reflexivity | discriminate].
  - destruct (search_arrays vm (key_collections (document resp))) as [e | k] eqn:Hs.
    + rewrite (search_arrays_error _ _ _ Hs). split; [split; discriminate |].
      intros _ k Hk. discriminate Hk.
    + destruct (truthy k) eqn:Hk.
      * split.
        -- split; [| discriminate]. intros [= ->]. discriminate Hk.
        -- intros _ k' [= <-]. rewrite Hk. split; [reflexivity |].
           apply (search_arrays_found _ _ _ Hs Hk).
      * rewrite Hnf. split; [split; discriminate |].
        intros _ k' [= <-]. rewrite Hk. reflexivity.
Qed.

(** The loader on an identifier it never dereferences. *)
Lemma undereferenced_document (u : string) (w : World) :
  cache_sound w ->
  undereferenced u = true ->
  exists w',
    loadUrlDocument E (JString u) w = (Returned (minimal_document u), w') /\
    requests w' = requests w /\
    documentCache w' !! u = Some (minimal_document u).
Proof.
  intros Hsound Hu.
  destruct (documentCache w !! u) as [r |] eqn:Hc.
  - rewrite (loadUrlDocument_hit u r w Hc), (Hsound u r Hc Hu).
    eexists. split; [reflexivity |]. split; [reflexivity |].
    rewrite <- (Hsound u r Hc Hu). exact Hc.
  - rewrite (loadUrlDocument_miss u w Hc). cbv zeta. rewrite Hu.
    eexists. split; [reflexivity |]. split; [reflexivity | apply lookup_insert_eq].
Qed.

(** C4 (amended). In every reachable world, loading an identifier that
    starts with ["urn:"], or with ["did:"] but not ["did:web:"], returns
    the triple whose document is [{ "@id": i }] and issues no request. *)
Theorem loadUrlDocument_undereferenced (u : string) (w : World) :
  reachable E w ->
  undereferenced u = true ->
  exists w',
    loadUrlDocument E (JString u) w
    = (Returned (mkResolved JNull (JObject [("@id", JString u)]) (JString u)), w') /\
    requests w' = requests w.
Proof.
  intros Hreach Hu. apply reachable_sound in Hreach.
  destruct (undereferenced_document u w Hreach Hu) as (w' & Hload & Hreq & _).
  exists w'. split; [exact Hload | exact Hreq].
Qed.

(** C5 (amended). When the owning document is not taken for the
    placeholder, the key the resolver returns is the first entry, in the
    order verificationMethod, authentication, assertionMethod, publicKey
    and within each collection from its first element on, whose [id] is
    the identifier or its fragment reference, provided every entry ahead
    of it is one whose [id] can be read: those entries were inspected and
    passed over, and nothing after the match is inspected. *)
Theorem getPublicKeyFromDID_first_match_in_order
    (vm : string) (cb : bool) (w w1 : World) (resp : ResolvedDocument)
    (before after_ pre post : list value) (e : value) :
  loadUrlDocument E (JString (owner_of vm)) (announced cb vm w) = (Returned resp, w1) ->
  treated_unreachable vm (document resp) = false ->
  [get "verificationMethod" (document resp);
   get "authentication" (document resp);
   get "assertionMethod" (document resp);
   get "publicKey" (document resp)]
  = before ++ JArray (pre ++ e :: post) :: after_ ->
  Forall (holds_no_match vm) before ->
  Forall (passed_over vm) pre ->
  readable e ->
  names_method vm e ->
  getPublicKeyFromDID E (JString vm) cb w = (Returned e, w1).
Proof.
  intros Hload Hreal Hcols Hbefore Hpre Hread Hname.
  pose proof (method_matches_names vm e Hread Hname) as He.
  rewrite getPublicKeyFromDID_string, Hload.
  unfold resolution. rewrite Hreal.
  unfold key_collections. rewrite Hcols.
  rewrite (search_arrays_first vm before after_ pre post e
             (holds_no_match_yields_no_key vm before Hbefore)
             (passed_over_rejects vm pre Hpre) He).
  rewrite (method_matches_truthy vm e He). reflexivity.
Qed.


Lemma resolver_frame (cb : bool) (w w1 : World) (vm : value) (x : Outcome value) :
  proof_accepted (credentialObject w) = true ->
  getPublicKeyFromDID E vm cb (checked cb w) = (x, w1) ->
  credentialObject w1 = credentialObject w /\
  suitesBuilt w1 = suitesBuilt w /\ verifyCalls w1 = verifyCalls w /\
  timersFired w1 = timersFired w.
Proof.
  intros Hacc Hkey.
  pose proof (getPublicKeyFromDID_quiet vm cb (checked cb w)) as Hq.
  rewrite Hkey in Hq. cbn [snd] in Hq.
  destruct (checked_frame cb w Hacc) as (Hq0 & _).
  exact (quiet_trans _ _ _ Hq0 Hq).
Qed.

(** C7. Whenever the run reaches suite assembly, the suite constructor is
    given the [id] property of the key record the resolver returned as
    verification method; the suite it builds, bound to that [id], is the
    one handed to [jsigs.verify] with the credential.  When the
    constructor throws, no suite exists, [jsigs.verify] is not called and
    the exception is reported. *)
Theorem suite_bound_to_key_record_id (cb : bool) (w w1 : World) (pk : value) :
  let c := credentialObject w in
  let suite := mkSuite (mkKey pk) (get "id" pk) in
  proof_accepted c = true ->
  getPublicKeyFromDID E (get "verificationMethod" (get "proof" c)) cb (checked cb w)
  = (Returned pk, w1) ->
  truthy pk = true ->
  keyRejected E pk = None ->
  let w' := after (verifyCredentialSignature E cb) w in
  match suiteRejected E (mkKey pk) (get "id" pk) with
  | None =>
      suitesBuilt w' = suite :: suitesBuilt w /\
      verifyCalls w' = (c, suite) :: verifyCalls w
  | Some e =>
      suitesBuilt w' = suitesBuilt w /\
      verifyCalls w' = verifyCalls w /\
      fst (verifyCredentialSignature E cb w) = Returned (reported e)
  end.
Proof.
  intros c suite Hacc Hkey Hpk Hrej w'. subst w'. unfold after.
  rewrite (verifyCredentialSignature_resolves cb w Hacc). fold c.
  rewrite Hkey, Hpk, Hrej. cbv zeta.
  destruct (resolver_frame cb w w1 _ _ Hacc Hkey) as (_ & Hs1 & Hv1 & _).
  destruct (suiteRejected E (mkKey pk) (get "id" pk)) as [e |].
  - cbn [fst snd]. rewrite <- Hs1, <- Hv1. destruct cb; repeat split.
  - cbn [snd]. fold suite.
    destruct (race_keeps_assembly 10000%N (Error "Verification timeout after 10 seconds")
                (jsigs_verify E c suite) (assembled cb c suite w1)) as (_ & Hs & Hv).
    rewrite Hs, Hv, <- Hs1, <- Hv1. destruct cb; split; reflexivity.
Qed.

(** C8 (amended). Once the key is resolved and the suite assembled, the
    call no longer depends on the signature library: it returns, and the
    only timer it may have waited for is the one of 10000 ms started with
    the race.  If the library never settles, that timer settles the race
    and the call returns the TIMEOUT result. *)
Theorem stalled_verification_times_out (cb : bool) (w w1 : World) (pk : value) :
  let c := credentialObject w in
  let suite := mkSuite (mkKey pk) (get "id" pk) in
  proof_accepted c = true ->
  getPublicKeyFromDID E (get "verificationMethod" (get "proof" c)) cb (checked cb w)
  = (Returned pk, w1) ->
  truthy pk = true ->
  keyRejected E pk = None ->
  suiteRejected E (mkKey pk) (get "id" pk) = None ->
  (exists r w',
      verifyCredentialSignature E cb w = (Returned r, w') /\
      (timersFired w' = timersFired w \/ timersFired w' = 10000%N :: timersFired w)) /\
  (never_settles (jsigs_verify E c suite) ->
   exists w',
     verifyCredentialSignature E cb w = (Returned timeout_result, w') /\
     timersFired w' = 10000%N :: timersFired w /\
     verifyCalls w' = (c, suite) :: verifyCalls w).
Proof.
  intros c suite Hacc Hkey Hpk Hrej Hsuite.
  rewrite (verifyCredentialSignature_resolves cb w Hacc). fold c.
  rewrite Hkey, Hpk, Hrej, Hsuite. cbv zeta. fold suite.
  destruct (resolver_frame cb w w1 _ _ Hacc Hkey) as (_ & _ & Hv1 & Ht1).
  assert (Ht2 : timersFired (assembled cb c suite w1) = timersFired w).
  { rewrite <- Ht1. destruct cb; reflexivity. }
  assert (Hv2 : verifyCalls (assembled cb c suite w1) = (c, suite) :: verifyCalls w).
  { rewrite <- Hv1. destruct cb; reflexivity. }
  unfold race_with_timeout, bind.
  pose proof (run_verify_quiet (jsigs_verify E c suite) (assembled cb c suite w1)) as Hq.
  pose proof (run_verify_settled (jsigs_verify E c suite) (assembled cb c suite w1)) as Hset.
  split.
  - destruct (run_verify E (jsigs_verify E c suite) (assembled cb c suite w1))
      as [[[r |] | e |] w3]; destruct Hq as (_ & _ & _ & Ht); cbn [snd fst] in *.
    + eexists. eexists. split; [reflexivity |]. left. cbn. congruence.
    + eexists. eexists. split; [reflexivity |]. right. cbn. congruence.
    + eexists. eexists. split; [reflexivity |]. left. cbn. congruence.
    + exfalso. exact (Hset eq_refl).
  - intros Hstall.
    destruct (run_verify_pending _ (assembled cb c suite w1) Hstall)
      as (w3 & Hrun & (_ & _ & Hv & Ht)).
    rewrite Hrun. cbn [fst snd note_timer throw concluded].
    eexists. split; [reflexivity |]. cbn [timersFired verifyCalls].
    rewrite Ht, Ht2, Hv, Hv2. split; reflexivity.
Qed.

(** C9. Whatever the run does, the caller's credential object is the same
    when the call returns as it was at entry. *)
Theorem verifyCredentialSignature_leaves_credential (cb : bool) (w : World) :
  credentialObject (after (verifyCredentialSignature E cb) w) = credentialObject w.
Proof.
  revert w.
  change (keeps (unchanged credentialObject) (verifyCredentialSignature E cb)).
  unfold verifyCredentialSignature, race_with_timeout.
  repeat first
    [ apply quiet_credential, getPublicKeyFromDID_quiet
    | apply quiet_credential, run_verify_quiet
    | frame_step (unchanged_refl credentialObject) (unchanged_trans credentialObject)
    | match goal with
      | |- keeps _ (notify ?b _ _) => destruct b; unfold notify
      | |- keeps _ (announce ?b _ _) => destruct b; unfold announce
      | |- keeps _ (note_progress _ _) => intros ?; reflexivity
      | |- keeps _ (note_suite _) => intros ?; reflexivity
      | |- keeps _ (note_verify _ _) => intros ?; reflexivity
      | |- keeps _ (note_timer _) => intros ?; reflexivity
      end ].
Qed.

(** C10. A [null] or [undefined] credential raises nothing: the call
    returns the missing-proof result and changes nothing, exactly as it
    does for a credential object without a [proof]. *)
Theorem verifyCredentialSignature_null_credential (cb : bool) (w : World) :
  credentialObject w = JNull \/ credentialObject w = JUndefined ->
  verifyCredentialSignature E cb w = (Returned missing_proof_result, w) /\
  forall c,
    truthy c = true -> truthy (get "proof" c) = false ->
    verifyCredentialSignature E cb (with_credential c w)
    = (Returned missing_proof_result, with_credential c w).
Proof.
  intros Hnull. split.
  - unfold verifyCredentialSignature, try_catch, bind, read_credential.
    destruct Hnull as [-> | ->]; reflexivity.
  - intros c Hc Hproof.
    unfold verifyCredentialSignature, try_catch, bind, read_credential.
    cbn [credentialObject with_credential]. rewrite Hc, Hproof. reflexivity.
Qed.

End Properties.

(** ** The claims on the concrete scenario *)

Import Scenario.

Example verified_run :
  fst (verifyCredentialSignature (serving didDocument settling) true
         (initialWorld credential))
  = Returned (mkResult true None None None None).
Proof. vm_compute. reflexivity. Qed.

Example unsupported_type_named :
  fst (verifyCredentialSignature (serving didDocument settling) false
         (initialWorld rsaCredential))
  = Returned
      (mkResult false
         (Some (Message "Unsupported proof type: RsaSignature2018. Only Ed25519Signature2018 is supported."))
         None None None).
Proof. vm_compute. reflexivity. Qed.

(** C1, as stated, fails on two counts.  When the fetch of the issuer's
    document is never answered, the call returns nothing at all, and no
    timer has been started that could end the wait.  And the object
    returned does not always say which kind it is: a key constructor that
    throws with the words of the missing-proof diagnostic (a generic
    failure) yields the very object returned for a credential without
    proof (a malformed credential). *)
Lemma verifyCredentialSignature_may_wait_and_kinds_share_result :
  let waiting :=
    verifyCredentialSignature (unanswered settling) false (initialWorld credential) in
  let e := Error "Invalid credential structure: missing proof" in
  let refusing := Cases.refusing didDocument e settling in
  (fst waiting = Pending /\
   (forall r, fst waiting <> Returned r) /\
   requests (snd waiting) = ["https://example.com/issuer/did.json"] /\
   timersFired (snd waiting) = []) /\
  kind_at (ending refusing false (initialWorld credential)) = Some CryptographicFailure /\
  kind_at (ending (serving didDocument settling) false (initialWorld JNull))
  = Some MalformedCredential /\
  fst (verifyCredentialSignature refusing false (initialWorld credential))
  = fst (verifyCredentialSignature (serving didDocument settling) false
           (initialWorld JNull)).
Proof.
  cbv zeta.
  assert (H : fst (verifyCredentialSignature (unanswered settling) false
                     (initialWorld credential)) = Pending)
    by (vm_compute; reflexivity).
  split; [| repeat split; vm_compute; reflexivity].
  split; [exact H |]. split; [| split; vm_compute; reflexivity].
  intros r Hr. rewrite H in Hr. discriminate Hr.
Qed.

(** C2. For a credential whose [proof.type] is an object with a
    [toString] member, the template literal that names the type throws:
    the call returns the generic failure carrying the conversion's
    message, which is the unsupported-type result of no type at all. *)
Theorem verifyCredentialSignature_opaque_type_not_named (E : Env) (cb : bool) :
  let run := fst (verifyCredentialSignature E cb (initialWorld opaqueTypeCredential)) in
  proof_accepted opaqueTypeCredential = false /\
  run = Returned (mkResult false
                    (Some (Message "Cannot convert object to primitive value"))
                    None None None) /\
  forall type, run <> Returned (unsupported_type_result type).
Proof.
  cbv zeta.
  assert (H : fst (verifyCredentialSignature E cb (initialWorld opaqueTypeCredential))
              = Returned (mkResult false
                            (Some (Message "Cannot convert object to primitive value"))
                            None None None))
    by (destruct cb; reflexivity).
  split; [reflexivity |]. split; [exact H |].
  intros type Hr. rewrite H in Hr. discriminate Hr.
Qed.

Lemma null_iff_treated_unreachable_witness :
  let E := serving didDocument settling in
  let outcome := fst (getPublicKeyFromDID E (JString vm) false (initialWorld JNull)) in
  (outcome = Returned JNull <-> treated_unreachable vm didDocument = true) /\
  (treated_unreachable vm didDocument = false ->
   forall k,
     search_arrays vm (key_collections didDocument) = inr k ->
     if truthy k then outcome = Returned k /\ method_matches vm k = inr true
     else outcome = Thrown (not_found_error vm)).
Proof.
  apply (getPublicKeyFromDID_null_iff_treated_unreachable
           (serving didDocument settling) vm false (initialWorld JNull)
           (after (loadUrlDocument (serving didDocument settling) (JString did))
              (initialWorld JNull))
           (mkResolved JNull didDocument (JString did))).
  - vm_compute. reflexivity.
  - vm_compute. reflexivity.
Defined.

(** C3, as stated, fails: for a full document that names itself with
    ["@id"], and even holds the requested key, the resolver returns [null],
    although the document is not the placeholder, whichever way the
    placeholder's key is spelt. *)
Lemma getPublicKeyFromDID_null_for_self_naming_document :
  let E := serving selfNamingDocument settling in
  let outcome := fst (getPublicKeyFromDID E (JString vm) false (initialWorld JNull)) in
  fst (loadUrlDocument E (JString did) (initialWorld JNull))
  = Returned (mkResolved JNull selfNamingDocument (JString did)) /\
  search_arrays vm (key_collections selfNamingDocument) = inr fragmentKey /\
  ~ (outcome = Returned JNull <-> selfNamingDocument = JObject [("id", JString did)]) /\
  ~ (outcome = Returned JNull <-> selfNamingDocument = JObject [("@id", JString did)]).
Proof.
  cbv zeta.
  assert (Hnull : fst (getPublicKeyFromDID (serving selfNamingDocument settling)
                         (JString vm) false (initialWorld JNull)) = Returned JNull)
    by (vm_compute; reflexivity).
  split; [vm_compute; reflexivity |]. split; [vm_compute; reflexivity |].
  split; intros [Hplaceholder _]; specialize (Hplaceholder Hnull);
    discriminate Hplaceholder.
Qed.

(** The two behaviours the amended C3 leaves aside: an identifier that
    contains the handler's marker text turns "not found" into [null], and
    a [null] entry ahead of the key raises a [TypeError]. *)
Example not_found_read_as_unreachable :
  fst (getPublicKeyFromDID (serving didDocument settling)
         (JString "did:web:example.com:issuer#Failed to fetch") false
         (initialWorld JNull))
  = Returned JNull.
Proof. vm_compute. reflexivity. Qed.

Example null_entry_raises :
  fst (getPublicKeyFromDID
         (serving (JObject [("id", JString did);
                            ("verificationMethod", JArray [JNull; fragmentKey])])
            settling)
         (JString vm) false (initialWorld JNull))
  = Thrown (TypeError "Cannot read properties of null (reading 'id')").
Proof. vm_compute. reflexivity. Qed.

Lemma loadUrlDocument_undereferenced_witness :
  let E := serving didDocument stalling in
  let w := after (verifyCredentialSignature E true) (initialWorld credential) in
  reachable E w /\
  undereferenced "did:key:z6MkpTHR8VNsBxYAAWHut2Geadd9jSwuBV8xRoAnwWsdvktH" = true /\
  exists w',
    loadUrlDocument E (JString "did:key:z6MkpTHR8VNsBxYAAWHut2Geadd9jSwuBV8xRoAnwWsdvktH") w
    = (Returned
         (mkResolved JNull
            (JObject [("@id", JString "did:key:z6MkpTHR8VNsBxYAAWHut2Geadd9jSwuBV8xRoAnwWsdvktH")])
            (JString "did:key:z6MkpTHR8VNsBxYAAWHut2Geadd9jSwuBV8xRoAnwWsdvktH")), w') /\
    requests w' = requests w.
Proof.
  cbv zeta.
  assert (Hreach : reachable (serving didDocument stalling)
                     (after (verifyCredentialSignature (serving didDocument stalling) true)
                        (initialWorld credential)))
    by (apply reach_verify, reach_start).
  split; [exact Hreach |]. split; [reflexivity |].
  apply (loadUrlDocument_undereferenced (serving didDocument stalling)
           "did:key:z6MkpTHR8VNsBxYAAWHut2Geadd9jSwuBV8xRoAnwWsdvktH" _ Hreach).
  reflexivity.
Defined.

(** C4, as stated, fails: the placeholder's sole field is ["@id"], and
    the document has no [id] property. *)
Lemma loadUrlDocument_urn_document_not_id_keyed :
  let u := "urn:uuid:3978344f-8596-4c3a-a978-8fcaba3903c5" in
  exists r w',
    loadUrlDocument (serving didDocument settling) (JString u) (initialWorld JNull)
    = (Returned r, w') /\
    document r <> JObject [("id", JString u)] /\
    get "id" (document r) = JUndefined.
Proof.
  cbv zeta. eexists. eexists. split; [vm_compute; reflexivity |].
  split; [discriminate | reflexivity].
Qed.

Lemma first_match_in_order_witness :
  let E := serving didDocument settling in
  fragmentKey <> authenticationKey /\
  names_method vm fragmentKey /\
  names_method vm authenticationKey /\
  fst (getPublicKeyFromDID E (JString vm) false (initialWorld JNull))
  = Returned fragmentKey.
Proof.
  cbv zeta. split; [discriminate |]. split; [right; reflexivity |].
  split; [left; reflexivity |].
  rewrite (getPublicKeyFromDID_first_match_in_order
             (serving didDocument settling) vm false (initialWorld JNull)
             (after (loadUrlDocument (serving didDocument settling) (JString did))
                (initialWorld JNull))
             (mkResolved JNull didDocument (JString did))
             []
             [JArray [JString "did:web:example.com:issuer#key-0"; authenticationKey];
              JUndefined; JUndefined]
             [] [] fragmentKey).
  - reflexivity.
  - vm_compute. reflexivity.
  - vm_compute. reflexivity.
  - reflexivity.
  - constructor.
  - constructor.
  - split; discriminate.
  - right. reflexivity.
Defined.

(** C5, as stated, fails: the requested key occurs in two collections of
    a document that names itself with ["@id"], and the resolver returns
    [null], not the [verificationMethod] entry. *)
Lemma getPublicKeyFromDID_null_despite_two_matches :
  let E := serving selfNamingTwice settling in
  let outcome := fst (getPublicKeyFromDID E (JString vm) false (initialWorld JNull)) in
  fst (loadUrlDocument E (JString did) (initialWorld JNull))
  = Returned (mkResolved JNull selfNamingTwice (JString did)) /\
  get "verificationMethod" selfNamingTwice = JArray [fragmentKey] /\
  get "authentication" selfNamingTwice = JArray [authenticationKey] /\
  names_method vm fragmentKey /\
  names_method vm authenticationKey /\
  outcome = Returned JNull /\
  outcome <> Returned fragmentKey.
Proof.
  cbv zeta.
  assert (Hnull : fst (getPublicKeyFromDID (serving selfNamingTwice settling)
                         (JString vm) false (initialWorld JNull)) = Returned JNull)
    by (vm_compute; reflexivity).
  split; [vm_compute; reflexivity |]. split; [reflexivity |]. split; [reflexivity |].
  split; [right; reflexivity |]. split; [left; reflexivity |].
  split; [exact Hnull |]. rewrite Hnull. discriminate.
Qed.

Example idempotent_when_answered :
  never_answered (serving didDocument settling) did (initialWorld JNull) = false /\
  never_answered (unanswered settling) did (initialWorld JNull) = true.
Proof. split; vm_compute; reflexivity. Qed.

Lemma suite_bound_to_key_record_id_witness :
  let E := serving didDocument settling in
  let w' := after (verifyCredentialSignature E true) (initialWorld credential) in
  get "id" fragmentKey <> JString vm /\
  suitesBuilt w' = [mkSuite (mkKey fragmentKey) (JString "#key-1")] /\
  verifyCalls w' = [(credential, mkSuite (mkKey fragmentKey) (JString "#key-1"))].
Proof.
  cbv zeta. split; [discriminate |].
  apply (suite_bound_to_key_record_id (serving didDocument settling) true
           (initialWorld credential)
           (after (getPublicKeyFromDID (serving didDocument settling) (JString vm) true)
              (checked true (initialWorld credential)))
           fragmentKey).
  - reflexivity.
  - vm_compute. reflexivity.
  - reflexivity.
  - reflexivity.
Defined.

Example suite_constructor_refusal :
  let E := Cases.suiteRefusing didDocument Cases.suiteError settling in
  let run := verifyCredentialSignature E true (initialWorld credential) in
  fst run = Returned (reported Cases.suiteError) /\
  suitesBuilt (snd run) = [] /\ verifyCalls (snd run) = [] /\
  steps_reported (snd run) = [10; 25; 50; 65; 80].
Proof. cbv zeta. repeat split; vm_compute; reflexivity. Qed.

Lemma stalled_verification_times_out_witness :
  let E := serving didDocument stalling in
  exists w',
    verifyCredentialSignature E true (initialWorld credential)
    = (Returned timeout_result, w') /\
    timersFired w' = [10000%N] /\
    verifyCalls w' = [(credential, mkSuite (mkKey fragmentKey) (JString "#key-1"))].
Proof.
  cbv zeta.
  apply (stalled_verification_times_out (serving didDocument stalling) true
           (initialWorld credential)
           (after (getPublicKeyFromDID (serving didDocument stalling) (JString vm) true)
              (checked true (initialWorld credential)))
           fragmentKey).
  - reflexivity.
  - vm_compute. reflexivity.
  - reflexivity.
  - reflexivity.
  - reflexivity.
  - apply stalls_after_load. intros loaded. apply stalls_now.
Defined.

(** C8, as stated, fails: the signature library would stall, but the call
    never gets that far; it waits for the issuer's document, which is
    never answered, and no timer is running. *)
Lemma verifyCredentialSignature_waits_without_timer :
  let E := unanswered stalling in
  let run := verifyCredentialSignature E true (initialWorld credential) in
  (forall c suite, never_settles (jsigs_verify E c suite)) /\
  fst run = Pending /\
  fst run <> Returned timeout_result /\
  timersFired (snd run) = [] /\
  verifyCalls (snd run) = [].
Proof.
  cbv zeta.
  assert (H : fst (verifyCredentialSignature (unanswered stalling) true
                     (initialWorld credential)) = Pending)
    by (vm_compute; reflexivity).
  split; [intros c suite; apply stalls_after_load; intros loaded; apply stalls_now |].
  split; [exact H |]. split; [rewrite H; discriminate |].
  split; vm_compute; reflexivity.
Qed.

Lemma null_credential_witness :
  let E := serving didDocument settling in
  verifyCredentialSignature E true (initialWorld JNull)
  = (Returned missing_proof_result, initialWorld JNull) /\
  forall c,
    truthy c = true -> truthy (get "proof" c) = false ->
    verifyCredentialSignature E true (with_credential c (initialWorld JNull))
    = (Returned missing_proof_result, with_credential c (initialWorld JNull)).
Proof.
  apply (verifyCredentialSignature_null_credential (serving didDocument settling) true
           (initialWorld JNull)).
  left. reflexivity.
Defined.

(** ** Further properties of the module *)

Section Coverage.

Variable E : Env.

(** *** The document loader *)

(** X1. The loader raises an exception only when handed [null] or
    [undefined]: on every string, and on every other value, it throws
    nothing. *)
Theorem loadUrlDocument_throws_only_without_url (url : value) (w : World) :
  (exists e, fst (loadUrlDocument E url w) = Thrown e) <-> url = JNull \/ url = JUndefined.
Proof.
  split.
  - intros [e He]. destruct url as [| | b | n | u | l | fs];
      try (right; reflexivity); try (left; reflexivity); try discriminate He.
    exfalso. exact (loadUrlDocument_string_outcome E u w e He).
  - intros [-> | ->]; eexists; reflexivity.
Qed.

Lemma address_of_did_web (u : string) :
  startsWith u "did:web:" = true ->
  address_of u = did_web_address u /\ substitute u = JObject [("@id", JString u)].
Proof. intros H. unfold address_of, substitute. rewrite H. split; reflexivity. Qed.

Lemma address_of_plain (u : string) :
  startsWith u "did:web:" = false ->
  address_of u = u /\ substitute u = JObject [("@context", inline_context u)].
Proof. intros H. unfold address_of, substitute. rewrite H. split; reflexivity. Qed.

(** X2. A [did:web] identifier that is not cached is fetched once, from
    the address derived from it.  When the fetch is answered, the document
    is the delivered body, or the minimal [{ "@id": u }] when the fetch
    rejects, the status is not OK or the body does not parse, and either
    way the triple is cached; when it is never answered, the call waits
    for ever and caches nothing. *)
Theorem loadUrlDocument_did_web (u : string) (w : World) :
  startsWith u "did:web:" = true ->
  documentCache w !! u = None ->
  match delivered (network E (requests w) (did_web_address u)) with
  | NoAnswer =>
      exists w',
        loadUrlDocument E (JString u) w = (Pending, w') /\
        requests w' = did_web_address u :: requests w /\
        documentCache w' = documentCache w
  | answer =>
      let doc :=
        match answer with
        | Body body => body
        | _ => JObject [("@id", JString u)]
        end in
      exists w',
        loadUrlDocument E (JString u) w
        = (Returned (mkResolved JNull doc (JString u)), w') /\
        requests w' = did_web_address u :: requests w /\
        documentCache w' = <[u := mkResolved JNull doc (JString u)]> (documentCache w)
  end.
Proof.
  intros Hweb Hmiss. rewrite (loadUrlDocument_miss E u w Hmiss). cbv zeta.
  rewrite (did_web_is_dereferenced u Hweb).
  destruct (address_of_did_web u Hweb) as [-> ->].
  destruct (delivered _); eexists; repeat split.
Qed.

(** X3. Any other identifier that is not cached is fetched once as it
    stands.  When the fetch is answered, the document is the delivered
    body, or, when the fetch rejects, the status is not OK or the body
    does not parse, the inline context for that address (the credentials
    context, the security context, or the permissive one), cached like a
    fetched document; when it is never answered, the call waits for ever
    and caches nothing. *)
Theorem loadUrlDocument_plain_url (u : string) (w : World) :
  undereferenced u = false ->
  startsWith u "did:web:" = false ->
  documentCache w !! u = None ->
  match delivered (network E (requests w) u) with
  | NoAnswer =>
      exists w',
        loadUrlDocument E (JString u) w = (Pending, w') /\
        requests w' = u :: requests w /\
        documentCache w' = documentCache w
  | answer =>
      let doc :=
        match answer with
        | Body body => body
        | _ => JObject [("@context", inline_context u)]
        end in
      exists w',
        loadUrlDocument E (JString u) w
        = (Returned (mkResolved JNull doc (JString u)), w') /\
        requests w' = u :: requests w /\
        documentCache w' = <[u := mkResolved JNull doc (JString u)]> (documentCache w)
  end.
Proof.
  intros Hu Hweb Hmiss. rewrite (loadUrlDocument_miss E u w Hmiss). cbv zeta.
  rewrite Hu. destruct (address_of_plain u Hweb) as [-> ->].
  destruct (delivered _); eexists; repeat split.
Qed.

(** X4. The cache is never invalidated: an entry present before a call of
    the loader, the resolver or the orchestrator is present, with the same
    triple, after it. *)
Theorem cache_entries_persist (url vm : value) (cb : bool) (w : World) :
  cache_grows w (after (loadUrlDocument E url) w) /\
  cache_grows w (after (getPublicKeyFromDID E vm cb) w) /\
  cache_grows w (after (verifyCredentialSignature E cb) w).
Proof.
  split; [apply loadUrlDocument_grows |].
  split; [apply getPublicKeyFromDID_grows | apply verifyCredentialSignature_grows].
Qed.

(** X5. In every reachable world each cached triple is filed under its own
    [documentUrl] and has a [null] [contextUrl]; so whatever a string
    identifier resolves to, by fetch, fallback, placeholder or cache hit,
    the triple names that identifier as its [documentUrl].  The loader
    returns no triple only when its fetch is never answered. *)
Theorem loaded_triple_names_identifier (w : World) :
  reachable E w ->
  cache_keyed w /\
  forall u,
    if never_answered E u w then fst (loadUrlDocument E (JString u) w) = Pending
    else
      exists r w',
        loadUrlDocument E (JString u) w = (Returned r, w') /\
        contextUrl r = JNull /\ documentUrl r = JString u.
Proof.
  intros Hreach. split; [exact (reachable_keyed E w Hreach) |].
  intros u. pose proof (loadUrlDocument_string E u w) as H.
  destruct (never_answered E u w).
  - destruct H as (w' & -> & _). reflexivity.
  - destruct H as (r & w' & Hload & Hcached).
    exists r, w'. split; [exact Hload |].
    assert (Hk : cache_keyed w').
    { replace w' with (after (loadUrlDocument E (JString u)) w)
        by (unfold after; rewrite Hload; reflexivity).
      apply (reachable_keyed E), reach_load, Hreach. }
    exact (Hk u r Hcached).
Qed.

(** *** The identity resolver *)

(** X6. A resolver call makes at most one loader call and issues at most
    one network request; with a verification method that is not a string
    it makes neither and raises a [TypeError]. *)
Theorem getPublicKeyFromDID_footprint (vm : value) (cb : bool) (w : World) :
  let w' := after (getPublicKeyFromDID E vm cb) w in
  one_load_at_most w w' /\
  one_request_at_most w w' /\
  ((forall s, vm <> JString s) ->
   loaderCalls w' = loaderCalls w /\ requests w' = requests w /\
   documentCache w' = documentCache w /\
   exists msg, fst (getPublicKeyFromDID E vm cb w) = Thrown (TypeError msg)).
Proof.
  cbv zeta. unfold after.
  assert (Hother : (forall s, vm <> JString s) ->
            one_load_at_most w (snd (getPublicKeyFromDID E vm cb w)) /\
            one_request_at_most w (snd (getPublicKeyFromDID E vm cb w)) /\
            loaderCalls (snd (getPublicKeyFromDID E vm cb w)) = loaderCalls w /\
            requests (snd (getPublicKeyFromDID E vm cb w)) = requests w /\
            documentCache (snd (getPublicKeyFromDID E vm cb w)) = documentCache w /\
            exists msg, fst (getPublicKeyFromDID E vm cb w) = Thrown (TypeError msg)).
  { intros Hns.
    destruct (getPublicKeyFromDID_not_string E vm cb w Hns)
      as (msg & w' & Hthrow & Hcalls & Hreq & Hcache & _).
    rewrite Hthrow. cbn [fst snd].
    split; [left; exact Hcalls |]. split; [left; exact Hreq |].
    repeat (split; [assumption |]). exists msg. reflexivity. }
  destruct vm as [| | b | n | s | l | fs];
    try (destruct Hother as (H1 & H2 & H3); [intros s; discriminate |];
         split; [exact H1 |]; split; [exact H2 |]; intros _; exact H3).
  clear Hother. rewrite getPublicKeyFromDID_string.
  destruct (announced_frame cb s w) as (_ & Hreq & Hcalls).
  pose proof (loadUrlDocument_logged E (JString (owner_of s)) (announced cb s w)) as Hlog.
  pose proof (loadUrlDocument_one_request E (JString (owner_of s)) (announced cb s w)) as H1.
  unfold after, one_request_at_most in *. rewrite Hcalls in Hlog. rewrite Hreq in H1.
  destruct (loadUrlDocument E (JString (owner_of s)) (announced cb s w))
    as [[resp | e |] w1]; cbn [snd] in *;
    (split; [right; exists (owner_of s); exact Hlog |]);
    (split; [exact H1 |]); intros Hns; exfalso; exact (Hns s eq_refl).
Qed.

(** X7. When the owning [did:web] document cannot be delivered (the fetch
    rejects, the status is not OK, or the body does not parse) the
    resolver returns [null]: the failure is reported as "could not
    resolve", never as an exception. *)
Theorem getPublicKeyFromDID_undelivered (vm : string) (cb : bool) (w : World) :
  startsWith (owner_of vm) "did:web:" = true ->
  documentCache w !! owner_of vm = None ->
  delivered (network E (requests w) (did_web_address (owner_of vm))) = NoBody ->
  fst (getPublicKeyFromDID E (JString vm) cb w) = Returned JNull.
Proof.
  intros Hweb Hmiss Hnone.
  destruct (announced_frame cb vm w) as (Hcache & Hreq & _).
  rewrite getPublicKeyFromDID_string.
  rewrite (loadUrlDocument_miss E (owner_of vm) (announced cb vm w))
    by (rewrite Hcache; exact Hmiss).
  cbv zeta. rewrite (did_web_is_dereferenced _ Hweb), Hreq.
  destruct (address_of_did_web _ Hweb) as [-> ->]. rewrite Hnone.
  cbn [fst document]. unfold resolution.
  rewrite minimal_treated_unreachable. reflexivity.
Qed.

Lemma null_when_undereferenced (vm : string) (cb : bool) (w : World) :
  cache_sound w ->
  undereferenced (owner_of vm) = true ->
  exists w',
    getPublicKeyFromDID E (JString vm) cb w = (Returned JNull, w') /\
    requests w' = requests w /\
    documentCache w' !! owner_of vm = Some (minimal_document (owner_of vm)).
Proof.
  intros Hsound Hu.
  destruct (undereferenced_document E (owner_of vm) (announced cb vm w)
              (announced_sound cb vm w Hsound) Hu)
    as (w' & Hload & Hreq & Hcached).
  exists w'. rewrite getPublicKeyFromDID_string, Hload. split; [| split].
  - unfold resolution, minimal_document. cbn [document].
    rewrite minimal_treated_unreachable. reflexivity.
  - rewrite Hreq. apply (announced_frame cb vm w).
  - exact Hcached.
Qed.

(** X8. A verification method whose owner is a URN or a DID of a method
    other than [did:web] (a [did:key], say) always resolves to [null]; no
    request is issued for it, and the cache then holds the placeholder
    [{ "@id": owner }] under the owner. *)
Theorem getPublicKeyFromDID_undereferenced (vm : string) (cb : bool) (w : World) :
  reachable E w ->
  undereferenced (owner_of vm) = true ->
  exists w',
    getPublicKeyFromDID E (JString vm) cb w = (Returned JNull, w') /\
    requests w' = requests w /\
    documentCache w' !! owner_of vm = Some (minimal_document (owner_of vm)).
Proof.
  intros Hreach Hu.
  apply (null_when_undereferenced vm cb w (reachable_sound E w Hreach) Hu).
Qed.

(** X9. A key record the resolver returns is never invented: it is an
    entry of one of the four collections of the owning document, as cached
    under the owning identifier, and its [id] is the requested identifier
    or its ["#fragment"] form.  The only other value returned is [null]. *)
Theorem getPublicKeyFromDID_returns_an_entry
    (vm : string) (cb : bool) (w w' : World) (k : value) :
  getPublicKeyFromDID E (JString vm) cb w = (Returned k, w') ->
  k = JNull \/
  exists resp items,
    documentCache w' !! owner_of vm = Some resp /\
    In (JArray items) (key_collections (document resp)) /\
    In k items /\
    method_matches vm k = inr true.
Proof.
  intros Hret.
  destruct (never_answered E (owner_of vm) w) eqn:Hans.
  - exfalso.
    assert (Hp : fst (getPublicKeyFromDID E (JString vm) cb w) = Pending).
    { apply getPublicKeyFromDID_pending. exists vm. split; [reflexivity | exact Hans]. }
    rewrite Hret in Hp. discriminate Hp.
  - destruct (getPublicKeyFromDID_answered E vm cb w Hans)
      as (resp & w1 & Hload & Hcached & Hres).
    rewrite Hres in Hret. injection Hret as Hk <-.
    destruct (resolution vm (document resp)) as [e0 | k0] eqn:Hr;
      cbn [settled] in Hk; [discriminate Hk |].
    injection Hk as ->. rename Hr into Hk.
    unfold resolution in Hk.
    destruct (treated_unreachable vm (document resp)); [left; congruence |].
    destruct (search_arrays vm (key_collections (document resp))) as [e | k'] eqn:Hs.
    + unfold handled in Hk.
      destruct (includes _ _); [left; congruence | discriminate Hk].
    + destruct (truthy k') eqn:Hk'.
      * injection Hk as <-. right.
        destruct (search_arrays_found vm _ _ Hs Hk') as (Hm & items & Hin & Hki).
        exists resp, items. repeat split; assumption.
      * unfold handled in Hk.
        destruct (includes _ _); [left; congruence | discriminate Hk].
Qed.

(** X10. When the owning document is loaded and treated as reachable, but
    none of its four collections holds an entry the request accepts, the
    resolver raises the error that names the identifier, provided the
    identifier itself does not contain ["Failed to fetch"] (the handler
    tests the message, which quotes the identifier). *)
Theorem getPublicKeyFromDID_not_found
    (vm : string) (cb : bool) (w w1 : World) (resp : ResolvedDocument) :
  loadUrlDocument E (JString (owner_of vm)) (announced cb vm w) = (Returned resp, w1) ->
  treated_unreachable vm (document resp) = false ->
  Forall (yields_no_key vm) (key_collections (document resp)) ->
  includes vm "Failed to fetch" = false ->
  getPublicKeyFromDID E (JString vm) cb w
  = (Thrown (Error ("Verification method " +:+ vm +:+ " not found in DID document")), w1).
Proof.
  intros Hload Hreal Hnone Hvm.
  rewrite getPublicKeyFromDID_string, Hload.
  unfold resolution. rewrite Hreal, (search_arrays_none vm _ Hnone).
  cbn [truthy]. unfold handled. rewrite includes_not_found, Hvm. reflexivity.
Qed.

(** *** The orchestrator *)

(** X27. A credential whose [proof] is missing gets the missing-proof
    result; one whose [proof.type] is not ["Ed25519Signature2018"] gets
    the unsupported-type result naming the type when the type converts to
    a string, and the failure carrying the conversion's exception when it
    does not.  In every case neither the network nor the document loader
    nor the cache has been touched. *)
Theorem verifyCredentialSignature_rejects_before_resolution (cb : bool) (w : World) :
  let c := credentialObject w in
  proof_accepted c = false ->
  exists w',
    verifyCredentialSignature E cb w
    = (Returned (if truthy c && truthy (get "proof" c)
                 then match to_string (get "type" (get "proof" c)) with
                      | inr type => unsupported_type_result type
                      | inl e => reported e
                      end
                 else missing_proof_result), w') /\
    requests w' = requests w /\
    loaderCalls w' = loaderCalls w /\
    documentCache w' = documentCache w.
Proof.
  intros c Hacc. rewrite (verifyCredentialSignature_stops_early E cb w Hacc). fold c.
  destruct (truthy c && truthy (get "proof" c)).
  - eexists. split; [reflexivity |]. destruct cb; repeat split.
  - exists w. repeat split.
Qed.

(** X11. When the resolver answers [null], the call returns at once with
    the "could not resolve" result tagged [errors: ["CORS"]]: no key is
    constructed, no suite is built and [jsigs.verify] is not called. *)
Theorem unresolved_key_is_reported (cb : bool) (w w1 : World) (pk : value) :
  let c := credentialObject w in
  proof_accepted c = true ->
  getPublicKeyFromDID E (get "verificationMethod" (get "proof" c)) cb (checked cb w)
  = (Returned pk, w1) ->
  truthy pk = false ->
  verifyCredentialSignature E cb w = (Returned unresolved_result, w1) /\
  suitesBuilt w1 = suitesBuilt w /\
  verifyCalls w1 = verifyCalls w /\
  timersFired w1 = timersFired w.
Proof.
  intros c Hacc Hkey Hpk.
  rewrite (verifyCredentialSignature_resolves E cb w Hacc). fold c.
  rewrite Hkey, Hpk. split; [reflexivity |].
  destruct (resolver_frame E cb w w1 _ _ Hacc Hkey) as (_ & Hs & Hv & Ht).
  repeat split; assumption.
Qed.

(** X12. A credential signed with a verification method the loader does
    not dereference (a [did:key], a URN) can never be verified: every call
    returns the "could not resolve" result, without a single request. *)
Theorem undereferenced_method_is_unresolved (cb : bool) (w : World) (vm : string) :
  let c := credentialObject w in
  reachable E w ->
  proof_accepted c = true ->
  get "verificationMethod" (get "proof" c) = JString vm ->
  undereferenced (owner_of vm) = true ->
  exists w',
    verifyCredentialSignature E cb w = (Returned unresolved_result, w') /\
    requests w' = requests w.
Proof.
  intros c Hreach Hacc Hvm Hu.
  destruct (checked_frame cb w Hacc) as (_ & Hcache & Hreq0 & _).
  assert (Hsound : cache_sound (checked cb w)).
  { intros u r. rewrite Hcache. apply (reachable_sound E w Hreach). }
  destruct (null_when_undereferenced vm cb (checked cb w) Hsound Hu)
    as (w' & Hkey & Hreq & _).
  exists w'. rewrite (verifyCredentialSignature_resolves E cb w Hacc). fold c.
  rewrite Hvm, Hkey. split; [reflexivity |].
  rewrite Hreq. exact Hreq0.
Qed.

Lemma reported_is_failure (e : JsError) : verified (reported e) = false.
Proof. unfold reported. destruct (safe_mode e); reflexivity. Qed.

(** X13. An exception raised while resolving the key (a verification
    method that is not a string, a document without the key) does not
    escape: the call returns a failure whose [error] is the exception's
    message, and neither a suite nor a call to [jsigs.verify] is made. *)
Theorem resolver_exception_is_reported (cb : bool) (w w1 : World) (e : JsError) :
  let c := credentialObject w in
  proof_accepted c = true ->
  getPublicKeyFromDID E (get "verificationMethod" (get "proof" c)) cb (checked cb w)
  = (Thrown e, w1) ->
  verifyCredentialSignature E cb w = (Returned (reported e), w1) /\
  suitesBuilt w1 = suitesBuilt w /\
  verifyCalls w1 = verifyCalls w.
Proof.
  intros c Hacc Hkey.
  rewrite (verifyCredentialSignature_resolves E cb w Hacc). fold c. rewrite Hkey.
  split; [reflexivity |].
  destruct (resolver_frame E cb w w1 _ _ Hacc Hkey) as (_ & Hs & Hv & _).
  split; assumption.
Qed.

(** X14. When the owning document is loaded and not taken for the
    placeholder, lists no entry for the requested identifier, and the
    identifier does not itself contain ["Failed to fetch"], the call
    returns the untagged failure whose message names that identifier. *)
Theorem missing_method_is_reported
    (cb : bool) (w w1 : World) (vm : string) (resp : ResolvedDocument) :
  let c := credentialObject w in
  proof_accepted c = true ->
  get "verificationMethod" (get "proof" c) = JString vm ->
  loadUrlDocument E (JString (owner_of vm)) (announced cb vm (checked cb w))
  = (Returned resp, w1) ->
  treated_unreachable vm (document resp) = false ->
  Forall (yields_no_key vm) (key_collections (document resp)) ->
  includes vm "Failed to fetch" = false ->
  verifyCredentialSignature E cb w
  = (Returned (mkResult false
                 (Some (Message ("Verification method " +:+ vm
                                 +:+ " not found in DID document")))
                 None None None), w1).
Proof.
  intros c Hacc Hvm Hload Hreal Hnone Hmark.
  rewrite (verifyCredentialSignature_resolves E cb w Hacc). fold c. rewrite Hvm.
  rewrite getPublicKeyFromDID_string, Hload.
  unfold resolution. rewrite Hreal, (search_arrays_none vm _ Hnone).
  cbn [truthy]. unfold handled. rewrite includes_not_found, Hmark. cbn [settled].
  unfold reported, safe_mode, not_found_error, Error. cbn [name message].
  rewrite !append_cons, append_empty. reflexivity.
Qed.

(** X15. When the key constructor rejects the resolved record, the call
    returns a failure carrying the constructor's message, after the
    "creating key" milestone; no suite is built and [jsigs.verify] is
    not called. *)
Theorem rejected_key_is_reported (cb : bool) (w w1 : World) (pk : value) (e : JsError) :
  let c := credentialObject w in
  proof_accepted c = true ->
  getPublicKeyFromDID E (get "verificationMethod" (get "proof" c)) cb (checked cb w)
  = (Returned pk, w1) ->
  truthy pk = true ->
  keyRejected E pk = Some e ->
  exists w',
    verifyCredentialSignature E cb w = (Returned (reported e), w') /\
    suitesBuilt w' = suitesBuilt w /\
    verifyCalls w' = verifyCalls w.
Proof.
  intros c Hacc Hkey Hpk Hrej.
  rewrite (verifyCredentialSignature_resolves E cb w Hacc). fold c.
  rewrite Hkey, Hpk, Hrej. cbv zeta. eexists. split; [reflexivity |].
  destruct (resolver_frame E cb w w1 _ _ Hacc Hkey) as (_ & Hs & Hv & _).
  rewrite <- Hs, <- Hv. destruct cb; split; reflexivity.
Qed.

(** A verified result, traced back through the run. *)
Lemma verified_run_inversion
    (cb : bool) (w w' : World) (r : VerificationResult) :
  verifyCredentialSignature E cb w = (Returned r, w') ->
  verified r = true ->
  let c := credentialObject w in
  exists pk w1,
    proof_accepted c = true /\
    getPublicKeyFromDID E (get "verificationMethod" (get "proof" c)) cb (checked cb w)
    = (Returned pk, w1) /\
    truthy pk = true /\
    keyRejected E pk = None /\
    suiteRejected E (mkKey pk) (get "id" pk) = None /\
    run_verify E (jsigs_verify E c (mkSuite (mkKey pk) (get "id" pk)))
      (assembled cb c (mkSuite (mkKey pk) (get "id" pk)) w1)
    = (Returned (Some JsigsVerified), w') /\
    r = mkResult true None None None None.
Proof.
  intros Hrun Hver c.
  destruct (proof_accepted c) eqn:Hacc.
  - rewrite (verifyCredentialSignature_resolves E cb w Hacc) in Hrun. fold c in Hrun.
    destruct (getPublicKeyFromDID E (get "verificationMethod" (get "proof" c)) cb
                (checked cb w)) as [[pk | e |] w1] eqn:Hkey.
    + destruct (truthy pk) eqn:Hpk.
      * cbv zeta in Hrun.
        destruct (keyRejected E pk) as [e |] eqn:Hrej.
        -- injection Hrun as <- _.
           rewrite reported_is_failure in Hver. discriminate Hver.
        -- destruct (suiteRejected E (mkKey pk) (get "id" pk)) as [e |] eqn:Hsuite.
           ++ injection Hrun as <- _.
              rewrite reported_is_failure in Hver. discriminate Hver.
           ++ exists pk, w1. repeat (split; [reflexivity |]).
              split; [exact Hpk |]. split; [exact Hrej |]. split; [exact Hsuite |].
              unfold race_with_timeout, bind in Hrun.
              destruct (run_verify E _ _) as [[[res |] | e |] w3];
                unfold throw, ret in Hrun; cbn [fst snd concluded] in Hrun.
              ** injection Hrun as <- <-.
                 destruct res; [split; reflexivity | discriminate Hver].
              ** injection Hrun as <- _. discriminate Hver.
              ** injection Hrun as <- _. exfalso. revert Hver.
                 destruct (includes _ "timeout"); [discriminate |].
                 rewrite reported_is_failure. discriminate.
              ** discriminate Hrun.
      * injection Hrun as <- _. discriminate Hver.
    + injection Hrun as <- _. rewrite reported_is_failure in Hver. discriminate Hver.
    + discriminate Hrun.
  - rewrite (verifyCredentialSignature_stops_early E cb w Hacc) in Hrun. fold c in Hrun.
    destruct (truthy c && truthy (get "proof" c)); injection Hrun as <- _;
      [| discriminate Hver].
    destruct (to_string _); [| discriminate Hver].
    rewrite reported_is_failure in Hver. discriminate Hver.
Qed.

(** X16. The call never reports [verified: true] on its own authority:
    it does so only when the proof block was accepted, a key record was
    resolved and accepted by both constructors, and the one call of
    [jsigs.verify], on the caller's credential with the suite built from
    that record, settled before the timer with a verified result; the
    object returned then carries no error and no tag. *)
Theorem verified_only_by_the_library
    (cb : bool) (w w' : World) (r : VerificationResult) :
  verifyCredentialSignature E cb w = (Returned r, w') ->
  verified r = true ->
  let c := credentialObject w in
  exists pk w1,
    proof_accepted c = true /\
    getPublicKeyFromDID E (get "verificationMethod" (get "proof" c)) cb (checked cb w)
    = (Returned pk, w1) /\
    truthy pk = true /\
    keyRejected E pk = None /\
    suiteRejected E (mkKey pk) (get "id" pk) = None /\
    run_verify E (jsigs_verify E c (mkSuite (mkKey pk) (get "id" pk)))
      (assembled cb c (mkSuite (mkKey pk) (get "id" pk)) w1)
    = (Returned (Some JsigsVerified), w') /\
    verifyCalls w' = (c, mkSuite (mkKey pk) (get "id" pk)) :: verifyCalls w /\
    timersFired w' = timersFired w /\
    r = mkResult true None None None None.
Proof.
  intros Hrun Hver c.
  destruct (verified_run_inversion cb w w' r Hrun Hver)
    as (pk & w1 & Hacc & Hkey & Hpk & Hrej & Hsuite & Hlib & Hr).
  exists pk, w1. repeat (split; [assumption |]).
  pose proof (run_verify_quiet E (jsigs_verify E c (mkSuite (mkKey pk) (get "id" pk)))
                (assembled cb c (mkSuite (mkKey pk) (get "id" pk)) w1)) as Hq.
  fold c in Hlib. rewrite Hlib in Hq. destruct Hq as (_ & _ & Hv & Ht). cbn [snd] in Hv, Ht.
  destruct (resolver_frame E cb w w1 _ _ Hacc Hkey) as (_ & _ & Hv1 & Ht1).
  split; [| split].
  - rewrite Hv, <- Hv1. destruct cb; reflexivity.
  - rewrite Ht, <- Ht1. destruct cb; reflexivity.
  - exact Hr.
Qed.

(** The run that reaches the race, from the library's answer. *)
Lemma verifyCredentialSignature_raced
    (cb : bool) (w w1 w3 : World) (pk : value) (x : Outcome (option JsigsResult)) :
  let c := credentialObject w in
  let suite := mkSuite (mkKey pk) (get "id" pk) in
  proof_accepted c = true ->
  getPublicKeyFromDID E (get "verificationMethod" (get "proof" c)) cb (checked cb w)
  = (Returned pk, w1) ->
  truthy pk = true ->
  keyRejected E pk = None ->
  suiteRejected E (mkKey pk) (get "id" pk) = None ->
  run_verify E (jsigs_verify E c suite) (assembled cb c suite w1) = (x, w3) ->
  (forall e, x = Thrown e ->
     verifyCredentialSignature E cb w
     = (Returned (if includes (message e) "timeout" then timeout_result else reported e),
        w3)) /\
  timersFired (assembled cb c suite w1) = timersFired w /\
  timersFired w3 = timersFired w.
Proof.
  intros c suite Hacc Hkey Hpk Hrej Hsuite Hrun.
  assert (Ht0 : timersFired (assembled cb c suite w1) = timersFired w).
  { destruct (resolver_frame E cb w w1 _ _ Hacc Hkey) as (_ & _ & _ & Ht1).
    rewrite <- Ht1. destruct cb; reflexivity. }
  split; [| split; [exact Ht0 |]].
  - intros e ->.
    rewrite (verifyCredentialSignature_resolves E cb w Hacc). fold c.
    rewrite Hkey, Hpk, Hrej, Hsuite. cbv zeta. fold suite.
    unfold race_with_timeout, bind. rewrite Hrun. reflexivity.
  - pose proof (run_verify_quiet E (jsigs_verify E c suite) (assembled cb c suite w1)) as Hq.
    rewrite Hrun in Hq. destruct Hq as (_ & _ & _ & Ht). cbn [snd] in Ht.
    rewrite Ht. exact Ht0.
Qed.

(** X17. An exception of [jsigs.verify] whose message merely contains
    ["timeout"] is reported as the TIMEOUT result although no timer has
    fired. *)
Theorem timeout_in_message_is_reported_as_timeout
    (cb : bool) (w w1 w3 : World) (pk : value) (e : JsError) :
  let c := credentialObject w in
  let suite := mkSuite (mkKey pk) (get "id" pk) in
  proof_accepted c = true ->
  getPublicKeyFromDID E (get "verificationMethod" (get "proof" c)) cb (checked cb w)
  = (Returned pk, w1) ->
  truthy pk = true ->
  keyRejected E pk = None ->
  suiteRejected E (mkKey pk) (get "id" pk) = None ->
  run_verify E (jsigs_verify E c suite) (assembled cb c suite w1) = (Thrown e, w3) ->
  includes (message e) "timeout" = true ->
  verifyCredentialSignature E cb w = (Returned timeout_result, w3) /\
  timersFired w3 = timersFired w.
Proof.
  intros c suite Hacc Hkey Hpk Hrej Hsuite Hrun Hmsg.
  destruct (verifyCredentialSignature_raced cb w w1 w3 pk _ Hacc Hkey Hpk Hrej Hsuite Hrun)
    as (Hthrown & _ & Ht).
  rewrite (Hthrown e eq_refl), Hmsg. split; [reflexivity | exact Ht].
Qed.

(** X18. A [jsonld.ValidationError] of [jsigs.verify] that mentions
    ["Safe mode"] (and not ["timeout"]) is reported as the SAFE_MODE
    result, which keeps the original message in [originalError]. *)
Theorem safe_mode_error_is_reported
    (cb : bool) (w w1 w3 : World) (pk : value) (e : JsError) :
  let c := credentialObject w in
  let suite := mkSuite (mkKey pk) (get "id" pk) in
  proof_accepted c = true ->
  getPublicKeyFromDID E (get "verificationMethod" (get "proof" c)) cb (checked cb w)
  = (Returned pk, w1) ->
  truthy pk = true ->
  keyRejected E pk = None ->
  suiteRejected E (mkKey pk) (get "id" pk) = None ->
  run_verify E (jsigs_verify E c suite) (assembled cb c suite w1) = (Thrown e, w3) ->
  name e = "jsonld.ValidationError" ->
  includes (message e) "Safe mode" = true ->
  includes (message e) "timeout" = false ->
  exists r,
    verifyCredentialSignature E cb w = (Returned r, w3) /\
    verified r = false /\
    errorType r = Some "SAFE_MODE" /\
    originalError r = Some (message e) /\
    errors r = None.
Proof.
  intros c suite Hacc Hkey Hpk Hrej Hsuite Hrun Hname Hsafe Hmsg.
  destruct (verifyCredentialSignature_raced cb w w1 w3 pk _ Hacc Hkey Hpk Hrej Hsuite Hrun)
    as (Hthrown & _ & _).
  rewrite (Hthrown e eq_refl), Hmsg. unfold reported, safe_mode.
  rewrite Hname, Hsafe, String.eqb_refl. cbn [andb].
  eexists. split; [reflexivity |]. repeat split.
Qed.

(** What each step adds to the list of milestones reported. *)
Lemma steps_notify (cb : bool) (step : nat) (msg : string) (w : World) :
  steps_reported (after (notify cb step msg) w)
  = steps_reported w ++ (if cb then [step] else []).
Proof.
  unfold steps_reported, after, notify, note_progress.
  destruct cb; cbn; [reflexivity | rewrite app_nil_r; reflexivity].
Qed.

Lemma steps_checked (cb : bool) (w : World) :
  proof_accepted (credentialObject w) = true ->
  steps_reported (checked cb w)
  = steps_reported w
    ++ (if cb then [PROGRESS_STEPS.START; PROGRESS_STEPS.CHECK_PROOF] else []).
Proof.
  intros Hacc. destruct (proof_accepted_parts _ Hacc) as (_ & _ & Htype).
  unfold checked. rewrite Htype. unfold interpolate. cbn [to_string].
  rewrite announce_text, !steps_notify, <- app_assoc. destruct cb; reflexivity.
Qed.

Lemma steps_resolver (vm : value) (cb : bool) (w : World) :
  let run := getPublicKeyFromDID E vm cb w in
  exists k,
    steps_reported (snd run)
    = steps_reported w ++ (if cb then firstn k [PROGRESS_STEPS.RESOLVE_DID] else []) /\
    ((forall e, fst run <> Thrown e) -> k = 1).
Proof.
  cbv zeta.
  assert (Hother : (forall s, vm <> JString s) ->
            exists k,
              steps_reported (snd (getPublicKeyFromDID E vm cb w))
              = steps_reported w
                ++ (if cb then firstn k [PROGRESS_STEPS.RESOLVE_DID] else []) /\
              ((forall e, fst (getPublicKeyFromDID E vm cb w) <> Thrown e) -> k = 1)).
  { intros Hns.
    destruct (getPublicKeyFromDID_not_string E vm cb w Hns)
      as (msg & w' & Hthrow & _ & _ & _ & _ & [Hlog | (text & Hcb & Hlog)]);
      rewrite Hthrow; cbn [fst snd]; unfold steps_reported; rewrite Hlog.
    - exists 0. split; [| intros H; destruct (H _ eq_refl)].
      destruct cb; cbn; rewrite app_nil_r; reflexivity.
    - exists 1. split; [| reflexivity]. rewrite Hcb. reflexivity. }
  destruct vm as [| | b | n | s | l | fs]; try (apply Hother; intros s; discriminate).
  clear Hother. exists 1. split; [| reflexivity].
  rewrite getPublicKeyFromDID_string.
  pose proof (loadUrlDocument_silent E (JString (owner_of s)) (announced cb s w)) as Hl.
  unfold unchanged in Hl.
  assert (Hlog : forall w1,
            progressLog w1 = progressLog (announced cb s w) ->
            steps_reported w1
            = steps_reported w ++ (if cb then firstn 1 [PROGRESS_STEPS.RESOLVE_DID] else [])).
  { intros w1 H. unfold steps_reported. rewrite H.
    exact (steps_notify cb PROGRESS_STEPS.RESOLVE_DID _ w). }
  destruct (loadUrlDocument E (JString (owner_of s)) (announced cb s w))
    as [[resp | e |] w1]; cbn [snd] in *; apply Hlog; exact Hl.
Qed.

Lemma steps_assembled (cb : bool) (c : value) (suite : Suite) (w : World) :
  steps_reported (assembled cb c suite w)
  = steps_reported w
    ++ (if cb then [PROGRESS_STEPS.CREATE_KEY; PROGRESS_STEPS.SETUP_SUITE;
                    PROGRESS_STEPS.VERIFY] else []).
Proof.
  unfold assembled.
  change (steps_reported (after (note_verify c suite) ?x)) with (steps_reported x).
  rewrite steps_notify.
  change (steps_reported (after (note_suite suite) ?x)) with (steps_reported x).
  rewrite !steps_notify, <- !app_assoc. destruct cb; reflexivity.
Qed.

Lemma steps_race (ms : N) (rejection : JsError) (run : VerifyRun) (w : World) :
  steps_reported (snd (race_with_timeout E ms rejection run w)) = steps_reported w.
Proof.
  unfold race_with_timeout, bind.
  pose proof (run_verify_silent E run w) as Hs. unfold unchanged in Hs.
  unfold steps_reported.
  destruct (run_verify E run w) as [[[res |] | e |] w3]; cbn [snd] in Hs;
    rewrite <- Hs; reflexivity.
Qed.

(** X19. The milestones a call reports are always an initial run of the
    fixed sequence 10, 25, 50, 65, 80, 100, in that order, and nothing is
    reported when no callback was passed. *)
Theorem milestones_reported_in_order (cb : bool) (w : World) :
  exists n,
    steps_reported (after (verifyCredentialSignature E cb) w)
    = steps_reported w ++ (if cb then firstn n milestones else []).
Proof.
  unfold after at 1. set (c := credentialObject w).
  destruct (proof_accepted c) eqn:Hacc.
  - pose proof (verifyCredentialSignature_resolves E cb w Hacc) as Hres. fold c in Hres.
    pose proof (steps_checked cb w Hacc) as H0.
    destruct (steps_resolver (get "verificationMethod" (get "proof" c)) cb (checked cb w))
      as (k & H1 & Hk).
    rewrite Hres.
    destruct (getPublicKeyFromDID E (get "verificationMethod" (get "proof" c)) cb
                (checked cb w)) as [[pk | e |] w1] eqn:Hkey; cbn [fst snd] in H1, Hk.
    + rewrite (Hk ltac:(discriminate)) in H1.
      destruct (truthy pk) eqn:Hpk.
      * cbv zeta. destruct (keyRejected E pk) as [e |] eqn:Hrej.
        -- exists 4. cbn [snd]. rewrite steps_notify, H1, H0, <- !app_assoc.
           destruct cb; reflexivity.
        -- destruct (suiteRejected E (mkKey pk) (get "id" pk)) as [e |] eqn:Hsuite.
           ++ exists 5. cbn [snd]. rewrite !steps_notify, H1, H0, <- !app_assoc.
              destruct cb; reflexivity.
           ++ exists 6. cbn [snd].
              rewrite steps_race, steps_assembled, H1, H0, <- !app_assoc.
              destruct cb; reflexivity.
      * exists 3. cbn [snd]. rewrite H1, H0, <- !app_assoc. destruct cb; reflexivity.
    + cbn [snd]. rewrite H1, H0, <- !app_assoc.
      destruct k as [| k]; [exists 2 | exists 3]; destruct cb; try reflexivity.
      destruct k; reflexivity.
    + rewrite (Hk ltac:(discriminate)) in H1.
      exists 3. cbn [snd]. rewrite H1, H0, <- !app_assoc. destruct cb; reflexivity.
  - rewrite (verifyCredentialSignature_stops_early E cb w Hacc). fold c.
    destruct (truthy c && truthy (get "proof" c)); cbn [snd].
    + exists 1. rewrite steps_notify. destruct cb; reflexivity.
    + exists 0. destruct cb; cbn; rewrite app_nil_r; reflexivity.
Qed.

(** X28. When the suite constructor rejects the key or the record's [id],
    the call returns a failure carrying the constructor's exception, after
    the "setting up suite" milestone; [jsigs.verify] is not called and no
    timer is started. *)
Theorem rejected_suite_is_reported
    (cb : bool) (w w1 : World) (pk : value) (e : JsError) :
  let c := credentialObject w in
  proof_accepted c = true ->
  getPublicKeyFromDID E (get "verificationMethod" (get "proof" c)) cb (checked cb w)
  = (Returned pk, w1) ->
  truthy pk = true ->
  keyRejected E pk = None ->
  suiteRejected E (mkKey pk) (get "id" pk) = Some e ->
  exists w',
    verifyCredentialSignature E cb w = (Returned (reported e), w') /\
    suitesBuilt w' = suitesBuilt w /\
    verifyCalls w' = verifyCalls w /\
    timersFired w' = timersFired w.
Proof.
  intros c Hacc Hkey Hpk Hrej Hsuite.
  rewrite (verifyCredentialSignature_resolves E cb w Hacc). fold c.
  rewrite Hkey, Hpk, Hrej, Hsuite. cbv zeta. eexists. split; [reflexivity |].
  destruct (resolver_frame E cb w w1 _ _ Hacc Hkey) as (_ & Hs & Hv & Ht).
  rewrite <- Hs, <- Hv, <- Ht. destruct cb; repeat split.
Qed.

End Coverage.

(** ** Properties of the caller *)

Section CallerProperties.

Variable E : Env.

Lemma accepted_is_object (c : value) :
  truthy (get "proof" c) = true -> exists fields, c = JObject fields.
Proof. destruct c; cbn; try discriminate. intros _. eexists. reflexivity. Qed.

Lemma accepted_parts (c : value) :
  validateCredentialStructure c = inr Accepted ->
  truthy c = true /\
  truthy (get "proof" c) = true /\
  strict_eq_str (get "type" (get "proof" c)) "Ed25519Signature2018" = true /\
  truthy (get "verificationMethod" (get "proof" c)) = true.
Proof.
  unfold validateCredentialStructure.
  destruct (truthy c); cbn [negb orb andb]; [| discriminate].
  destruct (typeof_object c); cbn [negb]; [| discriminate].
  destruct (truthy (get "proof" c)); cbn [negb orb andb]; [| discriminate].
  destruct (truthy (get "type" (get "proof" c))); cbn [negb]; [| discriminate].
  destruct (truthy (get "verificationMethod" (get "proof" c))); cbn [negb];
    [| discriminate].
  destruct (strict_eq_str _ _); cbn [negb]; [repeat split |].
  destruct (to_string _); discriminate.
Qed.

Lemma accepted_by_orchestrator (c : value) :
  validateCredentialStructure c = inr Accepted -> proof_accepted c = true.
Proof.
  intros Hv. destruct (accepted_parts c Hv) as (Hc & Hp & Ht & _).
  unfold proof_accepted. rewrite Hc, Hp, Ht. reflexivity.
Qed.

(** The shape of an accepted credential. *)
Lemma accepted_shape (c : value) :
  validateCredentialStructure c = inr Accepted ->
  exists fields pf,
    c = JObject fields /\
    lookup_field "proof" fields = JObject pf /\
    lookup_field "type" pf = JString "Ed25519Signature2018".
Proof.
  intros Hv. destruct (accepted_parts c Hv) as (_ & Hproof & Htype & _).
  apply strict_eq_str_true in Htype.
  destruct (accepted_is_object c Hproof) as [fields ->].
  cbn [get] in *.
  destruct (lookup_field "proof" fields) as [| | | | | | pf] eqn:Hp;
    cbn in Htype; try discriminate Htype.
  exists fields, pf. split; [reflexivity |]. split; [exact Hp | exact Htype].
Qed.

(** X20. The page accepts exactly the credentials the orchestrator's own
    structural checks accept and whose proof also names a verification
    method. *)
Theorem validation_matches_orchestrator (c : value) :
  validateCredentialStructure c = inr Accepted <->
  proof_accepted c = true /\
  truthy (get "verificationMethod" (get "proof" c)) = true.
Proof.
  split.
  - intros Hv. split; [apply accepted_by_orchestrator, Hv | apply (accepted_parts c Hv)].
  - intros [Hacc Hvm]. unfold proof_accepted in Hacc.
    apply andb_prop in Hacc as [Hacc Htype]. apply andb_prop in Hacc as [Hc Hproof].
    destruct (accepted_is_object c Hproof) as [fields ->].
    unfold validateCredentialStructure.
    rewrite Hproof, Hvm, Htype. rewrite (proj1 (strict_eq_str_true _ _) Htype). reflexivity.
Qed.

Lemma verifyCredentialSignature_no_exception (cb : bool) (w : World) (e : JsError) :
  fst (verifyCredentialSignature E cb w) <> Thrown e.
Proof.
  rewrite verifyCredentialSignature_result.
  destruct (ending E cb w) as [| [e' | type] | | method e' | | e' | e' | [[[| e'] |] | e' |]];
    discriminate.
Qed.

(** The screen of an accepted credential is the one its result selects. *)
Lemma verifyCredential_accepted (w : World) :
  validateCredentialStructure (credentialObject w) = inr Accepted ->
  verifyCredential E w
  = match verifyCredentialSignature E true w with
    | (Returned r, w') => (Returned (show_result r), w')
    | (Thrown e, w') => (Returned (ShowError (message e)), w')
    | (Pending, w') => (Pending, w')
    end.
Proof.
  intros Hv. destruct (accepted_shape _ Hv) as (fields & pf & Hc & Hp & Ht).
  unfold verifyCredential, try_catch, bind, read_credential.
  rewrite Hc. cbn [read lift settled get fst snd]. rewrite Hp.
  cbn [read lift settled get fst snd]. rewrite Ht. unfold interpolate.
  cbn [to_string lift settled fst snd].
  destruct (verifyCredentialSignature E true w) as [[r | e |] w']; reflexivity.
Qed.

Lemma processCredential_accepted (w : World) (info : CredentialInfo) :
  validateCredentialStructure (credentialObject w) = inr Accepted ->
  displayCredentialInfo (credentialObject w) = inr info ->
  processCredential E w
  = match verifyCredentialSignature E true w with
    | (Returned r, w') => (Returned (Some info, show_result r), w')
    | (Thrown e, w') => (Returned (Some info, ShowError (message e)), w')
    | (Pending, w') => (Pending, w')
    end.
Proof.
  intros Hv Hd.
  unfold processCredential, bind, read_credential. rewrite Hv, Hd.
  cbn [lift settled fst snd]. rewrite (verifyCredential_accepted w Hv).
  destruct (verifyCredentialSignature E true w) as [[r | e |] w']; reflexivity.
Qed.

(** Conversions inside the summary of an accepted credential. *)
Lemma text_of_printable (v : value) :
  printable v = true -> exists s, text_content (or_not_specified v) = inr s.
Proof.
  unfold printable, or_not_specified. intros H.
  destruct (truthy v) eqn:Ht; [| eexists; reflexivity].
  destruct (to_string v) as [e | s] eqn:Hs; [discriminate H |].
  exists s. destruct v; try discriminate Ht; exact Hs.
Qed.

Lemma type_text_printable (v : value) :
  printable v = true -> exists s, type_text v = inr s.
Proof.
  unfold printable, type_text, join_values. intros H.
  destruct v as [| | b | n | s | items | fields]; try (eexists; reflexivity).
  - destruct b; eexists; reflexivity.
  - rewrite to_string_of_array in H.
    destruct (element_strings to_string items); [discriminate H | eexists; reflexivity].
  - cbn [text_content]. destruct (to_string (JObject fields)); [discriminate H |].
    eexists; reflexivity.
Qed.

Lemma type_text_unprintable (v : value) :
  printable v = false ->
  type_text v = inl (TypeError "Cannot convert object to primitive value").
Proof.
  unfold printable. intros H.
  destruct (to_string v) as [e | s] eqn:Hs; [| discriminate H].
  pose proof (to_string_error v e Hs) as ->.
  destruct v as [| | b | n | s | items | fields]; try discriminate Hs.
  - destruct b; discriminate Hs.
  - unfold type_text, join_values. rewrite to_string_of_array in Hs.
    destruct (element_strings to_string items); [exact Hs | discriminate Hs].
  - exact Hs.
Qed.

Lemma text_unprintable (v : value) :
  printable v = false ->
  text_content (or_not_specified v)
  = inl (TypeError "Cannot convert object to primitive value").
Proof.
  unfold printable, or_not_specified. intros H.
  destruct (to_string v) as [e | s] eqn:Hs; [| discriminate H].
  pose proof (to_string_error v e Hs) as ->.
  destruct v as [| | b | n | s | items | fields]; try discriminate Hs.
  - destruct b; discriminate Hs.
  - exact Hs.
  - exact Hs.
Qed.

Lemma issuer_cell_displayable (fields : list (string * value)) :
  issuer_displayable (JObject fields) = true ->
  exists cell, issuer_cell (or_not_specified (lookup_field "issuer" fields)) = inr cell.
Proof.
  unfold issuer_displayable, or_not_specified. cbn [get]. intros H.
  destruct (truthy (lookup_field "issuer" fields)) eqn:Ht.
  - destruct (lookup_field "issuer" fields) as [| | b | n | s | l | fs];
      try rewrite Ht in H; try discriminate H.
    unfold issuer_cell. destruct (startsWith s "did:web:"); eexists; reflexivity.
  - eexists. reflexivity.
Qed.

Lemma issuer_cell_undisplayable (fields : list (string * value)) :
  issuer_displayable (JObject fields) = false ->
  issuer_cell (or_not_specified (lookup_field "issuer" fields))
  = inl (TypeError "issuerDid.startsWith is not a function").
Proof.
  unfold issuer_displayable, or_not_specified. cbn [get]. intros H.
  destruct (lookup_field "issuer" fields) as [| | b | n | s | l | fs];
    try discriminate H; apply negb_false_iff in H; rewrite H; reflexivity.
Qed.

(** The summary of an accepted credential, cell by cell. *)
Lemma summary_of_accepted (fields pf : list (string * value)) :
  lookup_field "proof" fields = JObject pf ->
  lookup_field "type" pf = JString "Ed25519Signature2018" ->
  displayCredentialInfo (JObject fields)
  = and_then (text_content (or_not_specified (lookup_field "id" fields)))
      (fun credentialId =>
       and_then (type_text (lookup_field "type" fields)) (fun credentialType =>
       and_then (issuer_cell (or_not_specified (lookup_field "issuer" fields)))
         (fun credentialIssuer =>
          and_then (text_content (or_not_specified (lookup_field "issuanceDate" fields)))
            (fun credentialDate =>
             inr (mkInfo credentialId credentialType credentialIssuer credentialDate
                    "Ed25519Signature2018"))))).
Proof.
  intros Hp Ht. unfold displayCredentialInfo. cbn [read and_then get].
  rewrite Hp. cbn [read and_then get]. rewrite Ht. reflexivity.
Qed.

(** X21. After validation the summary is displayed exactly when [id],
    [type] and [issuanceDate] convert to strings and [issuer] is a string
    or falsy, and it then shows the proof type validation checked.
    Otherwise it raises one of two [TypeError]s (their messages in V8's
    wording) before anything is verified: that of the conversion, or,
    when [id] and [type] convert and the [issuer] is truthy but not a
    string (an issuer object, say), that of the missing [startsWith]. *)
Theorem summary_displayed_iff_displayable (c : value) :
  validateCredentialStructure c = inr Accepted ->
  (if displayable c
   then exists info,
          displayCredentialInfo c = inr info /\
          proofType info = "Ed25519Signature2018"
   else displayCredentialInfo c
        = inl (TypeError "Cannot convert object to primitive value") \/
        displayCredentialInfo c
        = inl (TypeError "issuerDid.startsWith is not a function")) /\
  (printable (get "id" c) = true ->
   printable (get "type" c) = true ->
   issuer_displayable c = false ->
   displayCredentialInfo c
   = inl (TypeError "issuerDid.startsWith is not a function")).
Proof.
  intros Hv. destruct (accepted_shape c Hv) as (fields & pf & -> & Hp & Ht).
  rewrite (summary_of_accepted fields pf Hp Ht).
  unfold displayable. cbn [get].
  split.
  - destruct (printable (lookup_field "id" fields)) eqn:Hid; cbn [andb].
    + destruct (text_of_printable _ Hid) as (i & ->). cbn [and_then].
      destruct (printable (lookup_field "type" fields)) eqn:Htype; cbn [andb].
      * destruct (type_text_printable _ Htype) as (t & ->). cbn [and_then].
        destruct (issuer_displayable (JObject fields)) eqn:Hissuer; cbn [andb].
        -- destruct (issuer_cell_displayable _ Hissuer) as (cell & ->). cbn [and_then].
           destruct (printable (lookup_field "issuanceDate" fields)) eqn:Hdate.
           ++ destruct (text_of_printable _ Hdate) as (d & ->). cbn [and_then].
              eexists. split; reflexivity.
           ++ rewrite (text_unprintable _ Hdate). left. reflexivity.
        -- rewrite (issuer_cell_undisplayable _ Hissuer). right. reflexivity.
      * rewrite (type_text_unprintable _ Htype). left. reflexivity.
    + rewrite (text_unprintable _ Hid). left. reflexivity.
  - intros Hid Htype Hissuer.
    destruct (text_of_printable _ Hid) as (i & ->). cbn [and_then].
    destruct (type_text_printable _ Htype) as (t & ->). cbn [and_then].
    rewrite (issuer_cell_undisplayable _ Hissuer). reflexivity.
Qed.

Lemma show_success_verified (r : VerificationResult) :
  show_result r = ShowSuccess -> verified r = true.
Proof.
  unfold show_result. destruct (verified r); [reflexivity |].
  repeat match goal with
         | |- context [if ?b then _ else _] => destruct b
         end; discriminate.
Qed.

Lemma did_web_requested (u : string) (w : World) :
  startsWith u "did:web:" = true ->
  documentCache w !! u = None ->
  requests (after (loadUrlDocument E (JString u)) w) = did_web_address u :: requests w.
Proof.
  intros Hweb Hmiss. unfold after. rewrite (loadUrlDocument_miss E u w Hmiss). cbv zeta.
  rewrite (did_web_is_dereferenced u Hweb).
  destruct (address_of_did_web u Hweb) as [-> _].
  destruct (delivered _); reflexivity.
Qed.

(** X22. For a [did:web] issuer of an accepted credential whose [id],
    [type] and [issuanceDate] convert to strings, the markup written into
    the issuer cell is the anchor whose [href] text is the very address
    the loader requests when it resolves that identifier, followed by the
    identifier as the link's text; both are written as they stand, with
    nothing escaped. *)
Theorem issuer_link_is_the_address_fetched (c : value) (s : string) (w : World) :
  validateCredentialStructure c = inr Accepted ->
  printable (get "id" c) = true ->
  printable (get "type" c) = true ->
  printable (get "issuanceDate" c) = true ->
  get "issuer" c = JString s ->
  startsWith s "did:web:" = true ->
  documentCache w !! s = None ->
  exists info,
    displayCredentialInfo c = inr info /\
    credentialIssuer info
    = IssuerMarkup ("<a href=" +:+ quoted (did_web_address s)
                    +:+ " target=" +:+ quoted "_blank"
                    +:+ " rel=" +:+ quoted "noopener" +:+ ">" +:+ s +:+ "</a>") /\
    requests (after (loadUrlDocument E (JString s)) w) = did_web_address s :: requests w.
Proof.
  intros Hv Hid Htype Hdate Hissuer Hweb Hmiss.
  destruct (accepted_shape c Hv) as (fields & pf & -> & Hp & Ht).
  cbn [get] in *.
  assert (Hs : truthy (JString s) = true).
  { destruct s; [discriminate Hweb | reflexivity]. }
  rewrite (summary_of_accepted fields pf Hp Ht).
  destruct (text_of_printable _ Hid) as (i & ->).
  destruct (type_text_printable _ Htype) as (t & ->).
  destruct (text_of_printable _ Hdate) as (d & ->).
  rewrite Hissuer. unfold or_not_specified at 1. rewrite Hs.
  unfold issuer_cell. rewrite Hweb. cbn [and_then].
  eexists. split; [reflexivity |]. split; [reflexivity |].
  apply did_web_requested; assumption.
Qed.

(** X23. Once a credential is accepted and its summary displayed, the
    page's catch-all error screen cannot occur.  When the fetch of the
    owning document is answered, the orchestrator returns a result and
    the screen shown is the one that result selects; when that fetch is
    never answered, no screen is ever shown. *)
Theorem page_shows_the_result_screen (w : World) (info : CredentialInfo) :
  validateCredentialStructure (credentialObject w) = inr Accepted ->
  displayCredentialInfo (credentialObject w) = inr info ->
  (resolution_unanswered E w -> fst (processCredential E w) = Pending) /\
  (~ resolution_unanswered E w ->
   exists r w',
     verifyCredentialSignature E true w = (Returned r, w') /\
     processCredential E w = (Returned (Some info, show_result r), w') /\
     forall message, show_result r <> ShowError message).
Proof.
  intros Hv Hd. rewrite (processCredential_accepted w info Hv Hd).
  pose proof (verifyCredentialSignature_result E true w) as Hres.
  pose proof (ending_pending E true w) as Hpend. rewrite <- Hres in Hpend.
  pose proof (verifyCredentialSignature_no_exception true w) as Hno.
  destruct (verifyCredentialSignature E true w) as [[r | e |] w'];
    cbn [fst] in Hpend, Hno.
  - split.
    + intros Hun. apply Hpend in Hun. discriminate Hun.
    + intros _. exists r, w'. split; [reflexivity |]. split; [reflexivity |].
      intros message. unfold show_result.
      repeat match goal with
             | |- context [if ?b then _ else _] => destruct b
             end; discriminate.
  - destruct (Hno e eq_refl).
  - split; [reflexivity |]. intros Hans. destruct (Hans (proj1 Hpend eq_refl)).
Qed.

(** X24. The success screen is sound: the page shows it only when the
    credential was accepted, both constructors accepted the resolved key
    record, and the run of [jsigs.verify] on this credential, with the
    suite built from that record, settled with a verified result. *)
Theorem success_screen_only_when_verified
    (w w' : World) (info : option CredentialInfo) :
  processCredential E w = (Returned (info, ShowSuccess), w') ->
  let c := credentialObject w in
  exists pk w1,
    validateCredentialStructure c = inr Accepted /\
    getPublicKeyFromDID E (get "verificationMethod" (get "proof" c)) true
      (checked true w) = (Returned pk, w1) /\
    truthy pk = true /\
    keyRejected E pk = None /\
    suiteRejected E (mkKey pk) (get "id" pk) = None /\
    run_verify E (jsigs_verify E c (mkSuite (mkKey pk) (get "id" pk)))
      (assembled true c (mkSuite (mkKey pk) (get "id" pk)) w1)
    = (Returned (Some JsigsVerified), w').
Proof.
  intros Hrun c.
  destruct (validateCredentialStructure c) as [e | [| msg]] eqn:Hv.
  - unfold processCredential, bind, read_credential in Hrun. fold c in Hrun.
    rewrite Hv in Hrun. discriminate Hrun.
  - destruct (displayCredentialInfo c) as [e | shown] eqn:Hd.
    + unfold processCredential, bind, read_credential in Hrun. fold c in Hrun.
      rewrite Hv, Hd in Hrun. discriminate Hrun.
    + rewrite (processCredential_accepted w shown Hv Hd) in Hrun.
      destruct (verifyCredentialSignature E true w) as [[r | e |] w2] eqn:Hr;
        try discriminate Hrun.
      injection Hrun as _ Hscreen <-.
      destruct (verified_run_inversion E true w w2 r Hr (show_success_verified r Hscreen))
        as (pk & w1 & _ & Hkey & Hpk & Hrej & Hsuite & Hlib & _).
      exists pk, w1. repeat split; assumption.
  - unfold processCredential, bind, read_credential in Hrun. fold c in Hrun.
    rewrite Hv in Hrun. discriminate Hrun.
Qed.

(** X25. A file that parses to a well-formed, accepted credential whose
    [id] and [type] convert to strings and whose [issuer] is truthy but
    not a string (an issuer object) is turned away as an "Invalid JSON
    file": the summary's [TypeError] lands in the file reader's handler,
    and the credential is never verified. *)
Theorem issuer_object_reported_as_invalid_file (c : value) (w : World) :
  validateCredentialStructure c = inr Accepted ->
  printable (get "id" c) = true ->
  printable (get "type" c) = true ->
  issuer_displayable c = false ->
  reader_onload E (inr c) w
  = (Returned
       (None, ShowError "Invalid JSON file: issuerDid.startsWith is not a function"),
     with_credential c w).
Proof.
  intros Hv Hid Htype Hissuer.
  destruct (accepted_shape c Hv) as (fields & pf & Hc & Hp & Ht).
  assert (Hd : displayCredentialInfo c
               = inl (TypeError "issuerDid.startsWith is not a function")).
  { rewrite Hc in *. rewrite (summary_of_accepted fields pf Hp Ht).
    cbn [get] in *.
    destruct (text_of_printable _ Hid) as (i & ->). cbn [and_then].
    destruct (type_text_printable _ Htype) as (t & ->). cbn [and_then].
    rewrite (issuer_cell_undisplayable _ Hissuer). reflexivity. }
  unfold reader_onload, try_catch, bind. cbn [lift settled fst snd].
  unfold processCredential, bind, read_credential.
  cbn [credentialObject with_credential fst snd]. rewrite Hv, Hd. reflexivity.
Qed.

(** X26. For an accepted credential whose verification method the loader
    does not dereference ([did:key], URN), the page shows the "partial
    verification" screen, and not one request has been issued. *)
Theorem undereferenced_method_shows_partial
    (w : World) (vm : string) (info : CredentialInfo) :
  let c := credentialObject w in
  reachable E w ->
  validateCredentialStructure c = inr Accepted ->
  displayCredentialInfo c = inr info ->
  get "verificationMethod" (get "proof" c) = JString vm ->
  undereferenced (owner_of vm) = true ->
  exists w',
    processCredential E w = (Returned (Some info, ShowPartialSuccess), w') /\
    requests w' = requests w.
Proof.
  intros c Hreach Hv Hd Hvm Hu.
  rewrite (processCredential_accepted w info Hv Hd).
  pose proof (accepted_by_orchestrator c Hv) as Hacc.
  destruct (checked_frame true w Hacc) as (_ & Hcache & Hreq0 & _).
  assert (Hsound : cache_sound (checked true w)).
  { intros u r. rewrite Hcache. apply (reachable_sound E w Hreach). }
  destruct (null_when_undereferenced E vm true (checked true w) Hsound Hu)
    as (w1 & Hkey & Hreq & _).
  rewrite (verifyCredentialSignature_resolves E true w Hacc). fold c.
  rewrite Hvm, Hkey. cbn [truthy]. exists w1. split; [reflexivity |].
  rewrite Hreq. exact Hreq0.
Qed.

(** X29. Whatever exception interrupts the summary of an accepted
    credential, the page reports the file as an "Invalid JSON file" with
    that exception's message, and verifies nothing: no request is issued
    and the loader is not called. *)
Theorem summary_exception_reported_as_invalid_file (c : value) (w : World) :
  validateCredentialStructure c = inr Accepted ->
  displayable c = false ->
  exists msg w',
    reader_onload E (inr c) w
    = (Returned (None, ShowError ("Invalid JSON file: " +:+ msg)), w') /\
    (msg = "Cannot convert object to primitive value" \/
     msg = "issuerDid.startsWith is not a function") /\
    requests w' = requests w /\
    loaderCalls w' = loaderCalls w /\
    verifyCalls w' = verifyCalls w.
Proof.
  intros Hv Hdisp.
  assert (Hd : exists msg,
             displayCredentialInfo c = inl (TypeError msg) /\
             (msg = "Cannot convert object to primitive value" \/
              msg = "issuerDid.startsWith is not a function")).
  { destruct (accepted_shape c Hv) as (fields & pf & -> & Hp & Ht).
    rewrite (summary_of_accepted fields pf Hp Ht).
    unfold displayable in Hdisp. cbn [get] in Hdisp.
    destruct (printable (lookup_field "id" fields)) eqn:Hid;
      [| rewrite (text_unprintable _ Hid); eexists; split; [reflexivity | left; reflexivity]].
    destruct (text_of_printable _ Hid) as (i & ->). cbn [and_then].
    destruct (printable (lookup_field "type" fields)) eqn:Htype;
      [| rewrite (type_text_unprintable _ Htype);
         eexists; split; [reflexivity | left; reflexivity]].
    destruct (type_text_printable _ Htype) as (t & ->). cbn [and_then].
    cbn [andb] in Hdisp.
    destruct (issuer_displayable (JObject fields)) eqn:Hissuer;
      [| rewrite (issuer_cell_undisplayable _ Hissuer);
         eexists; split; [reflexivity | right; reflexivity]].
    destruct (issuer_cell_displayable _ Hissuer) as (cell & ->). cbn [and_then].
    cbn [andb] in Hdisp. rewrite (text_unprintable _ Hdisp).
    eexists. split; [reflexivity | left; reflexivity]. }
  destruct Hd as (msg & Hd & Hmsg).
  exists msg, (with_credential c w). split; [| split; [exact Hmsg | repeat split]].
  unfold reader_onload, try_catch, bind. cbn [lift settled fst snd].
  unfold processCredential, bind, read_credential.
  cbn [credentialObject with_credential fst snd]. rewrite Hv, Hd. reflexivity.
Qed.

End CallerProperties.

(** ** The further properties on concrete cases *)

Import Cases.

Lemma did_web_fetched_witness :
  exists w',
    loadUrlDocument (serving didDocument settling) (JString did) (initialWorld JNull)
    = (Returned (mkResolved JNull didDocument (JString did)), w') /\
    requests w' = ["https://example.com/issuer/did.json"] /\
    documentCache w' = <[did := mkResolved JNull didDocument (JString did)]> ∅.
Proof.
  apply (loadUrlDocument_did_web (serving didDocument settling) did (initialWorld JNull));
    vm_compute; reflexivity.
Defined.

Lemma plain_url_fallback_witness :
  exists w',
    loadUrlDocument (offline settling) (JString "https://w3id.org/security/v2")
      (initialWorld JNull)
    = (Returned (mkResolved JNull (JObject [("@context", CONTEXTS.W3C_SECURITY)])
                   (JString "https://w3id.org/security/v2")), w') /\
    requests w' = ["https://w3id.org/security/v2"] /\
    documentCache w'
    = <["https://w3id.org/security/v2" :=
          mkResolved JNull (JObject [("@context", CONTEXTS.W3C_SECURITY)])
            (JString "https://w3id.org/security/v2")]> ∅.
Proof.
  apply (loadUrlDocument_plain_url (offline settling) "https://w3id.org/security/v2"
           (initialWorld JNull));
    vm_compute; reflexivity.
Defined.

Lemma loaded_triple_names_identifier_witness :
  let E := serving didDocument stalling in
  let w := after (verifyCredentialSignature E true) (initialWorld credential) in
  cache_keyed w /\
  forall u,
    if never_answered E u w then fst (loadUrlDocument E (JString u) w) = Pending
    else
      exists r w',
        loadUrlDocument E (JString u) w = (Returned r, w') /\
        contextUrl r = JNull /\ documentUrl r = JString u.
Proof.
  cbv zeta.
  apply (loaded_triple_names_identifier (serving didDocument stalling)).
  apply reach_verify, reach_start.
Defined.

Lemma undelivered_witness :
  fst (getPublicKeyFromDID (offline settling) (JString vm) true (initialWorld JNull))
  = Returned JNull.
Proof.
  apply (getPublicKeyFromDID_undelivered (offline settling) vm true (initialWorld JNull));
    vm_compute; reflexivity.
Defined.

Lemma undereferenced_witness :
  exists w',
    getPublicKeyFromDID (offline settling) (JString didKeyMethod) false
      (initialWorld JNull) = (Returned JNull, w') /\
    requests w' = [] /\
    documentCache w' !! didKey = Some (minimal_document didKey).
Proof.
  apply (getPublicKeyFromDID_undereferenced (offline settling) didKeyMethod false
           (initialWorld JNull)).
  - apply reach_start.
  - vm_compute. reflexivity.
Defined.

Lemma returns_an_entry_witness :
  let E := serving didDocument settling in
  let w' := after (getPublicKeyFromDID E (JString vm) false) (initialWorld JNull) in
  fragmentKey = JNull \/
  exists resp items,
    documentCache w' !! owner_of vm = Some resp /\
    In (JArray items) (key_collections (document resp)) /\
    In fragmentKey items /\
    method_matches vm fragmentKey = inr true.
Proof.
  cbv zeta.
  apply (getPublicKeyFromDID_returns_an_entry (serving didDocument settling) vm false
           (initialWorld JNull)).
  vm_compute. reflexivity.
Defined.

Lemma not_found_witness :
  exists w1,
    getPublicKeyFromDID (serving keylessDocument settling) (JString vm) true
      (initialWorld JNull)
    = (Thrown (Error ("Verification method " +:+ vm +:+ " not found in DID document")),
       w1).
Proof.
  eexists.
  apply (getPublicKeyFromDID_not_found (serving keylessDocument settling) vm true
           (initialWorld JNull) _ (mkResolved JNull keylessDocument (JString did))).
  - vm_compute. reflexivity.
  - vm_compute. reflexivity.
  - repeat constructor.
  - vm_compute. reflexivity.
Defined.

Lemma rejects_before_resolution_witness :
  exists w',
    verifyCredentialSignature (serving didDocument settling) true
      (initialWorld rsaCredential)
    = (Returned (unsupported_type_result "RsaSignature2018"), w') /\
    requests w' = [] /\ loaderCalls w' = [] /\ documentCache w' = ∅.
Proof.
  apply (verifyCredentialSignature_rejects_before_resolution
           (serving didDocument settling) true (initialWorld rsaCredential)).
  vm_compute. reflexivity.
Defined.

Lemma unresolved_key_witness :
  let E := offline settling in
  let w1 :=
    after (getPublicKeyFromDID E (JString vm) true) (checked true (initialWorld credential)) in
  verifyCredentialSignature E true (initialWorld credential)
  = (Returned unresolved_result, w1) /\
  suitesBuilt w1 = [] /\ verifyCalls w1 = [] /\ timersFired w1 = [].
Proof.
  cbv zeta.
  apply (unresolved_key_is_reported (offline settling) true (initialWorld credential)
           _ JNull);
    vm_compute; reflexivity.
Defined.

Lemma undereferenced_method_witness :
  exists w',
    verifyCredentialSignature (serving didDocument settling) true
      (initialWorld didKeyCredential) = (Returned unresolved_result, w') /\
    requests w' = [].
Proof.
  apply (undereferenced_method_is_unresolved (serving didDocument settling) true
           (initialWorld didKeyCredential) didKeyMethod).
  - apply reach_start.
  - vm_compute. reflexivity.
  - vm_compute. reflexivity.
  - vm_compute. reflexivity.
Defined.

Lemma resolver_exception_witness :
  let E := serving didDocument settling in
  let w1 :=
    after (getPublicKeyFromDID E JUndefined true)
      (checked true (initialWorld methodlessCredential)) in
  verifyCredentialSignature E true (initialWorld methodlessCredential)
  = (Returned (mkResult false
                 (Some (Message "Cannot read properties of undefined (reading 'split')"))
                 None None None), w1) /\
  suitesBuilt w1 = [] /\ verifyCalls w1 = [].
Proof.
  cbv zeta.
  apply (resolver_exception_is_reported (serving didDocument settling) true
           (initialWorld methodlessCredential) _
           (TypeError "Cannot read properties of undefined (reading 'split')"));
    vm_compute; reflexivity.
Defined.

Lemma missing_method_witness :
  let E := serving keylessDocument settling in
  let w1 :=
    after (loadUrlDocument E (JString did))
      (announced true vm (checked true (initialWorld credential))) in
  verifyCredentialSignature E true (initialWorld credential)
  = (Returned (mkResult false
                 (Some (Message ("Verification method " +:+ vm
                                 +:+ " not found in DID document")))
                 None None None), w1).
Proof.
  cbv zeta.
  apply (missing_method_is_reported (serving keylessDocument settling) true
           (initialWorld credential) _ vm
           (mkResolved JNull keylessDocument (JString did))).
  - vm_compute. reflexivity.
  - vm_compute. reflexivity.
  - vm_compute. reflexivity.
  - vm_compute. reflexivity.
  - repeat constructor.
  - vm_compute. reflexivity.
Defined.

Lemma rejected_key_witness :
  exists w',
    verifyCredentialSignature (refusing didDocument keyError settling) true
      (initialWorld credential)
    = (Returned (mkResult false
                   (Some (Message "The publicKeyBase58 property is required."))
                   None None None), w') /\
    suitesBuilt w' = [] /\ verifyCalls w' = [].
Proof.
  apply (rejected_key_is_reported (refusing didDocument keyError settling) true
           (initialWorld credential)
           (after (getPublicKeyFromDID (refusing didDocument keyError settling)
                     (JString vm) true)
              (checked true (initialWorld credential)))
           fragmentKey keyError);
    vm_compute; reflexivity.
Defined.

Lemma rejected_suite_witness :
  exists w',
    verifyCredentialSignature (suiteRefusing didDocument suiteError settling) true
      (initialWorld credential)
    = (Returned (mkResult false
                   (Some (Message "The key is not of the expected type."))
                   None None None), w') /\
    suitesBuilt w' = [] /\ verifyCalls w' = [] /\ timersFired w' = [].
Proof.
  apply (rejected_suite_is_reported (suiteRefusing didDocument suiteError settling) true
           (initialWorld credential)
           (after (getPublicKeyFromDID (suiteRefusing didDocument suiteError settling)
                     (JString vm) true)
              (checked true (initialWorld credential)))
           fragmentKey suiteError);
    vm_compute; reflexivity.
Defined.

Lemma verified_only_by_the_library_witness :
  let E := serving didDocument settling in
  let c := credential in
  let w' := after (verifyCredentialSignature E false) (initialWorld credential) in
  exists pk w1,
    proof_accepted c = true /\
    getPublicKeyFromDID E (get "verificationMethod" (get "proof" c)) false
      (checked false (initialWorld credential)) = (Returned pk, w1) /\
    truthy pk = true /\
    keyRejected E pk = None /\
    suiteRejected E (mkKey pk) (get "id" pk) = None /\
    run_verify E (jsigs_verify E c (mkSuite (mkKey pk) (get "id" pk)))
      (assembled false c (mkSuite (mkKey pk) (get "id" pk)) w1)
    = (Returned (Some JsigsVerified), w') /\
    verifyCalls w' = [(c, mkSuite (mkKey pk) (get "id" pk))] /\
    timersFired w' = [] /\
    mkResult true None None None None = mkResult true None None None None.
Proof.
  cbv zeta.
  apply (verified_only_by_the_library (serving didDocument settling) false
           (initialWorld credential) _ (mkResult true None None None None)).
  - vm_compute. reflexivity.
  - reflexivity.
Defined.

Lemma timeout_in_message_witness :
  let E := serving didDocument (Settle (inl slowNetworkError)) in
  exists w3,
    verifyCredentialSignature E true (initialWorld credential)
    = (Returned timeout_result, w3) /\
    timersFired w3 = [].
Proof.
  cbv zeta. eexists.
  apply (timeout_in_message_is_reported_as_timeout
           (serving didDocument (Settle (inl slowNetworkError))) true
           (initialWorld credential)
           (after (getPublicKeyFromDID (serving didDocument (Settle (inl slowNetworkError)))
                     (JString vm) true)
              (checked true (initialWorld credential)))
           _ fragmentKey slowNetworkError);
    vm_compute; reflexivity.
Defined.

Lemma safe_mode_witness :
  let E := serving didDocument (Settle (inl safeModeError)) in
  exists w3 r,
    verifyCredentialSignature E true (initialWorld credential) = (Returned r, w3) /\
    verified r = false /\
    errorType r = Some "SAFE_MODE" /\
    originalError r = Some "Safe mode validation error." /\
    errors r = None.
Proof.
  cbv zeta. eexists.
  apply (safe_mode_error_is_reported
           (serving didDocument (Settle (inl safeModeError))) true
           (initialWorld credential)
           (after (getPublicKeyFromDID (serving didDocument (Settle (inl safeModeError)))
                     (JString vm) true)
              (checked true (initialWorld credential)))
           _ fragmentKey safeModeError);
    vm_compute; reflexivity.
Defined.

Lemma summary_displayed_witness :
  (exists info,
     displayCredentialInfo credential = inr info /\
     proofType info = "Ed25519Signature2018") /\
  (printable (get "id" credential) = true ->
   printable (get "type" credential) = true ->
   issuer_displayable credential = false ->
   displayCredentialInfo credential
   = inl (TypeError "issuerDid.startsWith is not a function")).
Proof.
  apply (summary_displayed_iff_displayable credential).
  vm_compute. reflexivity.
Defined.

Lemma issuer_link_witness :
  exists info,
    displayCredentialInfo credential = inr info /\
    credentialIssuer info
    = IssuerMarkup
        ("<a href=" +:+ quoted "https://example.com/issuer/did.json"
         +:+ " target=" +:+ quoted "_blank"
         +:+ " rel=" +:+ quoted "noopener" +:+ ">" +:+ did +:+ "</a>") /\
    requests (after (loadUrlDocument (serving didDocument settling) (JString did))
                (initialWorld credential))
    = ["https://example.com/issuer/did.json"].
Proof.
  apply (issuer_link_is_the_address_fetched (serving didDocument settling) credential did
           (initialWorld credential));
    vm_compute; reflexivity.
Defined.

Lemma page_shows_the_result_screen_witness :
  let E := serving didDocument stalling in
  exists r w',
    verifyCredentialSignature E true (initialWorld credential) = (Returned r, w') /\
    processCredential E (initialWorld credential)
    = (Returned (Some Summaries.credential, show_result r), w') /\
    forall message, show_result r <> ShowError message.
Proof.
  cbv zeta.
  apply (page_shows_the_result_screen (serving didDocument stalling)
           (initialWorld credential) Summaries.credential).
  - vm_compute. reflexivity.
  - vm_compute. reflexivity.
  - intros (_ & method & Hmethod & Hans). vm_compute in Hmethod.
    injection Hmethod as <-. vm_compute in Hans. discriminate Hans.
Defined.

Lemma success_screen_witness :
  let E := serving didDocument settling in
  let w' := after (processCredential E) (initialWorld credential) in
  exists pk w1,
    validateCredentialStructure credential = inr Accepted /\
    getPublicKeyFromDID E (get "verificationMethod" (get "proof" credential)) true
      (checked true (initialWorld credential)) = (Returned pk, w1) /\
    truthy pk = true /\
    keyRejected E pk = None /\
    suiteRejected E (mkKey pk) (get "id" pk) = None /\
    run_verify E (jsigs_verify E credential (mkSuite (mkKey pk) (get "id" pk)))
      (assembled true credential (mkSuite (mkKey pk) (get "id" pk)) w1)
    = (Returned (Some JsigsVerified), w').
Proof.
  cbv zeta.
  apply (success_screen_only_when_verified (serving didDocument settling)
           (initialWorld credential) _ (Some Summaries.credential)).
  vm_compute. reflexivity.
Defined.

Lemma issuer_object_witness :
  reader_onload (serving didDocument settling) (inr issuerObjectCredential)
    (initialWorld JNull)
  = (Returned
       (None, ShowError "Invalid JSON file: issuerDid.startsWith is not a function"),
     initialWorld issuerObjectCredential).
Proof.
  apply (issuer_object_reported_as_invalid_file (serving didDocument settling)
           issuerObjectCredential (initialWorld JNull));
    vm_compute; reflexivity.
Defined.

Lemma undereferenced_method_shows_partial_witness :
  exists w',
    processCredential (serving didDocument settling) (initialWorld didKeyCredential)
    = (Returned (Some Summaries.didKeyCredential, ShowPartialSuccess), w') /\
    requests w' = [].
Proof.
  apply (undereferenced_method_shows_partial (serving didDocument settling)
           (initialWorld didKeyCredential) didKeyMethod Summaries.didKeyCredential).
  - apply reach_start.
  - vm_compute. reflexivity.
  - vm_compute. reflexivity.
  - vm_compute. reflexivity.
  - vm_compute. reflexivity.
Defined.

Lemma summary_exception_witness :
  exists msg w',
    reader_onload (serving didDocument settling) (inr opaqueTypeEntryCredential)
      (initialWorld JNull)
    = (Returned (None, ShowError ("Invalid JSON file: " +:+ msg)), w') /\
    (msg = "Cannot convert object to primitive value" \/
     msg = "issuerDid.startsWith is not a function") /\
    requests w' = [] /\ loaderCalls w' = [] /\ verifyCalls w' = [].
Proof.
  apply (summary_exception_reported_as_invalid_file (serving didDocument settling)
           opaqueTypeEntryCredential (initialWorld JNull));
    vm_compute; reflexivity.
Defined.

Lemma footprint_without_string_witness :
  let E := serving didDocument settling in
  let w' := after (getPublicKeyFromDID E JUndefined true) (initialWorld JNull) in
  loaderCalls w' = [] /\ requests w' = [] /\ documentCache w' = ∅ /\
  exists msg,
    fst (getPublicKeyFromDID E JUndefined true (initialWorld JNull))
    = Thrown (TypeError msg).
Proof.
  cbv zeta.
  apply (proj2 (proj2 (getPublicKeyFromDID_footprint (serving didDocument settling)
                         JUndefined true (initialWorld JNull)))).
  intros s. discriminate.
Defined.
